(** * Bilibili M4S batch converter: header repair, layout detection,
      track selection and the merge fallback chain

    A shallow embedding of [src/bilibili.py].  Each definition carries the
    name of the Python function (or the line range) it is translated from.

    Conventions.
    - A Python [bytes]/[bytearray] is a [list byte].
    - A Python [str] is the list of its code points ([pystr]); [len] and
      slicing count code points, as in Python.
    - A binary input file is given by what successive [read] calls can
      deliver (see [Repair.istream]); an ordinary file on disk is the one-burst
      stream [Repair.of_file].
    - Code that can raise runs in a small state-and-exception monad; a
      [try/except Exception] becomes a match on the raised outcome. *)

From Stdlib Require Import String Ascii Strings.Byte.
From Stdlib Require Import List Arith ZArith NArith Bool Lia.
From Stdlib Require Import Sorting.Sorted Sorting.Permutation.
From Stdlib Require DecimalNat Finite.
Import ListNotations.


(* ================================================================== *)
(** ** Outcomes of Python code that may raise *)

Inductive exn : Type :=
| OSError        (* open / read / write / listdir / mkstemp / close failed *)
| IndexError     (* sequence index out of range *)
| TypeError      (* operation applied to a value of the wrong type *)
| KeyError
| AttributeError.

Inductive res (A : Type) : Type :=
| Ok (a : A)
| Raise (e : exn)
| Timeout.       (* loop fuel exhausted: never reached, see [loop_spec] *)

Arguments Ok {A} a.
Arguments Raise {A} e.
Arguments Timeout {A}.

(** The [level] argument of [log_callback] / [add_log]. *)
Inductive level : Type := info | warning | success | error.

Definition level_eqb (a b : level) : bool :=
  match a, b with
  | info, info | warning, warning | success, success | error, error => true
  | _, _ => false
  end.

(* ================================================================== *)
(** ** [decode_bilibili_m4s] (lines 66-120) *)

Module Repair.

Definition bytes := list byte.

(** What the input file can deliver.  A [Data bs] burst is a run of bytes
    available before the reader sees end-of-data once; [read n] hands out at
    most [n] of them.  [ReadError] makes the next [read] raise.  A static
    file with content [bs] is [of_file bs]: every read is full until the
    content is exhausted, then empty. *)
Inductive burst : Type :=
| Data (bs : bytes)
| ReadError.

Definition istream := list burst.

Definition of_file (content : bytes) : istream := [Data content].

(** The output file: bytes written so far, and how many more bytes the
    device accepts ([None]: no limit). *)
Record ofile : Type := { written : bytes; room : option nat }.

(** The messages the function passes to [log_callback], in source order. *)
Inductive msg : Type :=
| MStart            (* line 72 *)
| MHeaderTooShort   (* line 86 *)
| MByte3TooShort    (* line 97 *)
| MIso5Absent       (* line 102 *)
| MIso5Found        (* line 105 *)
| MIso5TooShort     (* line 107 *)
| MDone             (* line 116 *)
| MFailed.          (* line 119 *)

Definition entry := (msg * level)%type.

Record st : Type := { fin : istream; fout : ofile; log : list entry }.

Definition M (A : Type) := st -> res A * st.

Definition ret {A} (a : A) : M A := fun s => (Ok a, s).
Definition bind {A B} (m : M A) (k : A -> M B) : M B :=
  fun s => match m s with
           | (Ok a, s') => k a s'
           | (Raise e, s') => (Raise e, s')
           | (Timeout, s') => (Timeout, s')
           end.
Definition lift {A} (r : res A) : M A := fun s => (r, s).

Notation "x <- m ;; k" := (bind m (fun x => k))
  (at level 61, m at next level, right associativity).
Notation "m ;;; k" := (bind m (fun _ => k))
  (at level 61, right associativity).

(** [fin.read(n)] *)
Definition read (n : nat) : M bytes := fun s =>
  match fin s with
  | [] => (Ok [], s)
  | ReadError :: rest =>
      (Raise OSError, {| fin := rest; fout := fout s; log := log s |})
  | Data bs :: rest =>
      if length bs <=? n
      then (Ok bs, {| fin := rest; fout := fout s; log := log s |})
      else (Ok (firstn n bs),
            {| fin := Data (skipn n bs) :: rest; fout := fout s; log := log s |})
  end.

(** [fout.write(data)] *)
Definition write (data : bytes) : M unit := fun s =>
  let o := fout s in
  match room o with
  | None =>
      (Ok tt, {| fin := fin s;
                 fout := {| written := written o ++ data; room := None |};
                 log := log s |})
  | Some r =>
      if length data <=? r
      then (Ok tt, {| fin := fin s;
                      fout := {| written := written o ++ data;
                                 room := Some (r - length data) |};
                      log := log s |})
      else (Raise OSError, s)
  end.

(** [if log_callback: log_callback(m, l)] *)
Definition emit (log_callback : bool) (m : msg) (l : level) : M unit := fun s =>
  (Ok tt, if log_callback
          then {| fin := fin s; fout := fout s; log := log s ++ [(m, l)] |}
          else s).

(** [data[i]], [data[i] = b] and [del data[i:j]] on a bytearray. *)
Definition getitem (data : bytes) (i : nat) : res byte :=
  match nth_error data i with
  | Some b => Ok b
  | None => Raise IndexError
  end.

Definition setitem (data : bytes) (i : nat) (b : byte) : res bytes :=
  if i <? length data
  then Ok (firstn i data ++ b :: skipn (S i) data)
  else Raise IndexError.

Definition delslice (data : bytes) (i j : nat) : bytes :=
  firstn i data ++ skipn (Nat.max i j) data.

(** [data[i] == b and rest], evaluated left to right with short circuit. *)
Definition item_is (data : bytes) (i : nat) (b : byte) (rest : M bool) : M bool :=
  x <- lift (getitem data i) ;;
  if Byte.eqb x b then rest else ret false.

(** Lines 93-109: steps 2 and 3 on [data], then [fout.write(data)]. *)
Definition patch_and_write (log_callback : bool) (data : bytes) : M unit :=
  data <- (if 3 <? length data
           then lift (setitem data 3 x20)
           else emit log_callback MByte3TooShort warning ;;; ret data) ;;
  data <- (if 20 <=? length data
           then
             iso5 <- item_is data 16 x69 (item_is data 17 x73
                       (item_is data 18 x6f (item_is data 19 x35 (ret true)))) ;;
             if negb iso5
             then emit log_callback MIso5Absent info ;;; ret (delslice data 16 20)
             else emit log_callback MIso5Found info ;;; ret data
           else if 16 <? length data
           then emit log_callback MIso5TooShort warning ;;; ret data
           else ret data) ;;
  write data.

(** Lines 75-115: the [while True] loop; the argument after the fuel is
    [first_chunk_processed].  [ret tt] is [break]. *)
Fixpoint loop (log_callback : bool) (fuel : nat) (first_chunk_processed : bool)
  : M unit :=
  match fuel with
  | O => lift Timeout
  | S fuel' =>
      if negb first_chunk_processed then
        buffer <- read 1024 ;;
        match buffer with
        | [] => ret tt
        | _ :: _ =>
            let data := buffer in
            if 9 <=? length data then
              patch_and_write log_callback (delslice data 0 9) ;;;
              loop log_callback fuel' true
            else
              emit log_callback MHeaderTooShort warning ;;;
              write data ;;;
              buffer <- read 4096 ;;
              match buffer with
              | [] => ret tt
              | _ :: _ =>
                  patch_and_write log_callback buffer ;;;
                  loop log_callback fuel' true
              end
        end
      else
        buffer <- read 4096 ;;
        match buffer with
        | [] => ret tt
        | _ :: _ => write buffer ;;; loop log_callback fuel' true
        end
  end.

(** Every [read] of a positive size shrinks this measure, so it bounds the
    number of loop iterations. *)
Definition burst_size (b : burst) : nat :=
  match b with Data bs => S (length bs) | ReadError => 1 end.

Definition stream_size (s : istream) : nat :=
  fold_right (fun b n => burst_size b + n) 0 s.

(** What the caller can observe afterwards. *)
Record outcome : Type := {
  returned : bool;
  output : option bytes;     (* [None]: the output file was never opened *)
  logged : list entry
}.

Definition say (log_callback : bool) (l : list entry) (m : msg) (lv : level)
  : list entry :=
  if log_callback then l ++ [(m, lv)] else l.

(** The whole function.  [input] and [output_room] are what the two [open]
    calls yield: [None] for the input means it cannot be opened; for the
    output, [None] means it cannot be created, [Some r] gives its [room]. *)
Definition decode_bilibili_m4s (input : option istream)
    (output_room : option (option nat)) (log_callback : bool) : outcome :=
  let log0 := say log_callback [] MStart info in
  match input with
  | None =>
      {| returned := false; output := None;
         logged := say log_callback log0 MFailed error |}
  | Some i =>
      match output_room with
      | None =>
          {| returned := false; output := None;
             logged := say log_callback log0 MFailed error |}
      | Some r =>
          let s0 := {| fin := i; fout := {| written := []; room := r |};
                       log := log0 |} in
          match loop log_callback (S (S (stream_size i))) false s0 with
          | (Ok _, s) =>
              {| returned := true; output := Some (written (fout s));
                 logged := say log_callback (log s) MDone success |}
          | (_, s) =>
              {| returned := false; output := Some (written (fout s));
                 logged := say log_callback (log s) MFailed error |}
          end
      end
  end.

(** *** The byte transform, stated on its own

    What lines 93-108 compute, as plain list functions; the lemmas below
    show that the monadic code computes exactly this and never indexes out
    of range. *)

Definition patch3 (data : bytes) : bytes :=
  if 3 <? length data then firstn 3 data ++ x20 :: skipn 4 data else data.

(** Bytes 16-19 of [data] are "iso5". *)
Definition has_brand (data : bytes) : bool :=
  match firstn 4 (skipn 16 data) with
  | [a; b; c; d] =>
      Byte.eqb a x69 && Byte.eqb b x73 && Byte.eqb c x6f && Byte.eqb d x35
  | _ => false
  end.

Definition strip_brand (data : bytes) : bytes :=
  if (20 <=? length data) && negb (has_brand data)
  then firstn 16 data ++ skipn 20 data
  else data.

Definition repair_chunk (data : bytes) : bytes := strip_brand (patch3 data).

Definition chunk_notes (data : bytes) : list entry :=
  (if 3 <? length data then [] else [(MByte3TooShort, warning)]) ++
  (if 20 <=? length data
   then if has_brand data then [(MIso5Found, info)] else [(MIso5Absent, info)]
   else if 16 <? length data then [(MIso5TooShort, warning)] else []).

Definition add_log (log_callback : bool) (s : st) (l : list entry) : st :=
  {| fin := fin s; fout := fout s;
     log := if log_callback then log s ++ l else log s |}.

(** The bytes a stream hands over before its first empty read, and whether
    a read error is met before that. *)
Fixpoint delivered (s : istream) : bytes :=
  match s with
  | Data (b :: bs) :: rest => (b :: bs) ++ delivered rest
  | _ => []
  end.

Fixpoint hits_read_error (s : istream) : bool :=
  match s with
  | ReadError :: _ => true
  | Data (_ :: _) :: rest => hits_read_error rest
  | _ => false
  end.

(** The chunk a fault-free [read(n)] returns, and the stream it leaves. *)
Definition chunk (n : nat) (s : istream) : bytes :=
  match s with
  | Data bs :: _ => firstn n bs
  | _ => []
  end.

Definition rest_after (n : nat) (s : istream) : istream :=
  match s with
  | [] => []
  | Data bs :: rest => if length bs <=? n then rest else Data (skipn n bs) :: rest
  | ReadError :: rest => rest
  end.

(** The chunk returned by the first [read(1024)]. *)
Definition first_chunk (s : istream) : bytes := chunk 1024 s.

(** The output expected from a run without I/O errors, and the notes it
    logs between [MStart] and [MDone]. *)
Definition repaired (s : istream) : bytes :=
  let c := first_chunk s in
  let s1 := rest_after 1024 s in
  match c with
  | [] => []
  | _ :: _ =>
      if 9 <=? length c
      then repair_chunk (skipn 9 c) ++ delivered s1
      else c ++ match chunk 4096 s1 with
                | [] => []
                | c2 => repair_chunk c2 ++ delivered (rest_after 4096 s1)
                end
  end.

Definition header_notes (s : istream) : list entry :=
  let c := first_chunk s in
  match c with
  | [] => []
  | _ :: _ =>
      if 9 <=? length c
      then chunk_notes (skipn 9 c)
      else (MHeaderTooShort, warning) ::
           match chunk 4096 (rest_after 1024 s) with
           | [] => []
           | c2 => chunk_notes c2
           end
  end.

(** The state after a successful [write d]. *)
Definition wrote (d : bytes) (s : st) : st :=
  {| fin := fin s;
     fout := {| written := written (fout s) ++ d;
                room := option_map (fun r => r - length d) (room (fout s)) |};
     log := log s |}.

Definition fits (room : option nat) (n : nat) : bool :=
  match room with
  | None => true
  | Some r => n <=? r
  end.

(** An I/O error occurs in the run: a file cannot be opened, a read
    raises before end of input, or the output device has no room for the
    bytes to be written. *)
Definition io_error (input : option istream) (output_room : option (option nat))
  : bool :=
  match input, output_room with
  | Some s, Some r => hits_read_error s || negb (fits r (length (repaired s)))
  | _, _ => true
  end.

Definition is_warning (e : entry) : bool := level_eqb (snd e) warning.

(** *** Statements about runs

    The postconditions proved of the copy loop, of a patched chunk followed
    by the copy loop, and of the whole loop. *)

(** After the copy loop (lines 111-115) started in [s]. *)
Definition copy_post (s : st) (r : res unit * st) : Prop :=
  match r with
  | (Ok _, s') =>
      hits_read_error (fin s) = false
      /\ fits (room (fout s)) (length (delivered (fin s))) = true
      /\ written (fout s') = written (fout s) ++ delivered (fin s)
      /\ log s' = log s
  | (Raise e, _) =>
      e = OSError
      /\ (hits_read_error (fin s) = true
          \/ fits (room (fout s)) (length (delivered (fin s))) = false)
  | (Timeout, _) => False
  end.

(** After [patch_and_write d] followed by the copy loop. *)
Definition chunk_post (lc : bool) (d : bytes) (s : st) (r : res unit * st) : Prop :=
  match r with
  | (Ok _, s') =>
      hits_read_error (fin s) = false
      /\ fits (room (fout s)) (length (repair_chunk d ++ delivered (fin s))) = true
      /\ written (fout s') = written (fout s) ++ repair_chunk d ++ delivered (fin s)
      /\ log s' = log (add_log lc s (chunk_notes d))
  | (Raise e, _) =>
      e = OSError
      /\ (hits_read_error (fin s) = true
          \/ fits (room (fout s)) (length (repair_chunk d ++ delivered (fin s))) = false)
  | (Timeout, _) => False
  end.

(** After the whole loop started in [s] with [first_chunk_processed]
    false. *)
Definition loop_post (lc : bool) (s : st) (r : res unit * st) : Prop :=
  match r with
  | (Ok _, s') =>
      hits_read_error (fin s) = false
      /\ fits (room (fout s)) (length (repaired (fin s))) = true
      /\ written (fout s') = written (fout s) ++ repaired (fin s)
      /\ log s' = log (add_log lc s (header_notes (fin s)))
  | (Raise e, _) =>
      e = OSError
      /\ (hits_read_error (fin s) = true
          \/ fits (room (fout s)) (length (repaired (fin s))) = false)
  | (Timeout, _) => False
  end.

(** An ASCII literal as bytes. *)
Definition ascii_bytes (s : string) : bytes := list_byte_of_string s.

End Repair.

(* ================================================================== *)
(** ** Python strings *)

Definition pystr := list N.

(** An ASCII literal as a Python string. *)
Definition str (s : string) : pystr :=
  map N_of_ascii (list_ascii_of_string s).

Fixpoint str_eqb (a b : pystr) : bool :=
  match a, b with
  | [], [] => true
  | x :: a', y :: b' => N.eqb x y && str_eqb a' b'
  | _, _ => false
  end.

(** [name in items] for a list of strings. *)
Definition mem (name : pystr) (items : list pystr) : bool :=
  existsb (str_eqb name) items.

(** [s.startswith(p)] *)
Fixpoint startswith (s p : pystr) : bool :=
  match p, s with
  | [], _ => true
  | y :: p', x :: s' => N.eqb x y && startswith s' p'
  | _ :: _, [] => false
  end.

(** [s.endswith(p)] *)
Definition endswith (s p : pystr) : bool := startswith (rev s) (rev p).

(** [p in s] for two strings: [p] occurs in [s] as a substring. *)
Fixpoint contains (s p : pystr) : bool :=
  startswith s p ||
  match s with
  | [] => false
  | _ :: s' => contains s' p
  end.

(** [s.lower()] on the ASCII letters.  No other code point lowers to one
    of the four characters of the suffix tested below, so that test is
    exact. *)
Definition lower_char (c : N) : N :=
  if (65 <=? c)%N && (c <=? 90)%N then (c + 32)%N else c.

Definition lower (s : pystr) : pystr := map lower_char s.

(** [f.lower().endswith('.m4s')] *)
Definition is_m4s (f : pystr) : bool := endswith (lower f) (str ".m4s").

(* ================================================================== *)
(** ** [sanitize_filename] (lines 538-542) *)

Module Sanitize.

(** The character class of the first [re.sub]: backslash, slash, star,
    question mark, colon, double quote, angle brackets and bar. *)
Definition illegal (c : N) : bool :=
  existsb (N.eqb c) [92; 47; 42; 63; 58; 34; 60; 62; 124]%N.

(** Unicode whitespace as [\s] and [str.strip] see it. *)
Definition is_space (c : N) : bool :=
  ((9 <=? c) && (c <=? 13) || (28 <=? c) && (c <=? 32)
   || (c =? 133) || (c =? 160) || (c =? 5760)
   || (8192 <=? c) && (c <=? 8202)
   || (c =? 8232) || (c =? 8233) || (c =? 8239) || (c =? 8287)
   || (c =? 12288))%N.

Definition underscore : N := 95%N.
Definition space : N := 32%N.

(** The first [re.sub]: each character of the class becomes an underscore. *)
Definition replace_illegal (s : pystr) : pystr :=
  map (fun c => if illegal c then underscore else c) s.

(** [re.sub(r'\s+', ' ', filename)]: every maximal run of whitespace
    becomes one space.  [in_run] tells that the previous character was
    whitespace. *)
Fixpoint collapse_from (in_run : bool) (s : pystr) : pystr :=
  match s with
  | [] => []
  | c :: s' =>
      if is_space c
      then if in_run then collapse_from true s' else space :: collapse_from true s'
      else c :: collapse_from false s'
  end.

Definition collapse_whitespace (s : pystr) : pystr := collapse_from false s.

(** [s.strip()] *)
Fixpoint lstrip (s : pystr) : pystr :=
  match s with
  | [] => []
  | c :: s' => if is_space c then lstrip s' else s
  end.

Definition rstrip (s : pystr) : pystr := rev (lstrip (rev s)).

Definition strip (s : pystr) : pystr := rstrip (lstrip s).

(** The string before the final slice. *)
Definition normalized (filename : pystr) : pystr :=
  strip (collapse_whitespace (replace_illegal filename)).

(** [filename] is the argument after [str(filename)]. *)
Definition sanitize_filename (filename : pystr) : pystr :=
  firstn 150 (normalized filename).

(** *** Properties of a sanitized name *)

(** [c] is outside the replaced character class. *)
Definition legal (c : N) : Prop := illegal c = false.

(** Whitespace occurs in [l] only as single U+0020 characters, none next
    to another; [prev_space] tells that a space precedes [l]. *)
Fixpoint spaced_ok (prev_space : bool) (l : pystr) : bool :=
  match l with
  | [] => true
  | c :: l' =>
      if is_space c
      then negb prev_space && N.eqb c space && spaced_ok true l'
      else spaced_ok false l'
  end.

(** *** The claim's words

    The words of a string are its maximal runs of characters that are not
    whitespace, in order; [unwords] writes words with one space between
    neighbours.  Collapsing every run of whitespace to one space and
    trimming both ends is [unwords (words s)]. *)
Fixpoint words (s : pystr) : list pystr :=
  match s with
  | [] => []
  | c :: s' =>
      if is_space c then words s'
      else match s' with
           | d :: _ =>
               if is_space d then [c] :: words s'
               else match words s' with
                    | w :: ws => (c :: w) :: ws
                    | [] => [[c]]
                    end
           | [] => [[c]]
           end
  end.

Fixpoint unwords (ws : list pystr) : pystr :=
  match ws with
  | [] => []
  | w :: ws' =>
      match ws' with
      | [] => w
      | _ :: _ => w ++ space :: unwords ws'
      end
  end.

(** The claim's three steps before the cut, in its own terms. *)
Definition replaced_collapsed_trimmed (filename : pystr) : pystr :=
  unwords (words (map (fun c => if illegal c then underscore else c) filename)).

End Sanitize.

(* ================================================================== *)
(** ** Title selection in [process_single_folder] (lines 781-813) *)

Inductive structure_type : Type := pc | mobile | unknown.

Module Title.

(** A value produced by [json.load].  A number that is not an integer
    behaves here like a non-zero [JNum]. *)
#[warnings="-register-all"]
Inductive json : Type :=
| JNull
| JBool (b : bool)
| JNum (n : Z)
| JStr (s : pystr)
| JArr (items : list json)
| JObj (members : list (pystr * json)).

Definition rbind {A B} (m : res A) (k : A -> res B) : res B :=
  match m with
  | Ok a => k a
  | Raise e => Raise e
  | Timeout => Timeout
  end.

Notation "x <- m ;; k" := (rbind m (fun x => k))
  (at level 61, m at next level, right associativity).

Fixpoint lookup_member (key : pystr) (members : list (pystr * json))
  : option json :=
  match members with
  | [] => None
  | (k, v) :: rest => if str_eqb key k then Some v else lookup_member key rest
  end.

(** Truth value of [v] in a condition. *)
Definition truthy (v : json) : bool :=
  match v with
  | JNull => false
  | JBool b => b
  | JNum n => negb (Z.eqb n 0)
  | JStr s => match s with [] => false | _ => true end
  | JArr items => match items with [] => false | _ => true end
  | JObj members => match members with [] => false | _ => true end
  end.

(** [key in v] *)
Definition py_in (key : pystr) (v : json) : res bool :=
  match v with
  | JObj members =>
      Ok (match lookup_member key members with Some _ => true | None => false end)
  | JArr items =>
      Ok (existsb (fun x => match x with JStr s => str_eqb s key | _ => false end)
                  items)
  | JStr s => Ok (contains s key)
  | _ => Raise TypeError
  end.

(** [v[key]] *)
Definition py_getitem (v : json) (key : pystr) : res json :=
  match v with
  | JObj members =>
      match lookup_member key members with
      | Some x => Ok x
      | None => Raise KeyError
      end
  | _ => Raise TypeError
  end.

(** [v.get(key, '')] *)
Definition py_get (v : json) (key : pystr) : res json :=
  match v with
  | JObj members =>
      Ok (match lookup_member key members with Some x => x | None => JStr [] end)
  | _ => Raise AttributeError
  end.

(** [k in v and v[k]] as a condition. *)
Definition present_and_truthy (k : pystr) (v : json) : res bool :=
  b <- py_in k v ;;
  if b then x <- py_getitem v k ;; Ok (truthy x) else Ok false.

(** [k1 in v and k2 in v[k1]] *)
Definition nested_present (k1 k2 : pystr) (v : json) : res bool :=
  b <- py_in k1 v ;;
  if b then x <- py_getitem v k1 ;; py_in k2 x else Ok false.

(** Lines 787-802: the value assigned to [video_title] by the first branch
    of the [if/elif] chain that is taken; [None] when none is. *)
Definition probe (st : structure_type) (video_info : json) : res (option json) :=
  match st with
  | pc =>
      c1 <- present_and_truthy (str "title") video_info ;;
      if c1 then x <- py_getitem video_info (str "title") ;; Ok (Some x) else
      c2 <- nested_present (str "videoData") (str "title") video_info ;;
      if c2 then
        d <- py_getitem video_info (str "videoData") ;;
        x <- py_getitem d (str "title") ;; Ok (Some x)
      else
      c3 <- nested_present (str "page_data") (str "part") video_info ;;
      if c3 then
        d <- py_getitem video_info (str "page_data") ;;
        x <- py_getitem d (str "part") ;; Ok (Some x)
      else
      c4 <- present_and_truthy (str "videoName") video_info ;;
      if c4 then x <- py_getitem video_info (str "videoName") ;; Ok (Some x)
      else Ok None
  | mobile =>
      c1 <- present_and_truthy (str "title") video_info ;;
      if c1 then x <- py_getitem video_info (str "title") ;; Ok (Some x) else
      c2 <- nested_present (str "page_data") (str "part") video_info ;;
      if c2 then
        d <- py_getitem video_info (str "page_data") ;;
        x <- py_get d (str "part") ;; Ok (Some x)
      else Ok None
  | unknown => Ok None
  end.

Section WithRepr.

(** [str(v)] of a value that is not a string; its exact text plays no role
    below. *)
Variable repr : json -> pystr.

Definition py_str (v : json) : pystr :=
  match v with
  | JStr s => s
  | _ => repr v
  end.

(** Lines 782-813.  [loaded] is the outcome of opening the descriptor and
    [json.load]; the result is [sanitized_title], or [None] when the
    function returns [False] at line 807. *)
Definition choose_title (st : structure_type) (loaded : res json)
    (folder_basename : pystr) : option pystr :=
  match (video_info <- loaded ;;
         chosen <- probe st video_info ;;
         Ok (match chosen with
             | Some v => v
             | None => JStr (str "untitled_video")
             end)) with
  | Ok video_title =>
      let sanitized_title := Sanitize.sanitize_filename (py_str video_title) in
      match sanitized_title with
      | _ :: _ => Some sanitized_title
      | [] =>
          let sanitized_title := Sanitize.sanitize_filename folder_basename in
          match sanitized_title with
          | _ :: _ => Some sanitized_title
          | [] => Some (str "converted_video")
          end
      end
  | _ => None
  end.

End WithRepr.

(** *** The fallback title and two sample descriptors *)

(** Lines 811-812: the folder's base name, or the fixed literal when the
    base name sanitizes to nothing. *)
Definition fallback_title (folder_basename : pystr) : pystr :=
  match Sanitize.sanitize_filename folder_basename with
  | [] => str "converted_video"
  | t => t
  end.

(** A stand-in for [str] on values that are not strings. *)
Definition no_repr (v : json) : pystr := [].

(** A desktop descriptor whose only title is blank. *)
Definition empty_title_info : json :=
  JObj [(str "videoData", JObj [(str "title", JStr (str "  "))])].

End Title.

(* ================================================================== *)
(** ** The directory tree seen through [os] and [os.path] *)

Module FS.

(** A path is the list of its components below the root of the tree. *)
Definition path := list pystr.

(** A file carries what [os.path.getsize] and [open(.., 'rb')] yield for it
    ([None]: the call raises [OSError]); a directory carries its size,
    whether [os.listdir] is permitted, and its entries in listing order. *)
#[warnings="-register-all"]
Inductive node : Type :=
| File (st_size : option N) (content : option Repair.istream)
| Dir (st_size : option N) (listable : bool) (entries : list (pystr * node)).

Fixpoint find_entry (name : pystr) (entries : list (pystr * node))
  : option node :=
  match entries with
  | [] => None
  | (k, n) :: rest => if str_eqb name k then Some n else find_entry name rest
  end.

Fixpoint lookup (p : path) (n : node) : option node :=
  match p with
  | [] => Some n
  | c :: p' =>
      match n with
      | Dir _ _ entries =>
          match find_entry c entries with
          | Some child => lookup p' child
          | None => None
          end
      | File _ _ => None
      end
  end.

(** [os.path.join(p, name)] for a plain entry name. *)
Definition join (p : path) (name : pystr) : path := p ++ [name].

(** [os.path.basename(p)] *)
Definition basename (p : path) : pystr := last p [].

(** [os.listdir(p)] *)
Definition listdir (fs : node) (p : path) : res (list pystr) :=
  match lookup p fs with
  | Some (Dir _ true entries) => Ok (map fst entries)
  | _ => Raise OSError
  end.

(** [os.path.isdir(p)] and [os.path.exists(p)] *)
Definition isdir (fs : node) (p : path) : bool :=
  match lookup p fs with
  | Some (Dir _ _ _) => true
  | _ => false
  end.

Definition exists_ (fs : node) (p : path) : bool :=
  match lookup p fs with
  | Some _ => true
  | None => false
  end.

(** [os.path.getsize(p)] *)
Definition getsize (fs : node) (p : path) : res N :=
  match lookup p fs with
  | Some (File (Some n) _) | Some (Dir (Some n) _ _) => Ok n
  | _ => Raise OSError
  end.

(** What [open(p, 'rb')] yields: the stream, or [None] when it raises. *)
Definition open_rb (fs : node) (p : path) : option Repair.istream :=
  match lookup p fs with
  | Some (File _ content) => content
  | _ => None
  end.

End FS.

(* ================================================================== *)
(** ** [detect_folder_structure] (lines 122-165) *)

Module Detect.

Import FS.

Definition detected := (structure_type * option path * option path)%type.

Definition not_recognised : detected := (unknown, None, None).

(** Lines 149-160: the loop over [c_items]; falling out of it reaches the
    [return ('unknown', None, None)] of line 162. *)
Fixpoint scan (fs : node) (c_folder_path entry_json_path : path)
    (c_items : list pystr) : detected :=
  match c_items with
  | [] => not_recognised
  | item :: rest =>
      let item_path := join c_folder_path item in
      if isdir fs item_path then
        match listdir fs item_path with
        | Ok sub_items =>
            let m4s_files := filter is_m4s sub_items in
            if 2 <=? length m4s_files
            then (mobile, Some item_path, Some entry_json_path)
            else scan fs c_folder_path entry_json_path rest
        | _ => scan fs c_folder_path entry_json_path rest
        end
      else scan fs c_folder_path entry_json_path rest
  end.

Definition detect_folder_structure (fs : node) (folder_path : path) : detected :=
  match listdir fs folder_path with
  | Ok items =>
      if mem (str "videoInfo.json") items
      then (pc, Some folder_path, Some (join folder_path (str "videoInfo.json")))
      else
        let c_folders :=
          filter (fun item => isdir fs (join folder_path item)
                              && startswith item (str "c_")) items in
        match c_folders with
        | c0 :: _ =>
            let c_folder_path := join folder_path c0 in
            match listdir fs c_folder_path with
            | Ok c_items =>
                let entry_json_path := join c_folder_path (str "entry.json") in
                if negb (exists_ fs entry_json_path)
                then not_recognised
                else scan fs c_folder_path entry_json_path c_items
            | _ => not_recognised
            end
        | [] => not_recognised
        end
  | _ => not_recognised
  end.

(** *** What a recognised layout guarantees, and sample folders *)

(** The name tested at line 131. *)
Definition videoInfo := str "videoInfo.json".

(** What a successful scan has found: [p] is an entry of the [c_] folder
    that is a directory listing at least two fragment files. *)
Definition fragment_dir (fs : node) (c_folder_path : path) (c_items : list pystr)
    (p : path) : Prop :=
  exists item sub_items,
    In item c_items /\ p = join c_folder_path item
    /\ isdir fs p = true
    /\ listdir fs p = Ok sub_items
    /\ 2 <= length (filter is_m4s sub_items).

(** The conditions under which [folder] is recognised as mobile-origin
    with fragment directory [media] and descriptor [meta]. *)
Definition mobile_layout (fs : node) (folder : path) (media meta : path) : Prop :=
  exists items c c_items,
    listdir fs folder = Ok items
    /\ ~ In videoInfo items
    /\ In c items /\ startswith c (str "c_") = true
    /\ isdir fs (join folder c) = true
    /\ listdir fs (join folder c) = Ok c_items
    /\ meta = join (join folder c) (str "entry.json")
    /\ exists_ fs meta = true
    /\ fragment_dir fs (join folder c) c_items media.

(** A result found in a subtree, seen from the root of the tree. *)
Definition shift (folder : path) (d : detected) : detected :=
  let '(kind, media, meta) := d in
  (kind, option_map (app folder) media, option_map (app folder) meta).

(** Sample folders. *)
Definition plain_file : node := File (Some 1%N) (Some []).

Definition mobile_example : node :=
  Dir None true
    [(str "c_1",
      Dir None true
        [(str "entry.json", plain_file);
         (str "77",
          Dir None true [(str "a.m4s", plain_file); (str "b.m4s", plain_file)])])].

(** A directory called videoInfo.json next to a complete mobile layout. *)
Definition mixed_example : node :=
  Dir None true
    [(str "c_1",
      Dir None true
        [(str "entry.json", plain_file);
         (str "77",
          Dir None true [(str "a.m4s", plain_file); (str "b.m4s", plain_file)])]);
     (str "videoInfo.json", Dir None true [])].

End Detect.

(* ================================================================== *)
(** ** Track selection (lines 631-651, and again 691-711) *)

Module Tracks.

Import FS.

(** The dict appended to [m4s_files]. *)
Record m4s_info : Type := { path_ : path; size : N; name : pystr }.

(** Lines 632-639: the candidates with a readable size, in listing order,
    and the names for which the size warning is logged. *)
Fixpoint collect (fs : node) (media_folder_path : path) (items : list pystr)
  : list m4s_info * list pystr :=
  match items with
  | [] => ([], [])
  | item :: rest =>
      let (files, warned) := collect fs media_folder_path rest in
      if is_m4s item then
        let item_path := join media_folder_path item in
        match getsize fs item_path with
        | Ok n => ({| path_ := item_path; size := n; name := item |} :: files,
                   warned)
        | _ => (files, item :: warned)
        end
      else (files, warned)
  end.

(** [m4s_files.sort(key=lambda x: x["size"], reverse=True)]: descending by
    size, entries of equal size keep their order. *)
Fixpoint insert_desc (x : m4s_info) (l : list m4s_info) : list m4s_info :=
  match l with
  | [] => [x]
  | y :: l' => if (size y <=? size x)%N then x :: l else y :: insert_desc x l'
  end.

Fixpoint sort_desc (l : list m4s_info) : list m4s_info :=
  match l with
  | [] => []
  | x :: l' => insert_desc x (sort_desc l')
  end.

(** Lines 641-651: [(video_file_info, audio_file_info)], or [None] when the
    function logs the error and returns [False]. *)
Definition select (m4s_files : list m4s_info) : option (m4s_info * m4s_info) :=
  if length m4s_files <? 2 then None
  else match sort_desc m4s_files with
       | video_file_info :: audio_file_info :: _ =>
           Some (video_file_info, audio_file_info)
       | _ => None
       end.

(** Enumeration and selection together; [Raise] when [os.listdir] does. *)
Definition disambiguate (fs : node) (media_folder_path : path)
  : res (option (m4s_info * m4s_info)) :=
  match listdir fs media_folder_path with
  | Ok items => Ok (select (fst (collect fs media_folder_path items)))
  | Raise e => Raise e
  | Timeout => Timeout
  end.

(** *** Ordering by size, and a sample directory *)

(** [x] is at least as large as [y]. *)
Definition ge_size (x y : m4s_info) : Prop := (size y <= size x)%N.

(** Three fragments of 2 MB, 500 KB and 10 MB and a larger file that is
    not a fragment. *)
Definition MB : N := 1048576.
Definition KB : N := 1024.

Definition sized (n : N) : node := File (Some n) (Some []).

Definition three_fragments : node :=
  Dir None true
    [(str "audio.m4s", sized (2 * MB));
     (str "extra.m4s", sized (500 * KB));
     (str "video.M4S", sized (10 * MB));
     (str "notes.txt", sized (20 * MB))].

End Tracks.

(* ================================================================== *)
(** ** The merge strategies (lines 627-823) *)

Module Orchestrator.

Import FS Tracks.

(** What the run does to the outside world, in order.  A temporary file is
    named by the serial number [tempfile.mkstemp] gave it.  The [add_log]
    calls and the search for a free output name (lines 656-665, 733-741)
    raise nothing and decide nothing, and are left out here. *)
Inductive event : Type :=
| EDirectMerge (title : pystr) (video audio : path) (ok : bool)  (* line 676 *)
| ERepairThenMerge                      (* [process_pc_m4s_files] entered *)
| EMkstemp (id : nat)                   (* lines 720, 722 *)
| EClose (id : nat)                     (* lines 721, 723 *)
| EDecode (src : path) (dst : nat) (ok : bool)          (* lines 725-726 *)
| EMerge (title : pystr) (video audio : nat) (ok : bool) (* line 749 *)
| ERemove (id : nat)                    (* lines 756, 758 *)
| ERemoveFailed (id : nat).             (* lines 756, 758: [os.remove] raises *)

(** The part of the world that changes: the temporary files on disk, the
    next serial, what the coming fallible calls will do (an exhausted plan
    means success), and the events so far. *)
Record world : Type := {
  tmp : list nat;
  next_tmp : nat;
  mkstemp_plan : list bool;     (* [false]: [mkstemp] raises *)
  close_plan : list bool;       (* [false]: [os.close] raises *)
  ffmpeg_plan : list bool;      (* what [_run_ffmpeg_command] returns *)
  room_plan : list (option (option nat));
                                (* what opening a temporary file for
                                   writing yields, see [Repair] *)
  remove_plan : list bool;      (* [false]: [os.remove] raises *)
  trace : list event
}.

(** The state threaded through a call: the world and the two locals that
    the [finally] block reads. *)
Record state : Type := {
  os : world;
  temp_video_m4s : option nat;
  temp_audio_m4s : option nat
}.

Definition M (A : Type) := state -> res A * state.

Definition ret {A} (a : A) : M A := fun s => (Ok a, s).
Definition bind {A B} (m : M A) (k : A -> M B) : M B :=
  fun s => match m s with
           | (Ok a, s') => k a s'
           | (Raise e, s') => (Raise e, s')
           | (Timeout, s') => (Timeout, s')
           end.
Definition lift {A} (r : res A) : M A := fun s => (r, s).

Notation "x <- m ;; k" := (bind m (fun x => k))
  (at level 61, m at next level, right associativity).
Notation "m ;;; k" := (bind m (fun _ => k))
  (at level 61, right associativity).

(** [try: body  except Exception: handler] *)
Definition try_except {A} (body : M A) (handler : exn -> M A) : M A :=
  fun s => match body s with
           | (Raise e, s') => handler e s'
           | other => other
           end.

(** [try: body  finally: cleanup] *)
Definition try_finally {A} (body : M A) (cleanup : M unit) : M A :=
  fun s => match body s with
           | (r, s') =>
               match cleanup s' with
               | (Ok _, s'') => (r, s'')
               | (Raise e, s'') => (Raise e, s'')
               | (Timeout, s'') => (Timeout, s'')
               end
           end.

Definition with_os (s : state) (w : world) : state :=
  {| os := w; temp_video_m4s := temp_video_m4s s;
     temp_audio_m4s := temp_audio_m4s s |}.

Definition record (e : event) (w : world) : world :=
  {| tmp := tmp w; next_tmp := next_tmp w; mkstemp_plan := mkstemp_plan w;
     close_plan := close_plan w; ffmpeg_plan := ffmpeg_plan w;
     room_plan := room_plan w; remove_plan := remove_plan w;
     trace := trace w ++ [e] |}.

Definition emit (e : event) : M unit :=
  fun s => (Ok tt, with_os s (record e (os s))).

(** [tempfile.mkstemp(...)]: a fresh file appears on disk, or the call
    raises and nothing is created. *)
Definition mkstemp : M nat := fun s =>
  let w := os s in
  let id := next_tmp w in
  let created := {| tmp := id :: tmp w; next_tmp := S id;
                    mkstemp_plan := tl (mkstemp_plan w);
                    close_plan := close_plan w; ffmpeg_plan := ffmpeg_plan w;
                    room_plan := room_plan w; remove_plan := remove_plan w;
                    trace := trace w ++ [EMkstemp id] |} in
  let refused := {| tmp := tmp w; next_tmp := next_tmp w;
                    mkstemp_plan := tl (mkstemp_plan w);
                    close_plan := close_plan w; ffmpeg_plan := ffmpeg_plan w;
                    room_plan := room_plan w; remove_plan := remove_plan w;
                    trace := trace w |} in
  match mkstemp_plan w with
  | false :: _ => (Raise OSError, with_os s refused)
  | _ => (Ok id, with_os s created)
  end.

(** [_, temp_video_m4s = tempfile.mkstemp(...)] and the same for audio:
    the local is bound as soon as the call returns. *)
Definition mkstemp_video : M nat := fun s =>
  match mkstemp s with
  | (Ok id, s') =>
      (Ok id, {| os := os s'; temp_video_m4s := Some id;
                 temp_audio_m4s := temp_audio_m4s s' |})
  | other => other
  end.

Definition mkstemp_audio : M nat := fun s =>
  match mkstemp s with
  | (Ok id, s') =>
      (Ok id, {| os := os s'; temp_video_m4s := temp_video_m4s s';
                 temp_audio_m4s := Some id |})
  | other => other
  end.

(** [os.close(handle)] *)
Definition close (id : nat) : M unit := fun s =>
  let w := os s in
  let w' := {| tmp := tmp w; next_tmp := next_tmp w;
               mkstemp_plan := mkstemp_plan w;
               close_plan := tl (close_plan w); ffmpeg_plan := ffmpeg_plan w;
               room_plan := room_plan w; remove_plan := remove_plan w;
               trace := trace w |} in
  match close_plan w with
  | false :: _ => (Raise OSError, with_os s w')
  | _ => (Ok tt, with_os s (record (EClose id) w'))
  end.

(** [decode_bilibili_m4s(src, dst, self.add_log)] *)
Definition decode (fs : node) (src : path) (dst : nat) : M bool := fun s =>
  let w := os s in
  let room := match room_plan w with r :: _ => r | [] => Some None end in
  let ok := Repair.returned
              (Repair.decode_bilibili_m4s (open_rb fs src) room true) in
  let w' := {| tmp := tmp w; next_tmp := next_tmp w;
               mkstemp_plan := mkstemp_plan w; close_plan := close_plan w;
               ffmpeg_plan := ffmpeg_plan w; room_plan := tl (room_plan w);
               remove_plan := remove_plan w;
               trace := trace w ++ [EDecode src dst ok] |} in
  (Ok ok, with_os s w').

(** [self._run_ffmpeg_command(cmd, ..)]: every failure of the tool is
    caught inside and turned into [False]; [mk] builds the event from the
    result. *)
Definition run_ffmpeg (mk : bool -> event) : M bool := fun s =>
  let w := os s in
  let ok := match ffmpeg_plan w with b :: _ => b | [] => true end in
  let w' := {| tmp := tmp w; next_tmp := next_tmp w;
               mkstemp_plan := mkstemp_plan w; close_plan := close_plan w;
               ffmpeg_plan := tl (ffmpeg_plan w); room_plan := room_plan w;
               remove_plan := remove_plan w;
               trace := trace w ++ [mk ok] |} in
  (Ok ok, with_os s w').

(** [if p and os.path.exists(p): os.remove(p)] (lines 755-758).  The
    call to [os.remove] is not guarded: when it raises, the file stays and
    the exception leaves the [finally] block. *)
Definition remove_if_exists (slot : option nat) : M unit := fun s =>
  match slot with
  | None => (Ok tt, s)
  | Some id =>
      let w := os s in
      let removed := {| tmp := filter (fun x => negb (Nat.eqb id x)) (tmp w);
                        next_tmp := next_tmp w; mkstemp_plan := mkstemp_plan w;
                        close_plan := close_plan w; ffmpeg_plan := ffmpeg_plan w;
                        room_plan := room_plan w;
                        remove_plan := tl (remove_plan w);
                        trace := trace w ++ [ERemove id] |} in
      let refused := {| tmp := tmp w;
                        next_tmp := next_tmp w; mkstemp_plan := mkstemp_plan w;
                        close_plan := close_plan w; ffmpeg_plan := ffmpeg_plan w;
                        room_plan := room_plan w;
                        remove_plan := tl (remove_plan w);
                        trace := trace w ++ [ERemoveFailed id] |} in
      if existsb (Nat.eqb id) (tmp w)
      then match remove_plan w with
           | false :: _ => (Raise OSError, with_os s refused)
           | _ => (Ok tt, with_os s removed)
           end
      else (Ok tt, s)
  end.

(** Lines 754-758: the [finally] block.  A removal that raises skips the
    one after it. *)
Definition cleanup : M unit := fun s =>
  (remove_if_exists (temp_video_m4s s) ;;;
   (fun s' => remove_if_exists (temp_audio_m4s s') s')) s.

(** Lines 716-717: [temp_video_m4s = None; temp_audio_m4s = None]. *)
Definition clear_locals : M unit := fun s =>
  (Ok tt, {| os := os s; temp_video_m4s := None; temp_audio_m4s := None |}).

(** Lines 719-752: the body of the inner [try]. *)
Definition repair_and_merge (fs : node) (title : pystr)
    (video_file_info_orig audio_file_info_orig : m4s_info) : M bool :=
  tv <- mkstemp_video ;;
  close tv ;;;
  ta <- mkstemp_audio ;;
  close ta ;;;
  ok_video <- decode fs (path_ video_file_info_orig) tv ;;
  success_decoding <-
    (if ok_video
     then decode fs (path_ audio_file_info_orig) ta
     else ret false) ;;
  if success_decoding
  then run_ffmpeg (EMerge title tv ta)
  else ret false.

(** [process_pc_m4s_files] (lines 687-764). *)
Definition process_pc_m4s_files (fs : node) (media_folder_path : path)
    (sanitized_title : pystr) : M bool :=
  emit ERepairThenMerge ;;;
  try_except
    (items <- lift (listdir fs media_folder_path) ;;
     match select (fst (collect fs media_folder_path items)) with
     | None => ret false
     | Some (video_file_info_orig, audio_file_info_orig) =>
         clear_locals ;;;
         try_finally
           (repair_and_merge fs sanitized_title
              video_file_info_orig audio_file_info_orig)
           cleanup
     end)
    (fun _ => ret false).

(** [process_mobile_m4s_files] (lines 627-685). *)
Definition process_mobile_m4s_files (fs : node) (media_folder_path : path)
    (sanitized_title : pystr) : M bool :=
  try_except
    (items <- lift (listdir fs media_folder_path) ;;
     match select (fst (collect fs media_folder_path items)) with
     | None => ret false
     | Some (video_file_info, audio_file_info) =>
         ok <- run_ffmpeg (EDirectMerge sanitized_title
                             (path_ video_file_info) (path_ audio_file_info)) ;;
         if ok
         then ret true
         else process_pc_m4s_files fs media_folder_path sanitized_title
     end)
    (fun _ => ret false).

(** [process_single_folder] (lines 766-823).  [load_json p] is the outcome
    of opening [p] and [json.load]. *)
Definition process_single_folder (fs : node)
    (load_json : path -> res Title.json) (repr : Title.json -> pystr)
    (input_folder_path : path) : M bool :=
  match Detect.detect_folder_structure fs input_folder_path with
  | (unknown, _, _) => ret false
  | (structure, Some media_folder_path, Some json_path) =>
      match Title.choose_title repr structure (load_json json_path)
              (basename input_folder_path) with
      | None => ret false
      | Some sanitized_title =>
          match structure with
          | mobile =>
              process_mobile_m4s_files fs media_folder_path sanitized_title
          | _ => process_pc_m4s_files fs media_folder_path sanitized_title
          end
      end
  | _ => ret false   (* not produced by the detector *)
  end.

(** The number of times [process_pc_m4s_files] is entered. *)
Definition is_repair_attempt (e : event) : bool :=
  match e with ERepairThenMerge => true | _ => false end.

Definition attempts (evs : list event) : nat :=
  length (filter is_repair_attempt evs).

(** *** Kinds of events, and sample worlds *)

(** Events that neither start a repair attempt, nor run the direct merge,
    nor create a file. *)
Definition plain (e : event) : bool :=
  match e with
  | EClose _ | EDecode _ _ _ | EMerge _ _ _ _ | ERemove _ => true
  | _ => false
  end.

(** Events other than a repair attempt starting and a direct merge. *)
Definition quiet (e : event) : bool :=
  match e with
  | ERepairThenMerge | EDirectMerge _ _ _ _ => false
  | _ => true
  end.

(** A removal that raised. *)
Definition is_remove_failed (e : event) : bool :=
  match e with ERemoveFailed _ => true | _ => false end.

(** [id] is held by one of the two locals read at lines 755-758. *)
Definition slot (s : state) (id : nat) : Prop :=
  temp_video_m4s s = Some id \/ temp_audio_m4s s = Some id.

(** The events added between [s] and [s']. *)
Definition new_events (s s' : state) : list event :=
  skipn (length (trace (os s))) (trace (os s')).

(** A sample world: no temporary files yet, and the given outcomes for the
    coming ffmpeg runs, [mkstemp] calls and [os.remove] calls. *)
Definition start_with (ffmpeg mk rm : list bool) : state :=
  {| os := {| tmp := []; next_tmp := 0; mkstemp_plan := mk; close_plan := [];
              ffmpeg_plan := ffmpeg; room_plan := []; remove_plan := rm;
              trace := [] |};
     temp_video_m4s := None; temp_audio_m4s := None |}.

(** The same with every [os.remove] succeeding. *)
Definition start (ffmpeg mk : list bool) : state := start_with ffmpeg mk [].

(** A descriptor with a title. *)
Definition titled (p : path) : res Title.json :=
  Ok (Title.JObj [(str "title", Title.JStr (str "clip"))]).

End Orchestrator.

(* ================================================================== *)
(** ** The repair of a file on disk, chunk boundaries forgotten *)

Module RepairFile.

Import Repair.

(** What lines 76-115 make of a file with the given content: drop 9
    bytes and patch the header when there are 9, copy otherwise. *)
Definition file_repaired (content : bytes) : bytes :=
  if 9 <=? length content then repair_chunk (skipn 9 content) else content.

(** Entries logged while the file is being read: information and
    warnings. *)
Definition is_note (e : entry) : bool :=
  match snd e with
  | info | warning => true
  | _ => false
  end.

(** The entry logged last. *)
Definition verdict (ok : bool) : entry :=
  if ok then (MDone, success) else (MFailed, error).

(** Between [s] and [s'] the log only grows, by notes, and by nothing
    when there is no callback. *)
Definition grows (lc : bool) (s s' : st) : Prop :=
  exists l, log s' = log s ++ l /\ forallb is_note l = true
            /\ (lc = false -> l = []).

End RepairFile.

(* ================================================================== *)
(** ** More on sanitized names *)

Module SanitizeMore.

Import Sanitize.

(** [s] has a character that is not whitespace. *)
Definition has_ink (s : pystr) : bool :=
  existsb (fun c => negb (is_space c)) s.

(** [l] does not begin with whitespace. *)
Definition starts_clean (l : pystr) : Prop :=
  match l with
  | c :: _ => is_space c = false
  | [] => True
  end.

End SanitizeMore.

(* ================================================================== *)
(** ** [get_folder_title] (lines 282-310 and 476-504) *)

Module Display.

Import Title.

(** The four characters returned when no title can be shown. *)
Definition unknown_title : pystr := [26410; 30693; 26631; 39064]%N.

(** [title[:limit]] *)
Definition py_slice (limit : nat) (v : json) : res json :=
  match v with
  | JStr s => Ok (JStr (firstn limit s))
  | JArr items => Ok (JArr (firstn limit items))
  | _ => Raise TypeError
  end.

(** [if not title and key in data: title = data[key].get(inner, '')] *)
Definition or_nested (key inner : pystr) (data title : json) : res json :=
  if negb (truthy title) then
    b <- py_in key data ;;
    if b then d <- py_getitem data key ;; py_get d inner else Ok title
  else Ok title.

(** [if not title and key in data: title = data.get(key, '')] *)
Definition or_member (key : pystr) (data title : json) : res json :=
  if negb (truthy title) then
    b <- py_in key data ;;
    if b then py_get data key else Ok title
  else Ok title.

(** The body of the [try]: the value returned from inside it, [None] when
    control falls through to the last line. *)
Definition find_title (limit : nat) (st : structure_type) (data : json)
  : res (option json) :=
  title <-
    match st with
    | pc =>
        title <- py_get data (str "title") ;;
        title <- or_nested (str "videoData") (str "title") data title ;;
        title <- or_nested (str "page_data") (str "part") data title ;;
        or_member (str "videoName") data title
    | mobile =>
        title <- py_get data (str "title") ;;
        or_nested (str "page_data") (str "part") data title
    | unknown => Ok (JStr [])
    end ;;
  if truthy title
  then t <- py_slice limit title ;; Ok (Some t)
  else Ok None.

(** The method; [limit] is 50 in the dialog and 30 in the main window,
    [json_exists] is [os.path.exists(json_path)] and [loaded] the outcome
    of opening the file and [json.load]. *)
Definition get_folder_title (limit : nat) (json_exists : bool)
    (loaded : res json) (st : structure_type) : json :=
  if negb json_exists then JStr unknown_title
  else
    match (data <- loaded ;; find_title limit st data) with
    | Ok (Some t) => t
    | _ => JStr unknown_title
    end.

End Display.

(* ================================================================== *)
(** ** More on layout detection *)

Module DetectMore.

Import FS Detect.

(** The test of lines 151-157 on one entry of the [c_] folder: a
    directory that can be listed and holds at least two fragment files. *)
Definition qualifies (fs : node) (c_folder_path : path) (item : pystr) : bool :=
  isdir fs (join c_folder_path item)
  && match listdir fs (join c_folder_path item) with
     | Ok sub_items => 2 <=? length (filter is_m4s sub_items)
     | _ => false
     end.

(** The filter of line 135. *)
Definition is_c_folder (fs : node) (folder_path : path) (item : pystr) : bool :=
  isdir fs (join folder_path item) && startswith item (str "c_").

(** A folder whose first [c_] entry has no descriptor, next to a complete
    one. *)
Definition two_c_folders : node :=
  Dir None true
    [(str "c_0", Dir None true [(str "80", Dir None true [])]);
     (str "c_1",
      Dir None true
        [(str "entry.json", plain_file);
         (str "77",
          Dir None true [(str "a.m4s", plain_file); (str "b.m4s", plain_file)])])].

End DetectMore.

(* ================================================================== *)
(** ** More on track selection *)

Module TracksMore.

Import FS Tracks.

(** The entries of [l] of size [n], in order. *)
Definition of_size (n : N) (l : list m4s_info) : list m4s_info :=
  filter (fun x => (size x =? n)%N) l.

(** [f] describes an entry of [folder] whose name marks it as a fragment
    and whose size could be read. *)
Definition is_fragment_of (fs : node) (folder : path) (f : m4s_info) : Prop :=
  is_m4s (name f) = true
  /\ path_ f = join folder (name f)
  /\ getsize fs (path_ f) = Ok (size f).

(** Two fragments of the same size and a smaller one. *)
Definition equal_sizes : node :=
  Dir None true
    [(str "small.m4s", sized 1);
     (str "first.m4s", sized 7);
     (str "second.m4s", sized 7)].

End TracksMore.

(* ================================================================== *)
(** ** More on the merge strategies *)

Module OrchestratorMore.

Import FS Tracks Orchestrator.

(** Kinds of events. *)
Definition is_direct_merge (e : event) : bool :=
  match e with EDirectMerge _ _ _ _ => true | _ => false end.

Definition is_merge (e : event) : bool :=
  match e with EMerge _ _ _ _ => true | _ => false end.

(** An ffmpeg run that succeeded. *)
Definition is_merge_ok (e : event) : bool :=
  match e with
  | EDirectMerge _ _ _ true | EMerge _ _ _ true => true
  | _ => false
  end.

Definition is_failed_decode (e : event) : bool :=
  match e with EDecode _ _ false => true | _ => false end.

(** The temporary file [id] was written by a successful repair. *)
Definition decoded_ok (evs : list event) (id : nat) : bool :=
  existsb (fun e => match e with
                    | EDecode _ dst true => Nat.eqb dst id
                    | _ => false
                    end) evs.

(** Every merge of repaired files in [evs] has both inputs repaired
    successfully, and no repair failed. *)
Definition merges_follow_repairs (evs : list event) : Prop :=
  (forall t v a ok, In (EMerge t v a ok) evs ->
                    decoded_ok evs v = true /\ decoded_ok evs a = true)
  /\ (existsb is_failed_decode evs = true -> existsb is_merge evs = false).

(** Events that are neither a repair nor an ffmpeg run. *)
Definition inert (e : event) : bool :=
  match e with
  | EDecode _ _ _ | EMerge _ _ _ _ | EDirectMerge _ _ _ _ => false
  | _ => true
  end.

(** What the [finally] block adds. *)
Definition is_cleanup (e : event) : bool :=
  match e with ERemove _ | ERemoveFailed _ => true | _ => false end.

(** No [os.remove] raised. *)
Definition removals_ok (evs : list event) : Prop :=
  existsb is_remove_failed evs = false.

(** Serial numbers not yet handed out do not name files on disk. *)
Definition fresh (w : world) : Prop :=
  Forall (fun id => id < next_tmp w) (tmp w).

(** [s'] has the files, serial and locals of [s]. *)
Definition keeps_files (s s' : state) : Prop :=
  tmp (os s') = tmp (os s)
  /\ next_tmp (os s') = next_tmp (os s)
  /\ temp_video_m4s s' = temp_video_m4s s
  /\ temp_audio_m4s s' = temp_audio_m4s s.

(** What lines 725-752 guarantee, started in [s]. *)
Definition tail_post (s : state) (out : res bool * state) : Prop :=
  exists evs,
    trace (os (snd out)) = trace (os s) ++ evs
    /\ keeps_files s (snd out)
    /\ Forall (fun e => plain e = true) evs
    /\ (fst out = Ok true <-> existsb is_merge_ok evs = true)
    /\ merges_follow_repairs evs
    /\ fst out <> Timeout.

(** What the inner [try] guarantees when the [finally] block is entered:
    the files on disk are those of [s] and, before them, files held by the
    locals, with serials not below the next serial of [s]; every file
    created is held by a local, and nothing was removed yet. *)
Definition body_files (s : state) (out : res bool * state) : Prop :=
  exists evs held,
    trace (os (snd out)) = trace (os s) ++ evs
    /\ tmp (os (snd out)) = held ++ tmp (os s)
    /\ (forall id, In id held -> slot (snd out) id)
    /\ (forall id, slot (snd out) id -> next_tmp (os s) <= id)
    /\ (forall id, In (EMkstemp id) evs -> slot (snd out) id)
    /\ removals_ok evs
    /\ Forall (fun e => quiet e = true) evs
    /\ (fst out = Ok true <-> existsb is_merge_ok evs = true)
    /\ merges_follow_repairs evs
    /\ fst out <> Timeout.

(** [l] without the file named by a local. *)
Definition without (o : option nat) (l : list nat) : list nat :=
  match o with
  | Some id => filter (fun x => negb (Nat.eqb id x)) l
  | None => l
  end.

(** [x] is not the file named by the local [o]. *)
Definition spared (o : option nat) (x : nat) : bool :=
  match o with
  | Some id => negb (Nat.eqb id x)
  | None => true
  end.

(** What [process_pc_m4s_files] guarantees, started in [s]. *)
Definition pc_full (s : state) (out : res bool * state) : Prop :=
  exists evs b,
    fst out = Ok b
    /\ trace (os (snd out)) = trace (os s) ++ ERepairThenMerge :: evs
    /\ Forall (fun e => quiet e = true) evs
    /\ (b = true <-> existsb is_merge_ok evs = true /\ removals_ok evs)
    /\ merges_follow_repairs evs
    /\ (fresh (os s) -> removals_ok evs -> tmp (os (snd out)) = tmp (os s))
    /\ (removals_ok evs ->
        forall id, In (EMkstemp id) evs -> ~ In id (tmp (os (snd out)))).

(** What a whole run guarantees, started in [s]. *)
Definition run_full (s : state) (out : res bool * state) : Prop :=
  exists evs b,
    fst out = Ok b
    /\ trace (os (snd out)) = trace (os s) ++ evs
    /\ (b = true <-> existsb is_merge_ok evs = true /\ removals_ok evs)
    /\ merges_follow_repairs evs
    /\ (fresh (os s) -> removals_ok evs -> tmp (os (snd out)) = tmp (os s))
    /\ (removals_ok evs ->
        forall id, In (EMkstemp id) evs -> ~ In id (tmp (os (snd out))))
    /\ (forall t v a, In (EDirectMerge t v a true) evs ->
                      evs = [EDirectMerge t v a true]
                      /\ tmp (os (snd out)) = tmp (os s)).

(** A desktop-origin sample folder with two fragments. *)
Definition desktop_example : node :=
  Dir None true
    [(str "videoInfo.json", Detect.plain_file);
     (str "v.m4s", Tracks.sized 9); (str "a.m4s", Tracks.sized 3)].

End OrchestratorMore.

(* ================================================================== *)
(** ** The free output name (lines 656-665, and again 596-604, 733-741) *)

Module OutputPath.

Import FS.

(** [f"{count}"]: the decimal digits of [count]. *)
Fixpoint digits (d : Decimal.uint) : pystr :=
  match d with
  | Decimal.Nil => []
  | Decimal.D0 d => 48%N :: digits d
  | Decimal.D1 d => 49%N :: digits d
  | Decimal.D2 d => 50%N :: digits d
  | Decimal.D3 d => 51%N :: digits d
  | Decimal.D4 d => 52%N :: digits d
  | Decimal.D5 d => 53%N :: digits d
  | Decimal.D6 d => 54%N :: digits d
  | Decimal.D7 d => 55%N :: digits d
  | Decimal.D8 d => 56%N :: digits d
  | Decimal.D9 d => 57%N :: digits d
  end.

Definition decimal (count : nat) : pystr := digits (Nat.to_uint count).

(** The file name tried when the counter is [count]: the plain name
    first, then the name with [_count] before the extension. *)
Definition candidate (output_filename_base : pystr) (count : nat) : pystr :=
  match count with
  | 0 => output_filename_base ++ str ".mp4"
  | _ => output_filename_base ++ str "_" ++ decimal count ++ str ".mp4"
  end.

(** The [while os.path.exists(output_filepath)] loop, entered with the
    counter at [count]; the result is the name the loop leaves with. *)
Fixpoint search (fuel : nat) (taken : pystr -> bool)
    (output_filename_base : pystr) (count : nat) : res pystr :=
  match fuel with
  | 0 => Timeout
  | S fuel' =>
      if taken (candidate output_filename_base count)
      then search fuel' taken output_filename_base (S count)
      else Ok (candidate output_filename_base count)
  end.

(** The number of entries of the output directory bounds the number of
    names that can be taken. *)
Definition entry_count (fs : node) (output_dir_path : path) : nat :=
  match lookup output_dir_path fs with
  | Some (Dir _ _ entries) => length entries
  | _ => 0
  end.

Definition final_output_filepath (fs : node) (output_dir_path : path)
    (sanitized_title : pystr) : res path :=
  match search (S (entry_count fs output_dir_path))
          (fun name => exists_ fs (join output_dir_path name))
          sanitized_title 0 with
  | Ok name => Ok (join output_dir_path name)
  | Raise e => Raise e
  | Timeout => Timeout
  end.

(** An output directory after two earlier runs with the same title. *)
Definition after_two_runs : node :=
  Dir None true
    [(str "Title.mp4", File (Some 10%N) None);
     (str "Other.mp4", File (Some 10%N) None);
     (str "Title_1.mp4", File (Some 10%N) None)].

End OutputPath.

(* ================================================================== *)
(** ** The batch loop of [process_folders] (lines 871-882) *)

Module Batch.

Import FS Orchestrator OrchestratorMore.

(** Lines 875-879, with [success_count] as the accumulator.  Earlier runs
    write files, so each run sees the file system and the descriptors of
    its own moment: [disk s] and [load_json s] are what the run started in
    [s] finds. *)
Fixpoint process_all (disk : state -> node)
    (load_json : state -> path -> res Title.json) (repr : Title.json -> pystr)
    (folders_to_process : list path) (success_count : nat) : M nat :=
  match folders_to_process with
  | [] => ret success_count
  | folder_path :: rest =>
      ok <- (fun s => process_single_folder (disk s) (load_json s) repr
                        folder_path s) ;;
      process_all disk load_json repr rest
        (if ok then S success_count else success_count)
  end.

(** Lines 871-882: the two numbers of the closing log line, successes and
    failures ([total_folders - success_count], an integer). *)
Definition process_folders (disk : state -> node)
    (load_json : state -> path -> res Title.json) (repr : Title.json -> pystr)
    (input_folders : list path) : M (nat * Z) :=
  let total_folders := length input_folders in
  success_count <- process_all disk load_json repr input_folders 0 ;;
  ret (success_count, (Z.of_nat total_folders - Z.of_nat success_count)%Z).

(** The number of ffmpeg runs in [evs] that succeeded. *)
Definition merges (evs : list event) : nat := length (filter is_merge_ok evs).

(** The inner [try] from [s] to [out] adds one successful ffmpeg run when
    it yields [True] and none otherwise, and hands out serials only
    upwards. *)
Definition body_tally (s : state) (out : res bool * state) : Prop :=
  exists evs,
    trace (os (snd out)) = trace (os s) ++ evs
    /\ merges evs = match fst out with Ok true => 1 | _ => 0 end
    /\ next_tmp (os s) <= next_tmp (os (snd out)).

(** A run from [s] to [out] makes at most one successful ffmpeg run: one
    when it yields [True], and none when it does not and no removal
    raised. *)
Definition tally (s : state) (out : res bool * state) : Prop :=
  exists evs,
    trace (os (snd out)) = trace (os s) ++ evs
    /\ merges evs <= 1
    /\ (fst out = Ok true -> merges evs = 1)
    /\ (removals_ok evs -> fst out <> Ok true -> merges evs = 0)
    /\ next_tmp (os s) <= next_tmp (os (snd out)).

(** What the loop guarantees, started in [s] with the count [c]. *)
Definition batch_post (folders : list path) (c : nat) (s : state)
    (out : res nat * state) : Prop :=
  exists evs n,
    fst out = Ok n
    /\ trace (os (snd out)) = trace (os s) ++ evs
    /\ c <= n <= c + merges evs
    /\ merges evs <= length folders
    /\ (removals_ok evs -> n = c + merges evs)
    /\ (fresh (os s) -> removals_ok evs -> tmp (os (snd out)) = tmp (os s))
    /\ next_tmp (os s) <= next_tmp (os (snd out)).

(** Three sample folders under one root: a phone folder, a folder of
    another kind, and a desktop folder. *)
Definition library : node :=
  Dir None true
    [(str "phone", Detect.mobile_example);
     (str "misc", Dir None true []);
     (str "desk", desktop_example)].

End Batch.

(* ================================================================== *)
(** ** The list of source folders (lines 430-474 and 508-530) *)

Module FolderList.

Import FS Detect.

Fixpoint path_eqb (a b : path) : bool :=
  match a, b with
  | [], [] => true
  | x :: a', y :: b' => str_eqb x y && path_eqb a' b'
  | _, _ => false
  end.

(** [folder in self.input_folders] *)
Definition path_in (folder : path) (folders : list path) : bool :=
  existsb (path_eqb folder) folders.

(** A line of the list box, [f"{folder} ({display_name})"], kept as its
    two parts. *)
Record row : Type := { row_folder : path; row_display : pystr }.

(** The two lists the window keeps side by side. *)
Record window : Type := {
  input_folders : list path;
  input_listbox : list row
}.

(** What the two exceptions of the list operations are. *)
Inductive raised : Type :=
| index_out_of_range      (* [self.input_folders[index]] *)
| value_not_in_list.      (* [self.input_folders.remove(folder_path)] *)

(** [l.remove(x)]: the first item equal to [x] goes. *)
Fixpoint list_remove (x : path) (l : list path) : option (list path) :=
  match l with
  | [] => None
  | y :: l' =>
      if path_eqb y x then Some l'
      else match list_remove x l' with
           | Some r => Some (y :: r)
           | None => None
           end
  end.

(** [listbox.delete(index)]: an index past the end deletes nothing. *)
Definition listbox_delete {A} (index : nat) (rows : list A) : list A :=
  firstn index rows ++ skipn (S index) rows.

(** The items of [l] whose positions, counted from [i], are not among
    [selected]. *)
Fixpoint unselected {A} (selected : list nat) (i : nat) (l : list A) : list A :=
  match l with
  | [] => []
  | x :: l' =>
      if existsb (Nat.eqb i) selected
      then unselected selected (S i) l'
      else x :: unselected selected (S i) l'
  end.

(** Row [i] of the list box shows folder [i], and no folder is listed
    twice. *)
Definition consistent (w : window) : Prop :=
  NoDup (input_folders w)
  /\ map row_folder (input_listbox w) = input_folders w.

Section WithDisk.

Variable fs : node.
(** The text computed at lines 442-444 and 467-469. *)
Variable display_name : path -> pystr.

(** [structure_type in ['pc', 'mobile']] *)
Definition accepted (folder : path) : bool :=
  match fst (fst (detect_folder_structure fs folder)) with
  | pc | mobile => true
  | unknown => false
  end.

(** Lines 434-451 and 461-472: the new window and whether the folder was
    appended. *)
Definition add_folder (folder : path) (w : window) : window * bool :=
  if negb (path_in folder (input_folders w)) then
    if accepted folder then
      ({| input_folders := input_folders w ++ [folder];
          input_listbox := input_listbox w
                           ++ [{| row_folder := folder;
                                  row_display := display_name folder |}] |},
       true)
    else (w, false)
  else (w, false).

(** [add_input_folder]; [None] is a cancelled dialog. *)
Definition add_input_folder (folder_selected : option path) (w : window)
  : window :=
  match folder_selected with
  | Some folder => fst (add_folder folder w)
  | None => w
  end.

(** The loop of lines 460-472. *)
Fixpoint add_each (result : list path) (w : window) (added_count : nat)
  : window * nat :=
  match result with
  | [] => (w, added_count)
  | folder_path :: rest =>
      let (w', added) := add_folder folder_path w in
      add_each rest w' (if added then S added_count else added_count)
  end.

(** [batch_add_folders]: the new window and the count that is logged, if
    one is. *)
Definition batch_add_folders (result : list path) (w : window)
  : window * option nat :=
  match result with
  | [] => (w, None)
  | _ => let (w', added_count) := add_each result w 0 in
         (w', Some added_count)
  end.

End WithDisk.

(** The loop of lines 517-521. *)
Fixpoint remove_each (indices : list nat) (w : window)
  : option raised * window :=
  match indices with
  | [] => (None, w)
  | index :: rest =>
      match nth_error (input_folders w) index with
      | None => (Some index_out_of_range, w)
      | Some folder_path =>
          let rows := listbox_delete index (input_listbox w) in
          match list_remove folder_path (input_folders w) with
          | None => (Some value_not_in_list,
                     {| input_folders := input_folders w;
                        input_listbox := rows |})
          | Some folders =>
              remove_each rest {| input_folders := folders;
                                  input_listbox := rows |}
          end
      end
  end.

(** [remove_selected_folder]; [selected_indices] is what [curselection]
    returned. *)
Definition remove_selected_folder (selected_indices : list nat) (w : window)
  : option raised * window :=
  match selected_indices with
  | [] => (None, w)
  | _ => remove_each (rev selected_indices) w
  end.

(** [curselection] of a list box with [n] rows: positions in increasing
    order. *)
Definition selection (n : nat) (selected_indices : list nat) : Prop :=
  StronglySorted lt selected_indices
  /\ Forall (fun i => i < n) selected_indices.

(** A window with three folders. *)
Definition three_folders : window :=
  {| input_folders := [[str "a"]; [str "b"]; [str "c"]];
     input_listbox := [{| row_folder := [str "a"]; row_display := str "A" |};
                       {| row_folder := [str "b"]; row_display := str "B" |};
                       {| row_folder := [str "c"]; row_display := str "C" |}] |}.

End FolderList.

(* ================================================================== *)
(** * Proofs *)

(** ** Header repair *)

Module RepairProofs.

Import Repair.

#[local] Arguments Byte.eqb : simpl never.

Lemma patch3_length data : length (patch3 data) = length data.
Proof.
  unfold patch3. destruct (3 <? length data) eqn:E; [|reflexivity].
  apply Nat.ltb_lt in E.
  rewrite length_app, length_firstn, length_cons, length_skipn. lia.
Qed.

Lemma skipn16_patch3 data : skipn 16 (patch3 data) = skipn 16 data.
Proof.
  unfold patch3. destruct (3 <? length data) eqn:E; [|reflexivity].
  do 4 (destruct data as [|? data]; [reflexivity|]). reflexivity.
Qed.

Lemma has_brand_patch3 data : has_brand (patch3 data) = has_brand data.
Proof. unfold has_brand. now rewrite skipn16_patch3. Qed.

Lemma brand_test data s :
  20 <= length data ->
  item_is data 16 x69 (item_is data 17 x73
     (item_is data 18 x6f (item_is data 19 x35 (ret true)))) s
  = (Ok (has_brand data), s).
Proof.
  intros H.
  do 20 (destruct data as [|? data]; [simpl in H; lia|]).
  unfold item_is, has_brand, bind, lift, getitem, ret. simpl.
  repeat match goal with
  | |- context [Byte.eqb ?a ?b] => destruct (Byte.eqb a b); simpl
  end; reflexivity.
Qed.

Lemma add_log_nil lc s : add_log lc s [] = s.
Proof. destruct s, lc; unfold add_log; simpl; now rewrite ?app_nil_r. Qed.

Lemma add_log_app lc s l1 l2 :
  add_log lc (add_log lc s l1) l2 = add_log lc s (l1 ++ l2).
Proof. destruct lc; unfold add_log; simpl; now rewrite ?app_assoc. Qed.

Lemma emit_eq lc m l s : emit lc m l s = (Ok tt, add_log lc s [(m, l)]).
Proof. destruct s, lc; reflexivity. Qed.

Lemma patch_step lc data s :
  (if 3 <? length data
   then lift (setitem data 3 x20)
   else emit lc MByte3TooShort warning ;;; ret data) s
  = (Ok (patch3 data),
     add_log lc s (if 3 <? length data then [] else [(MByte3TooShort, warning)])).
Proof.
  unfold patch3, setitem, lift, bind, ret.
  destruct (3 <? length data); [now rewrite add_log_nil|].
  now rewrite emit_eq.
Qed.

Lemma brand_step lc data s :
  (if 20 <=? length data
   then
     iso5 <- item_is data 16 x69 (item_is data 17 x73
               (item_is data 18 x6f (item_is data 19 x35 (ret true)))) ;;
     if negb iso5
     then emit lc MIso5Absent info ;;; ret (delslice data 16 20)
     else emit lc MIso5Found info ;;; ret data
   else if 16 <? length data
   then emit lc MIso5TooShort warning ;;; ret data
   else ret data) s
  = (Ok (strip_brand data),
     add_log lc s
       (if 20 <=? length data
        then if has_brand data then [(MIso5Found, info)] else [(MIso5Absent, info)]
        else if 16 <? length data then [(MIso5TooShort, warning)] else [])).
Proof.
  unfold strip_brand.
  destruct (20 <=? length data) eqn:E20.
  - apply Nat.leb_le in E20. unfold bind at 1. rewrite brand_test by assumption.
    destruct (has_brand data); simpl; unfold bind, ret; rewrite emit_eq; reflexivity.
  - simpl. destruct (16 <? length data).
    + unfold bind, ret. now rewrite emit_eq.
    + unfold ret. now rewrite add_log_nil.
Qed.

Lemma patch_and_write_eq lc data s :
  patch_and_write lc data s
  = write (repair_chunk data) (add_log lc s (chunk_notes data)).
Proof.
  unfold patch_and_write, repair_chunk, chunk_notes.
  unfold bind at 1. rewrite patch_step.
  unfold bind at 1. rewrite brand_step.
  rewrite add_log_app, patch3_length, has_brand_patch3. reflexivity.
Qed.

Lemma fits_wrote d s n :
  fits (room (fout s)) (length d) = true ->
  fits (room (fout (wrote d s))) n = fits (room (fout s)) (length d + n).
Proof.
  unfold wrote, fits. simpl. destruct (room (fout s)) as [r|]; simpl; [|reflexivity].
  intros H. apply Nat.leb_le in H.
  destruct (n <=? r - length d) eqn:E1, (length d + n <=? r) eqn:E2; try reflexivity.
  - apply Nat.leb_le in E1. apply Nat.leb_gt in E2. lia.
  - apply Nat.leb_gt in E1. apply Nat.leb_le in E2. lia.
Qed.

Lemma fits_mono room n m : n <= m -> fits room m = true -> fits room n = true.
Proof.
  destruct room as [r|]; simpl; [|reflexivity].
  intros H E. apply Nat.leb_le in E. apply Nat.leb_le. lia.
Qed.

Lemma write_eq d s :
  write d s = if fits (room (fout s)) (length d)
              then (Ok tt, wrote d s) else (Raise OSError, s).
Proof.
  unfold write, wrote, fits. destruct (room (fout s)) as [r|]; simpl; [|reflexivity].
  destruct (length d <=? r); reflexivity.
Qed.

Lemma skipn_nonempty {A} n (l : list A) : n < length l -> skipn n l <> [].
Proof.
  intros H E. apply (f_equal (@length A)) in E. rewrite length_skipn in E. simpl in E. lia.
Qed.

Lemma read_spec n s :
  0 < n ->
  (exists s', read n s = (Raise OSError, s') /\ chunk n (fin s) = []
        /\ hits_read_error (fin s) = true)
  \/ (exists s', read n s = (Ok [], s') /\ chunk n (fin s) = []
        /\ delivered (fin s) = [] /\ hits_read_error (fin s) = false
        /\ fout s' = fout s /\ log s' = log s)
  \/ (exists b c s', read n s = (Ok (b :: c), s')
        /\ chunk n (fin s) = b :: c
        /\ fin s' = rest_after n (fin s)
        /\ delivered (fin s) = (b :: c) ++ delivered (fin s')
        /\ hits_read_error (fin s') = hits_read_error (fin s)
        /\ stream_size (fin s') < stream_size (fin s)
        /\ fout s' = fout s /\ log s' = log s).
Proof.
  intros Hn. destruct s as [f o l]. unfold read. simpl.
  destruct f as [|[bs|] rest].
  - right; left. eexists. repeat split.
  - destruct bs as [|b bs].
    + right; left. simpl. eexists. repeat split. apply firstn_nil.
    + right; right.
      destruct (length (b :: bs) <=? n) eqn:E.
      * pose proof (proj1 (Nat.leb_le _ _) E) as E1.
        exists b, bs. eexists. split; [reflexivity|].
        cbn [fin fout log chunk rest_after]. rewrite E.
        split; [now apply firstn_all2|].
        split; [reflexivity|]. split; [reflexivity|]. split; [reflexivity|].
        split; [simpl; lia|]. split; reflexivity.
      * apply Nat.leb_gt in E.
        destruct n as [|n]; [lia|].
        exists b, (firstn n bs). eexists. split; [reflexivity|].
        cbn [fin fout log chunk rest_after].
        assert (E' : (length (b :: bs) <=? S n) = false) by now apply Nat.leb_gt.
        rewrite E'.
        split; [reflexivity|]. split; [reflexivity|].
        assert (Hne : skipn (S n) (b :: bs) <> []) by now apply skipn_nonempty.
        destruct (skipn (S n) (b :: bs)) as [|x xs] eqn:Es; [congruence|].
        split; [|split; [|split]].
        -- cbn [delivered]. rewrite <- Es.
           rewrite <- (firstn_skipn (S n) (b :: bs)) at 1.
           now rewrite <- app_assoc.
        -- reflexivity.
        -- cbn [stream_size fold_right burst_size].
           apply (f_equal (@length byte)) in Es. rewrite length_skipn in Es.
           simpl in Es |- *. lia.
        -- split; reflexivity.
  - left. eexists. repeat split.
Qed.

Lemma copy_spec lc fuel : forall s,
  stream_size (fin s) < fuel -> copy_post s (loop lc fuel true s).
Proof.
  induction fuel as [|fuel IH]; intros s Hf; [lia|].
  cbn [loop negb]. unfold bind at 1.
  destruct (read_spec 4096 s ltac:(lia)) as
    [(s' & E & _ & Hh)|[(s' & E & _ & Hd & Hh & Ho & Hl)
                   |(b & c & s' & E & _ & _ & Hd & Hh & Hs & Ho & Hl)]];
    rewrite E.
  - simpl. auto.
  - unfold ret. simpl. rewrite Hd, Hh, app_nil_r. simpl length.
    repeat split; auto; [destruct (room (fout s)); reflexivity|now rewrite Ho].
  - unfold bind. rewrite write_eq, Ho.
    destruct (fits (room (fout s)) (length (b :: c))) eqn:Ef.
    + assert (Hsz : stream_size (fin (wrote (b :: c) s')) < fuel) by (simpl; lia).
      specialize (IH _ Hsz). unfold copy_post in *.
      destruct (loop lc fuel true (wrote (b :: c) s')) as [[u|e|] s''].
      * destruct IH as (H1 & H2 & H3 & H4).
        rewrite fits_wrote in H2 by (now rewrite Ho).
        unfold wrote in H1, H2, H3, H4. cbn [fin fout log written] in H1, H2, H3, H4.
        rewrite Ho in H2, H3. rewrite Hd, length_app, <- Hh.
        repeat split; auto.
        -- rewrite H3. now rewrite <- app_assoc.
        -- congruence.
      * destruct IH as (H1 & H2). split; [assumption|].
        rewrite fits_wrote in H2 by (now rewrite Ho).
        unfold wrote in H2. cbn [fin fout log written] in H2.
        rewrite Ho in H2. rewrite Hd, length_app, <- Hh. exact H2.
      * assumption.
    + simpl. split; [reflexivity|]. right. rewrite Hd, length_app.
      destruct (fits (room (fout s)) (length (b :: c) + length (delivered (fin s')))) eqn:E2;
        [|reflexivity].
      apply fits_mono with (n := length (b :: c)) in E2; [congruence|lia].
Qed.

Lemma chunk_then_copy lc d fuel s :
  stream_size (fin s) < fuel ->
  chunk_post lc d s ((patch_and_write lc d ;;; loop lc fuel true) s).
Proof.
  intros Hf. unfold bind. rewrite patch_and_write_eq, write_eq.
  set (s1 := add_log lc s (chunk_notes d)).
  assert (Hfin : fin s1 = fin s) by reflexivity.
  assert (Hout : fout s1 = fout s) by reflexivity.
  rewrite Hout.
  destruct (fits (room (fout s)) (length (repair_chunk d))) eqn:Ef.
  - assert (Hf' : stream_size (fin (wrote (repair_chunk d) s1)) < fuel) by exact Hf.
    pose proof (@copy_spec lc fuel (wrote (repair_chunk d) s1) Hf') as C.
    unfold copy_post in C. unfold chunk_post.
    destruct (loop lc fuel true (wrote (repair_chunk d) s1)) as [[u|e|] s''];
      [| |exact C];
      rewrite fits_wrote in C by (now rewrite Hout);
      unfold wrote in C; cbn [fin fout log written] in C;
      rewrite ?Hfin, ?Hout in C; rewrite length_app.
    + destruct C as (H1 & H2 & H3 & H4).
      repeat split; auto. rewrite H3. now rewrite <- app_assoc.
    + exact C.
  - simpl. split; [reflexivity|]. right. rewrite length_app.
    destruct (fits (room (fout s))
                (length (repair_chunk d) + length (delivered (fin s)))) eqn:E2;
      [|reflexivity].
    apply fits_mono with (n := length (repair_chunk d)) in E2; [congruence|lia].
Qed.

Lemma fits_zero room : fits room 0 = true.
Proof. destruct room; reflexivity. Qed.

Lemma loop_spec lc fuel s :
  stream_size (fin s) < fuel ->
  loop_post lc s (loop lc (S fuel) false s).
Proof.
  intros Hf. cbn [loop negb]. unfold bind at 1.
  destruct (read_spec 1024 s ltac:(lia)) as
    [(s' & E & _ & Hh)|[(s' & E & Hc & Hd & Hh & Ho & Hl)
                   |(b & c & s' & E & Hc & Hr & Hd & Hh & Hs & Ho & Hl)]];
    rewrite E.
  - simpl. auto.
  - unfold ret, loop_post, repaired, header_notes, first_chunk. rewrite Hc.
    simpl length. rewrite fits_zero, app_nil_r, Ho.
    repeat split; auto. unfold add_log. simpl. rewrite Hl.
    destruct lc; now rewrite ?app_nil_r.
  - unfold loop_post, repaired, header_notes, first_chunk. rewrite Hc, <- Hr.
    destruct (9 <=? length (b :: c)) eqn:E9.
    + pose proof (@chunk_then_copy lc (delslice (b :: c) 0 9) fuel s'
                    ltac:(lia)) as C.
      unfold chunk_post in C.
      change (delslice (b :: c) 0 9) with (skipn 9 (b :: c)) in *.
      destruct ((patch_and_write lc (skipn 9 (b :: c)) ;;; loop lc fuel true) s')
        as [[u|e|] s'']; [| |exact C].
      * destruct C as (H1 & H2 & H3 & H4). rewrite <- Hh, <- Ho.
        repeat split; auto. rewrite H4. unfold add_log. simpl. now rewrite Hl.
      * rewrite <- Hh, <- Ho. exact C.
    + unfold bind at 1. rewrite emit_eq.
      set (s1 := add_log lc s' [(MHeaderTooShort, warning)]).
      unfold bind at 1. rewrite write_eq.
      change (fout s1) with (fout s'). rewrite Ho.
      destruct (fits (room (fout s)) (length (b :: c))) eqn:Ef.
      * set (s2 := wrote (b :: c) s1).
        assert (Hfin2 : fin s2 = fin s') by reflexivity.
        assert (Hw2 : written (fout s2) = written (fout s) ++ b :: c)
          by (unfold s2, wrote, s1; simpl; now rewrite Ho).
        assert (Hl2 : log s2 = log (add_log lc s [(MHeaderTooShort, warning)]))
          by (unfold s2, wrote, s1, add_log; simpl; now rewrite Hl).
        assert (Hfit2 : forall n, fits (room (fout s2)) n
                                  = fits (room (fout s)) (length (b :: c) + n)).
        { intros n. unfold s2. rewrite fits_wrote.
          - change (fout s1) with (fout s'). now rewrite Ho.
          - change (fout s1) with (fout s'). now rewrite Ho. }
        unfold bind at 1.
        destruct (read_spec 4096 s2 ltac:(lia)) as
          [(s3 & E2 & _ & Hh2)|[(s3 & E2 & Hc2 & Hd2 & Hh2 & Ho2 & Hl2')
              |(b2 & c2 & s3 & E2 & Hc2 & Hr2 & Hd2 & Hh2 & Hs2 & Ho2 & Hl2')]];
          rewrite E2.
        -- split; [reflexivity|]. left. rewrite <- Hh, <- Hfin2. exact Hh2.
        -- rewrite Hfin2 in Hc2, Hh2. rewrite Hc2, app_nil_r, Ef, <- Hh.
           unfold ret. repeat split; auto.
           ++ now rewrite Ho2, Hw2.
           ++ now rewrite Hl2', Hl2.
        -- rewrite Hfin2 in Hc2, Hr2, Hh2, Hs2. rewrite Hc2, <- Hr2.
           pose proof (@chunk_then_copy lc (b2 :: c2) fuel s3 ltac:(lia)) as C.
           unfold chunk_post in C.
           destruct ((patch_and_write lc (b2 :: c2) ;;; loop lc fuel true) s3)
             as [[u|e|] s'']; [| |exact C];
             rewrite Ho2, Hfit2, <- length_app, Hh2, Hh in C.
           ++ destruct C as (H1 & H2 & H3 & H4).
              repeat split; auto.
              ** rewrite H3, Hw2. now rewrite <- app_assoc.
              ** rewrite H4. unfold add_log. simpl. rewrite Hl2', Hl2.
                 unfold add_log. simpl. destruct lc; [|reflexivity].
                 now rewrite <- app_assoc.
           ++ exact C.
      * split; [reflexivity|]. right. rewrite length_app.
        match goal with
        | |- fits ?r ?n = false => destruct (fits r n) eqn:E2; [|reflexivity]
        end.
        apply fits_mono with (n := length (b :: c)) in E2; [congruence|lia].
Qed.

Lemma decode_spec s r lc :
  let o := decode_bilibili_m4s (Some s) (Some r) lc in
  returned o = negb (io_error (Some s) (Some r))
  /\ (returned o = true ->
      output o = Some (repaired s)
      /\ logged o = say lc (say lc [] MStart info ++
                             (if lc then header_notes s else [])) MDone success).
Proof.
  cbv zeta. unfold decode_bilibili_m4s, io_error.
  set (s0 := {| fin := s; fout := {| written := []; room := r |};
                log := say lc [] MStart info |}).
  pose proof (@loop_spec lc (S (stream_size s)) s0 ltac:(simpl; lia)) as L.
  unfold loop_post in L.
  destruct (loop lc (S (S (stream_size s))) false s0) as [[u|e|] s'];
    cbn [returned output logged fin fout log room written s0] in *.
  - destruct L as (H1 & H2 & H3 & H4). rewrite H1, H2. split; [reflexivity|].
    intros _. rewrite H3, H4. split; [reflexivity|].
    unfold add_log. simpl. destruct lc; now rewrite ?app_nil_r.
  - destruct L as (_ & [H|H]); rewrite H; rewrite ?orb_true_r;
      (split; [reflexivity|discriminate]).
  - contradiction.
Qed.

Lemma decode_returned input room lc :
  returned (decode_bilibili_m4s input room lc) = negb (io_error input room).
Proof.
  destruct input as [s|]; [|reflexivity].
  destruct room as [r|]; [|reflexivity].
  apply decode_spec.
Qed.

(** C8.  The repair function is total and returns a boolean for every input,
    output device and logging choice; the result is [False] exactly when an
    I/O error occurs (a file that cannot be opened, a read that raises, an
    output without room), never because of an index out of range or a
    short header.  In particular every file on disk, whatever its length
    (0, 5, 9, 10, 16, 19, 20 bytes included), is repaired with result
    [True] when output is unrestricted. *)
Theorem decode_false_iff_io_error :
  (forall input room lc,
     returned (decode_bilibili_m4s input room lc) = negb (io_error input room))
  /\ (forall content lc,
        returned (decode_bilibili_m4s (Some (of_file content)) (Some None) lc)
        = true)
  /\ (forall n lc,
        In n [0; 5; 9; 10; 16; 19; 20] ->
        returned (decode_bilibili_m4s (Some (of_file (repeat x00 n)))
                    (Some None) lc) = true).
Proof.
  assert (F : forall content lc,
            returned (decode_bilibili_m4s (Some (of_file content)) (Some None) lc)
            = true).
  { intros content lc. rewrite decode_returned.
    unfold io_error, of_file. destruct content; reflexivity. }
  split; [exact decode_returned|]. split; [exact F|].
  intros n lc _. apply F.
Qed.

Lemma decode_false_iff_io_error_witness :
  returned (decode_bilibili_m4s (Some (of_file (repeat x00 19))) (Some None) true)
  = true.
Proof.
  apply (proj2 (proj2 decode_false_iff_io_error) 19 true).
  simpl. auto 10.
Defined.

Lemma delivered_chunk n s :
  0 < n -> chunk n s <> [] ->
  delivered s = chunk n s ++ delivered (rest_after n s).
Proof.
  intros Hn Hc.
  destruct (@read_spec n {| fin := s; fout := {| written := []; room := None |};
                            log := [] |} Hn)
    as [(s' & _ & E & _)|[(s' & _ & E & _)|(b & c & s' & _ & E & Hr & Hd & _)]];
    cbn [fin] in *; try congruence.
Qed.

Lemma strip_brand_length d :
  length (strip_brand d)
  = if (20 <=? length d) && negb (has_brand d) then length d - 4 else length d.
Proof.
  unfold strip_brand. destruct (20 <=? length d) eqn:E; [|reflexivity].
  destruct (has_brand d); cbn [negb andb]; [reflexivity|].
  apply Nat.leb_le in E.
  rewrite length_app, length_firstn, length_skipn. lia.
Qed.

Lemma repair_chunk_length d :
  length (repair_chunk d)
  = if (20 <=? length d) && negb (has_brand d) then length d - 4 else length d.
Proof.
  unfold repair_chunk.
  now rewrite strip_brand_length, patch3_length, has_brand_patch3.
Qed.

(** C1, amended.  When the first chunk read has at least 29 bytes (so that
    20 remain after the first 9 are dropped) and the run succeeds, the
    output is 9 bytes shorter than the input if bytes 16-19 of the chunk
    after the drop are "iso5", and 13 bytes shorter otherwise. *)
Theorem repair_length s room lc :
  29 <= length (first_chunk s) ->
  returned (decode_bilibili_m4s (Some s) (Some room) lc) = true ->
  exists out,
    output (decode_bilibili_m4s (Some s) (Some room) lc) = Some out
    /\ (has_brand (skipn 9 (first_chunk s)) = true ->
        length out = length (delivered s) - 9)
    /\ (has_brand (skipn 9 (first_chunk s)) = false ->
        length out = length (delivered s) - 13).
Proof.
  intros Hlen Hret.
  destruct (decode_spec s room lc) as [_ H]. destruct (H Hret) as [Ho _].
  exists (repaired s). split; [exact Ho|].
  assert (Hne : chunk 1024 s <> []).
  { intros E. unfold first_chunk in Hlen. rewrite E in Hlen. simpl in Hlen. lia. }
  rewrite (@delivered_chunk 1024 s ltac:(lia) Hne).
  unfold repaired. fold (first_chunk s) in *.
  destruct (first_chunk s) as [|b c] eqn:Ec; [congruence|].
  assert (E9 : (9 <=? length (b :: c)) = true) by (apply Nat.leb_le; lia).
  rewrite E9, !length_app, repair_chunk_length, length_skipn.
  assert (E20 : (20 <=? length (b :: c) - 9) = true) by (apply Nat.leb_le; lia).
  rewrite E20.
  split; intros Hb; rewrite Hb; simpl negb; cbn [andb]; lia.
Qed.

Lemma repair_length_witness :
  exists out,
    output (decode_bilibili_m4s (Some (of_file (repeat x00 40))) (Some None) true)
      = Some out
    /\ (has_brand (skipn 9 (first_chunk (of_file (repeat x00 40)))) = true ->
        length out = length (delivered (of_file (repeat x00 40))) - 9)
    /\ (has_brand (skipn 9 (first_chunk (of_file (repeat x00 40)))) = false ->
        length out = length (delivered (of_file (repeat x00 40))) - 13).
Proof.
  apply (@repair_length (of_file (repeat x00 40)) None true).
  - vm_compute. lia.
  - vm_compute. reflexivity.
Defined.

(** C1 as stated fails for a file of 20 zero bytes: 11 bytes remain after
    the drop, no brand check takes place, and the output has 11 bytes, not
    20 - 13. *)
Lemma repair_length_20_counterexample :
  let s := of_file (repeat x00 20) in
  let o := decode_bilibili_m4s (Some s) (Some None) true in
  ~ (20 <= length (first_chunk s) ->
     returned o = true ->
     exists out,
       output o = Some out
       /\ (has_brand (skipn 9 (first_chunk s)) = true ->
           length out = length (delivered s) - 9)
       /\ (has_brand (skipn 9 (first_chunk s)) = false ->
           length out = length (delivered s) - 13)).
Proof.
  intros s o H.
  destruct H as (out & Ho & _ & H2).
  - vm_compute. lia.
  - vm_compute. reflexivity.
  - vm_compute in Ho. injection Ho as <-.
    specialize (H2 eq_refl). vm_compute in H2. discriminate.
Qed.

(** C2.  When the first read returns the 5 bytes "hello" and the next read
    returns 24 more bytes, the function writes the 5 bytes unchanged and
    logs the warning, but then treats the second chunk as a header: its
    byte 3 becomes a space and its bytes 16-19 are removed.  The later
    bytes are therefore not passed through unmodified. *)
Theorem short_header_then_more_patches_next_chunk :
  let s := [Data (ascii_bytes "hello"); Data (ascii_bytes "0123456789abcdefghijklmn")] in
  let o := decode_bilibili_m4s (Some s) (Some None) true in
  length (first_chunk s) = 5
  /\ delivered s = ascii_bytes "hello0123456789abcdefghijklmn"
  /\ returned o = true
  /\ output o = Some (ascii_bytes "hello012 456789abcdefklmn")
  /\ logged o = [(MStart, info); (MHeaderTooShort, warning);
                 (MIso5Absent, info); (MDone, success)].
Proof. vm_compute. repeat split. Qed.

(** For a file on disk shorter than 9 bytes the next read is empty: the
    content is copied unchanged and the warning is logged. *)
Lemma short_file_copied_unchanged content room lc :
  content <> [] -> length content < 9 ->
  fits room (length content) = true ->
  decode_bilibili_m4s (Some (of_file content)) (Some room) lc
  = {| returned := true; output := Some content;
       logged := say lc (say lc (say lc [] MStart info) MHeaderTooShort warning)
                   MDone success |}.
Proof.
  intros Hne Hlen Hfit.
  assert (Hc : first_chunk (of_file content) = content).
  { unfold first_chunk, of_file, chunk. apply firstn_all2. lia. }
  assert (Hr : rest_after 1024 (of_file content) = []).
  { unfold rest_after, of_file.
    assert (E : (length content <=? 1024) = true) by (apply Nat.leb_le; lia).
    now rewrite E. }
  assert (E9 : (9 <=? length content) = false) by (apply Nat.leb_gt; lia).
  assert (Hrep : repaired (of_file content) = content).
  { unfold repaired. rewrite Hc, Hr, E9. destruct content; [congruence|].
    simpl. now rewrite app_nil_r. }
  assert (Hnotes : header_notes (of_file content) = [(MHeaderTooShort, warning)]).
  { unfold header_notes. rewrite Hc, Hr, E9. destruct content; [congruence|].
    reflexivity. }
  destruct (decode_spec (of_file content) room lc) as [H1 H2].
  assert (Hio : io_error (Some (of_file content)) (Some room) = false).
  { unfold io_error. rewrite Hrep, Hfit. destruct content; [congruence|]. reflexivity. }
  rewrite Hio in H1. cbn [negb] in H1. destruct (H2 H1) as [H3 H4].
  destruct (decode_bilibili_m4s (Some (of_file content)) (Some room) lc) as [r o l].
  cbn [returned output logged] in H1, H3, H4. subst r o l.
  rewrite Hrep, Hnotes. destruct lc; reflexivity.
Qed.

(** C10.  For an empty input (the first read returns no bytes) the function
    writes nothing, returns [True] and logs only the start and completion
    messages: no warning, no header step. *)
Theorem empty_input_succeeds_silently room lc :
  let expected := {| returned := true; output := Some [];
                     logged := say lc (say lc [] MStart info) MDone success |} in
  decode_bilibili_m4s (Some []) (Some room) lc = expected
  /\ (forall rest,
        decode_bilibili_m4s (Some (Data [] :: rest)) (Some room) lc = expected)
  /\ existsb is_warning (logged expected) = false.
Proof.
  cbv zeta. split; [|split].
  - reflexivity.
  - intros rest. reflexivity.
  - destruct lc; reflexivity.
Qed.

End RepairProofs.

(** ** File-name sanitization *)

Module SanitizeProofs.

Import Sanitize.

Lemma replace_illegal_legal s : Forall legal (replace_illegal s).
Proof.
  unfold replace_illegal. apply Forall_map, Forall_forall. intros c _.
  unfold legal. destruct (illegal c) eqn:E; [reflexivity|exact E].
Qed.

Lemma collapse_from_legal b s :
  Forall legal s -> Forall legal (collapse_from b s).
Proof.
  intros H. revert b. induction H as [|c s Hc _ IH]; intros b; simpl; [constructor|].
  destruct (is_space c); [destruct b|]; auto; constructor; auto; reflexivity.
Qed.

Lemma collapse_from_spaced b s : spaced_ok b (collapse_from b s) = true.
Proof.
  revert b. induction s as [|c s IH]; intros b; simpl; [reflexivity|].
  destruct (is_space c) eqn:E.
  - destruct b; [apply IH|]. simpl. apply IH.
  - simpl. rewrite E. apply IH.
Qed.

Lemma spaced_ok_weaken b l : spaced_ok b l = true -> spaced_ok false l = true.
Proof.
  destruct l as [|c l]; simpl; [auto|].
  destruct (is_space c); [|auto]. destruct b; simpl; [discriminate|auto].
Qed.

Lemma spaced_ok_skipn k : forall b l,
  spaced_ok b l = true -> spaced_ok false (skipn k l) = true.
Proof.
  induction k as [|k IH]; intros b l H.
  - simpl. eapply spaced_ok_weaken; eauto.
  - destruct l as [|c l]; [reflexivity|]. simpl in *.
    destruct (is_space c).
    + apply andb_true_iff in H as [_ H]. eapply IH; eauto.
    + eapply IH; eauto.
Qed.

Lemma spaced_ok_firstn k : forall b l,
  spaced_ok b l = true -> spaced_ok b (firstn k l) = true.
Proof.
  induction k as [|k IH]; intros b l H; [reflexivity|].
  destruct l as [|c l]; [reflexivity|]. simpl in *.
  destruct (is_space c).
  - apply andb_true_iff in H as [H1 H]. rewrite H1. simpl. auto.
  - auto.
Qed.

Lemma lstrip_skipn l : exists k, lstrip l = skipn k l.
Proof.
  induction l as [|c l [k IH]]; [exists 0; reflexivity|].
  simpl. destruct (is_space c); [exists (S k); exact IH|exists 0; reflexivity].
Qed.

Lemma rstrip_firstn l : exists j, rstrip l = firstn j l.
Proof.
  unfold rstrip. destruct (lstrip_skipn (rev l)) as [k E]. rewrite E.
  exists (length l - k). rewrite skipn_rev. apply rev_involutive.
Qed.

Lemma strip_segment l : exists k j, strip l = firstn j (skipn k l).
Proof.
  unfold strip. destruct (lstrip_skipn l) as [k E]. rewrite E.
  destruct (rstrip_firstn (skipn k l)) as [j E']. eauto.
Qed.

Lemma Forall_firstn {A} (P : A -> Prop) n l : Forall P l -> Forall P (firstn n l).
Proof.
  intros H. rewrite <- (firstn_skipn n l) in H. now apply Forall_app in H.
Qed.

Lemma Forall_skipn {A} (P : A -> Prop) n l : Forall P l -> Forall P (skipn n l).
Proof.
  intros H. rewrite <- (firstn_skipn n l) in H. now apply Forall_app in H.
Qed.

Lemma lstrip_head l :
  match lstrip l with c :: _ => is_space c = false | [] => True end.
Proof.
  induction l as [|c l IH]; simpl; [exact I|].
  destruct (is_space c) eqn:E; [exact IH|exact E].
Qed.

(** Trailing whitespace of the untruncated string is gone. *)
Lemma rstrip_last l :
  match rev (rstrip l) with c :: _ => is_space c = false | [] => True end.
Proof.
  unfold rstrip. rewrite rev_involutive. apply lstrip_head.
Qed.

Lemma rstrip_head l :
  match l with c :: _ => is_space c = false | [] => True end ->
  match rstrip l with c :: _ => is_space c = false | [] => True end.
Proof.
  intros H. destruct (rstrip_firstn l) as [j E]. rewrite E.
  destruct l as [|c l]; [now rewrite firstn_nil|].
  destruct j; simpl; auto.
Qed.

Lemma firstn_head {A} (P : A -> Prop) n (l : list A) :
  match l with c :: _ => P c | [] => True end ->
  match firstn n l with c :: _ => P c | [] => True end.
Proof. destruct l, n; simpl; auto. Qed.

Lemma lstrip_collapse b s :
  lstrip (collapse_from b s) = collapse_from false (lstrip s).
Proof.
  revert b. induction s as [|c s IH]; intros b; [reflexivity|].
  cbn [collapse_from lstrip]. destruct (is_space c) eqn:E.
  - destruct b; [apply IH|].
    cbn [lstrip]. change (is_space space) with true. cbv iota. apply IH.
  - cbn [lstrip collapse_from]. now rewrite E.
Qed.

Lemma collapse_true_lstrip s :
  collapse_from true s = collapse_from false (lstrip s).
Proof.
  induction s as [|c s IH]; [reflexivity|].
  cbn [collapse_from lstrip]. destruct (is_space c) eqn:E; [exact IH|].
  cbn [collapse_from]. now rewrite E.
Qed.

Lemma lstrip_snoc l c :
  lstrip (l ++ [c])
  = match lstrip l with
    | [] => if is_space c then [] else [c]
    | r => r ++ [c]
    end.
Proof.
  induction l as [|x l IH]; [reflexivity|].
  cbn [app lstrip]. destruct (is_space x); [exact IH|reflexivity].
Qed.

Lemma rstrip_cons c l :
  rstrip (c :: l)
  = match rstrip l with
    | [] => if is_space c then [] else [c]
    | r => c :: r
    end.
Proof.
  unfold rstrip. cbn [rev]. rewrite lstrip_snoc.
  destruct (lstrip (rev l)) as [|x r] eqn:E.
  - cbn [rev]. now destruct (is_space c).
  - rewrite rev_app_distr. cbn [rev app].
    destruct (rev r ++ [x]) eqn:E'; [|reflexivity].
    now destruct (rev r).
Qed.

Lemma rstrip_cons_ink c l : is_space c = false -> rstrip (c :: l) = c :: rstrip l.
Proof. intros E. rewrite rstrip_cons, E. now destruct (rstrip l). Qed.

Lemma words_nonempty s : Forall (fun w => w <> []) (words s).
Proof.
  induction s as [|c s IH]; [constructor|].
  cbn [words]. destruct (is_space c); [exact IH|].
  destruct s as [|d s']; [repeat constructor; discriminate|].
  destruct (is_space d).
  - constructor; [discriminate|exact IH].
  - destruct (words (d :: s')) as [|w ws]; [repeat constructor; discriminate|].
    inversion IH; subst. constructor; [discriminate|assumption].
Qed.

Lemma words_head d s : is_space d = false -> words (d :: s) <> [].
Proof.
  intros E. cbn [words]. rewrite E. destruct s as [|x s]; [discriminate|].
  destruct (is_space x); [discriminate|].
  destruct (words (x :: s)); discriminate.
Qed.

Lemma unwords_cons_nonempty w ws : w <> [] -> unwords (w :: ws) <> [].
Proof.
  intros H. cbn [unwords]. destruct ws; [exact H|].
  destruct w; [contradiction|discriminate].
Qed.

Lemma unwords_push c w ws : unwords ((c :: w) :: ws) = c :: unwords (w :: ws).
Proof. cbn [unwords]. now destruct ws. Qed.

Lemma strip_collapse_words s :
  rstrip (collapse_from false (lstrip s)) = unwords (words s).
Proof.
  induction s as [|c s IH]; [reflexivity|].
  cbn [lstrip words]. destruct (is_space c) eqn:E; [exact IH|].
  cbn [collapse_from]. rewrite E, (rstrip_cons_ink _ _ E).
  destruct s as [|d s']; [reflexivity|].
  destruct (is_space d) eqn:Ed.
  - cbn [collapse_from]. rewrite Ed, collapse_true_lstrip.
    cbn [lstrip] in IH. rewrite Ed in IH.
    rewrite rstrip_cons, IH. change (is_space space) with true. cbv iota.
    pose proof (words_nonempty (d :: s')) as Hn.
    destruct (words (d :: s')) as [|w ws] eqn:Ew; [reflexivity|].
    inversion Hn as [|? ? Hw _]; subst.
    pose proof (unwords_cons_nonempty w ws Hw) as Hu.
    destruct (unwords (w :: ws)) as [|x u] eqn:Eu; [contradiction|].
    cbn [unwords]. rewrite <- Eu. reflexivity.
  - cbn [lstrip] in IH. rewrite Ed in IH. rewrite IH.
    pose proof (words_head d s' Ed) as Hh.
    destruct (words (d :: s')) as [|w ws]; [contradiction|].
    now rewrite unwords_push.
Qed.

Lemma normalized_words filename :
  normalized filename = replaced_collapsed_trimmed filename.
Proof.
  unfold normalized, replaced_collapsed_trimmed, strip, collapse_whitespace,
    replace_illegal.
  now rewrite lstrip_collapse, strip_collapse_words.
Qed.

(** C7, amended.  The sanitized name is the first 150 characters of the
    string obtained from the name by replacing each illegal character with
    an underscore, collapsing every run of whitespace to one space and
    trimming both ends; that string is [replaced_collapsed_trimmed], which
    is written from these words and not from the code.  Hence the
    sanitized name contains no illegal character, contains whitespace only
    as single spaces, does not begin with whitespace, and has at most 150
    characters: exactly 150 when the string before the cut is longer.  The
    string before the cut does not end with whitespace.  The title
    [My:Video<1>] becomes [My_Video_1_]. *)
Theorem sanitize_filename_spec (filename : pystr) :
  let r := sanitize_filename filename in
  r = firstn 150 (replaced_collapsed_trimmed filename)
  /\ Forall legal r
  /\ spaced_ok false r = true
  /\ match r with c :: _ => is_space c = false | [] => True end
  /\ match rev (replaced_collapsed_trimmed filename) with
     | c :: _ => is_space c = false | [] => True end
  /\ length r = Nat.min 150 (length (replaced_collapsed_trimmed filename))
  /\ length r <= 150
  /\ (150 < length (replaced_collapsed_trimmed filename) -> length r = 150)
  /\ sanitize_filename (str "My:Video<1>") = str "My_Video_1_".
Proof.
  cbv zeta. rewrite <- !normalized_words. unfold sanitize_filename, normalized.
  set (c := collapse_whitespace (replace_illegal filename)).
  assert (Hl : Forall legal c)
    by apply collapse_from_legal, replace_illegal_legal.
  assert (Hs : spaced_ok false c = true) by apply collapse_from_spaced.
  destruct (strip_segment c) as (k & j & E).
  split; [reflexivity|].
  split; [rewrite E; now apply Forall_firstn, Forall_firstn, Forall_skipn|].
  split; [rewrite E; apply spaced_ok_firstn, spaced_ok_firstn;
          eapply spaced_ok_skipn; eauto|].
  split; [apply firstn_head; unfold strip; apply rstrip_head, lstrip_head|].
  split; [unfold strip; apply rstrip_last|].
  split; [apply length_firstn|].
  split; [rewrite length_firstn; lia|].
  split; [intros H; rewrite length_firstn; lia|reflexivity].
Qed.

(** C7 as stated fails for a title of 161 characters, a hundred letters,
    sixty spaces and one letter: its sanitized form has 102 characters,
    not 150. *)
Lemma long_title_counterexample :
  let title := repeat 97%N 100 ++ repeat 32%N 60 ++ [98%N] in
  ~ (150 < length title -> length (sanitize_filename title) = 150).
Proof.
  intros title H. assert (L : 150 < length title) by (vm_compute; lia).
  specialize (H L). vm_compute in H. discriminate.
Qed.

End SanitizeProofs.

(** ** Title selection *)

Module TitleProofs.

Import Sanitize Title.

(** C4, amended.  When the probe selects a value whose sanitized text is
    empty, the title is the sanitized base name of the input folder, or
    "converted_video" when that is empty too.  When no branch of the probe
    is taken, the title is the literal "untitled_video". *)
Theorem title_fallback repr st video_info folder_basename :
  (forall v,
     probe st video_info = Ok (Some v) ->
     sanitize_filename (py_str repr v) = [] ->
     choose_title repr st (Ok video_info) folder_basename
     = Some (fallback_title folder_basename))
  /\ (probe st video_info = Ok None ->
      choose_title repr st (Ok video_info) folder_basename
      = Some (str "untitled_video")).
Proof.
  unfold choose_title, fallback_title. cbn [rbind]. split.
  - intros v Hp Hs. rewrite Hp. cbn [rbind]. rewrite Hs.
    destruct (sanitize_filename folder_basename); reflexivity.
  - intros Hp. rewrite Hp. reflexivity.
Qed.

Lemma title_fallback_witness :
  choose_title no_repr pc (Ok empty_title_info) (str "My Folder")
    = Some (fallback_title (str "My Folder"))
  /\ choose_title no_repr mobile (Ok (JObj [])) (str "My Folder")
    = Some (str "untitled_video").
Proof.
  split.
  - apply (proj1 (title_fallback no_repr pc empty_title_info (str "My Folder"))
             (JStr (str "  "))); reflexivity.
  - apply (proj2 (title_fallback no_repr mobile (JObj []) (str "My Folder")));
      reflexivity.
Defined.

(** C4 as stated fails for the empty descriptor: no title is found and the
    title is "untitled_video", not the folder's base name. *)
Lemma no_title_counterexample :
  ~ (probe pc (JObj []) = Ok None ->
     choose_title no_repr pc (Ok (JObj [])) (str "My Folder")
     = Some (fallback_title (str "My Folder"))).
Proof.
  intros H. specialize (H eq_refl). vm_compute in H. discriminate.
Qed.

End TitleProofs.

(** ** Layout detection *)

Module DetectProofs.

Import FS Detect.

Lemma str_eqb_eq a : forall b, str_eqb a b = true <-> a = b.
Proof.
  induction a as [|x a IH]; intros [|y b]; simpl; split; intros H;
    try reflexivity; try discriminate.
  - apply andb_true_iff in H as [H1 H2]. apply N.eqb_eq in H1.
    apply IH in H2. congruence.
  - injection H as -> ->. rewrite N.eqb_refl. simpl. now apply IH.
Qed.

Lemma mem_In name items : mem name items = true <-> In name items.
Proof.
  unfold mem. rewrite existsb_exists. split.
  - intros (x & Hx & E). apply str_eqb_eq in E. now subst.
  - intros H. exists name. split; [assumption|]. now apply str_eqb_eq.
Qed.

Lemma lookup_app p : forall q n,
  lookup (p ++ q) n
  = match lookup p n with Some m => lookup q m | None => None end.
Proof.
  induction p as [|c p IH]; intros q n; [reflexivity|].
  simpl. destruct n as [|sz l entries]; [reflexivity|].
  destruct (find_entry c entries); [apply IH|reflexivity].
Qed.

Lemma detect_pc fs folder items :
  listdir fs folder = Ok items ->
  In videoInfo items ->
  detect_folder_structure fs folder
  = (pc, Some folder, Some (join folder videoInfo)).
Proof.
  intros Hl Hin. unfold detect_folder_structure. rewrite Hl.
  apply mem_In in Hin. unfold videoInfo in Hin. now rewrite Hin.
Qed.

Lemma scan_cases fs c e c_items :
  scan fs c e c_items = not_recognised
  \/ exists p, scan fs c e c_items = (mobile, Some p, Some e)
               /\ fragment_dir fs c c_items p.
Proof.
  induction c_items as [|item rest IH]; [left; reflexivity|].
  assert (K : forall p, fragment_dir fs c rest p -> fragment_dir fs c (item :: rest) p).
  { intros p (i & subs & H1 & H2). exists i, subs. split; [now right|exact H2]. }
  cbn [scan]. destruct (isdir fs (join c item)) eqn:Ed.
  - destruct (listdir fs (join c item)) as [subs|e'|] eqn:El.
    + destruct (2 <=? length (filter is_m4s subs)) eqn:E2.
      * right. eexists. split; [reflexivity|].
        exists item, subs. apply Nat.leb_le in E2. repeat split; auto. now left.
      * destruct IH as [IH|(p & IH & F)]; [now left|right; eauto].
    + destruct IH as [IH|(p & IH & F)]; [now left|right; eauto].
    + destruct IH as [IH|(p & IH & F)]; [now left|right; eauto].
  - destruct IH as [IH|(p & IH & F)]; [now left|right; eauto].
Qed.

Lemma detect_cases fs folder :
  (exists items, listdir fs folder = Ok items /\ In videoInfo items
     /\ detect_folder_structure fs folder
        = (pc, Some folder, Some (join folder videoInfo)))
  \/ (exists media meta,
        detect_folder_structure fs folder = (mobile, Some media, Some meta)
        /\ mobile_layout fs folder media meta)
  \/ detect_folder_structure fs folder = (unknown, None, None).
Proof.
  unfold detect_folder_structure.
  destruct (listdir fs folder) as [items|e|] eqn:El; [|now right; right..].
  destruct (mem (str "videoInfo.json") items) eqn:Em.
  - left. exists items. apply mem_In in Em. auto.
  - destruct (filter _ items) as [|c0 cs] eqn:Ef; [now right; right|].
    assert (Hc : In c0 (filter (fun item => isdir fs (join folder item)
                                 && startswith item (str "c_")) items))
      by (rewrite Ef; now left).
    apply filter_In in Hc as [Hc1 Hc2]. apply andb_true_iff in Hc2 as [Hd Hs].
    destruct (listdir fs (join folder c0)) as [c_items|e|] eqn:Elc;
      [|now right; right..].
    destruct (exists_ fs (join (join folder c0) (str "entry.json"))) eqn:Ee;
      [|now right; right].
    simpl negb. cbv iota.
    destruct (scan_cases fs (join folder c0)
                (join (join folder c0) (str "entry.json")) c_items)
      as [H|(p & H & F)]; rewrite H.
    + now right; right.
    + right; left. exists p. eexists. split; [reflexivity|].
      exists items, c0, c_items. repeat split; auto.
      intros Hin. apply mem_In in Hin. unfold videoInfo in Hin. congruence.
Qed.

Section Relocate.

Variables (fs n : node) (folder : path).
Hypothesis Hroot : lookup folder fs = Some n.

Lemma listdir_at q : listdir fs (folder ++ q) = listdir n q.
Proof. unfold listdir. now rewrite lookup_app, Hroot. Qed.

Lemma isdir_at q : isdir fs (folder ++ q) = isdir n q.
Proof. unfold isdir. now rewrite lookup_app, Hroot. Qed.

Lemma exists_at q : exists_ fs (folder ++ q) = exists_ n q.
Proof. unfold exists_. now rewrite lookup_app, Hroot. Qed.

Lemma join_at q x : join (folder ++ q) x = folder ++ join q x.
Proof. unfold join. now rewrite app_assoc. Qed.

Lemma scan_at c e c_items :
  scan fs (folder ++ c) (folder ++ e) c_items = shift folder (scan n c e c_items).
Proof.
  induction c_items as [|item rest IH]; [reflexivity|].
  cbn [scan]. rewrite join_at, isdir_at, listdir_at, IH.
  destruct (isdir n (join c item)); [|reflexivity].
  destruct (listdir n (join c item)) as [subs| |]; try reflexivity.
  destruct (2 <=? length (filter is_m4s subs)); reflexivity.
Qed.

Lemma detect_at :
  detect_folder_structure fs folder
  = shift folder (detect_folder_structure n []).
Proof.
  unfold detect_folder_structure.
  rewrite <- (app_nil_r folder) at 1. rewrite listdir_at.
  destruct (listdir n []) as [items| |]; try reflexivity.
  destruct (mem (str "videoInfo.json") items).
  - cbn [shift option_map]. now rewrite app_nil_r.
  - assert (E : filter (fun item => isdir fs (join folder item)
                                   && startswith item (str "c_")) items
              = filter (fun item => isdir n (join [] item)
                                   && startswith item (str "c_")) items).
    { apply filter_ext. intros a. unfold join at 1. now rewrite isdir_at. }
    rewrite E. clear E.
    destruct (filter _ items) as [|c0 cs]; [reflexivity|].
    replace (join folder c0) with (folder ++ join [] c0) by reflexivity.
    rewrite listdir_at.
    destruct (listdir n (join [] c0)) as [c_items| |]; try reflexivity.
    rewrite join_at, exists_at.
    destruct (exists_ n (join (join [] c0) (str "entry.json"))); [|reflexivity].
    cbn [negb]. apply scan_at.
Qed.

End Relocate.

(** C6.  A folder whose listing contains videoInfo.json is desktop-origin,
    with the folder itself as fragment directory and that entry as
    descriptor.  The folder holding c_1/entry.json, c_1/77/a.m4s and
    c_1/77/b.m4s is mobile-origin with c_1/77 and c_1/entry.json.  Every
    result is one of these two kinds, with the paths the layout requires,
    or unknown with both paths absent. *)
Theorem detect_folder_structure_spec :
  (forall fs folder items,
     listdir fs folder = Ok items -> In videoInfo items ->
     detect_folder_structure fs folder
     = (pc, Some folder, Some (join folder videoInfo)))
  /\ (forall fs folder,
        lookup folder fs = Some mobile_example ->
        detect_folder_structure fs folder
        = (mobile, Some (folder ++ [str "c_1"; str "77"]),
           Some (folder ++ [str "c_1"; str "entry.json"])))
  /\ (forall fs folder,
        (exists items, listdir fs folder = Ok items /\ In videoInfo items
           /\ detect_folder_structure fs folder
              = (pc, Some folder, Some (join folder videoInfo)))
        \/ (exists media meta,
              detect_folder_structure fs folder = (mobile, Some media, Some meta)
              /\ mobile_layout fs folder media meta)
        \/ detect_folder_structure fs folder = (unknown, None, None)).
Proof.
  split; [|split].
  - intros fs folder items. apply detect_pc.
  - intros fs folder H. rewrite (@detect_at fs mobile_example folder H). reflexivity.
  - apply detect_cases.
Qed.

Lemma detect_folder_structure_spec_witness :
  detect_folder_structure (Dir None true [(videoInfo, plain_file)]) []
    = (pc, Some [], Some (join [] videoInfo))
  /\ detect_folder_structure mobile_example []
    = (mobile, Some ([] ++ [str "c_1"; str "77"]),
       Some ([] ++ [str "c_1"; str "entry.json"])).
Proof.
  split.
  - apply (proj1 detect_folder_structure_spec
             (Dir None true [(videoInfo, plain_file)]) [] [videoInfo]).
    + reflexivity.
    + now left.
  - apply (proj1 (proj2 detect_folder_structure_spec) mobile_example []).
    reflexivity.
Defined.

(** C9.  A listable folder with an entry named videoInfo.json, of whatever
    kind (file or directory) and whatever else the folder holds, is
    desktop-origin with that entry as descriptor. *)
Theorem videoInfo_entry_decides fs folder sz entries child :
  lookup folder fs = Some (Dir sz true entries) ->
  In (videoInfo, child) entries ->
  detect_folder_structure fs folder
  = (pc, Some folder, Some (join folder videoInfo)).
Proof.
  intros Hl Hin. apply detect_pc with (items := map fst entries).
  - unfold listdir. now rewrite Hl.
  - change videoInfo with (fst (videoInfo, child)). now apply in_map.
Qed.

Lemma videoInfo_entry_decides_witness :
  detect_folder_structure mixed_example []
  = (pc, Some [], Some (join [] videoInfo)).
Proof.
  eapply (@videoInfo_entry_decides mixed_example [] None).
  - reflexivity.
  - right. left. reflexivity.
Defined.

End DetectProofs.

(** ** Track selection *)

Module TracksProofs.

Import FS Tracks.

Lemma insert_desc_perm x l : Permutation (x :: l) (insert_desc x l).
Proof.
  induction l as [|y l IH]; simpl; [reflexivity|].
  destruct (size y <=? size x)%N; [reflexivity|].
  rewrite perm_swap. now constructor.
Qed.

Lemma sort_desc_perm l : Permutation l (sort_desc l).
Proof.
  induction l as [|x l IH]; simpl; [constructor|].
  rewrite <- insert_desc_perm. now constructor.
Qed.

Lemma insert_desc_sorted x l :
  StronglySorted ge_size l -> StronglySorted ge_size (insert_desc x l).
Proof.
  induction 1 as [|y l Hs IH Hy]; simpl.
  - constructor; constructor.
  - destruct (size y <=? size x)%N eqn:E.
    + apply N.leb_le in E. constructor.
      * now constructor.
      * constructor; [exact E|].
        eapply Forall_impl; [|exact Hy]. unfold ge_size. intros z Hz. lia.
    + apply N.leb_gt in E. constructor; [exact IH|].
      rewrite <- insert_desc_perm. constructor; [unfold ge_size; lia|exact Hy].
Qed.

Lemma sort_desc_sorted l : StronglySorted ge_size (sort_desc l).
Proof.
  induction l as [|x l IH]; simpl; [constructor|]. now apply insert_desc_sorted.
Qed.

Lemma select_none m4s_files : length m4s_files < 2 -> select m4s_files = None.
Proof.
  intros H. unfold select. apply Nat.ltb_lt in H. now rewrite H.
Qed.

Lemma select_some m4s_files :
  2 <= length m4s_files ->
  exists v a others,
    select m4s_files = Some (v, a)
    /\ sort_desc m4s_files = v :: a :: others
    /\ Permutation m4s_files (v :: a :: others)
    /\ (size a <= size v)%N
    /\ (forall x, In x others -> (size x <= size a)%N).
Proof.
  intros H. unfold select.
  assert (E : (length m4s_files <? 2) = false) by (apply Nat.ltb_ge; lia).
  rewrite E.
  pose proof (sort_desc_perm m4s_files) as P.
  pose proof (sort_desc_sorted m4s_files) as S.
  pose proof (Permutation_length P) as L.
  destruct (sort_desc m4s_files) as [|v [|a others]]; simpl in L; try lia.
  exists v, a, others. repeat split; auto.
  - inversion S as [|? ? _ Hv]; subst. now inversion Hv.
  - intros x Hx. inversion S as [|? ? S' _]; subst.
    inversion S' as [|? ? _ Ha]; subst.
    rewrite Forall_forall in Ha. now apply Ha.
Qed.

Lemma collect_In fs folder f : forall items,
  In f (fst (collect fs folder items)) <->
  exists item, In item items /\ is_m4s item = true
               /\ getsize fs (join folder item) = Ok (size f)
               /\ f = {| path_ := join folder item; size := size f; name := item |}.
Proof.
  induction items as [|item rest IH]; simpl.
  - split; [contradiction|]. intros (i & [] & _).
  - destruct (collect fs folder rest) as [files warned] eqn:Ec. simpl in IH.
    destruct (is_m4s item) eqn:Em.
    + destruct (getsize fs (join folder item)) as [n| |] eqn:Eg; simpl.
      * split.
        -- intros [H|H].
           ++ subst f. exists item. simpl. repeat split; auto.
           ++ apply IH in H as (i & H1 & H2). exists i. split; [now right|exact H2].
        -- intros (i & [H1|H1] & H2 & H3 & H4).
           ++ subst i. left. rewrite Eg in H3. injection H3 as H3. rewrite H4, <- H3.
              reflexivity.
           ++ right. apply IH. exists i. auto.
      * rewrite IH. split.
        -- intros (i & H1 & H2). exists i. split; [now right|exact H2].
        -- intros (i & [H1|H1] & H2 & H3 & H4).
           ++ subst i. congruence.
           ++ exists i. auto.
      * rewrite IH. split.
        -- intros (i & H1 & H2). exists i. split; [now right|exact H2].
        -- intros (i & [H1|H1] & H2 & H3 & H4).
           ++ subst i. congruence.
           ++ exists i. auto.
    + simpl. rewrite IH. split.
      * intros (i & H1 & H2). exists i. split; [now right|exact H2].
      * intros (i & [H1|H1] & H2 & H3 & H4).
        -- subst i. congruence.
        -- exists i. auto.
Qed.

(** C5.  The candidates are exactly the listed names ending in .m4s (in any
    case) whose size can be read.  Fewer than two candidates give no pair.
    Otherwise the pair is the largest and the second-largest candidate,
    so the video is at least as large as the audio.  Of fragments of 2 MB,
    500 KB and 10 MB the 10 MB one is the video and the 2 MB one the
    audio. *)
Theorem disambiguate_spec :
  (forall fs folder items,
     listdir fs folder = Ok items ->
     let cands := fst (collect fs folder items) in
     (forall f, In f cands <->
        exists item, In item items /\ is_m4s item = true
          /\ getsize fs (join folder item) = Ok (size f)
          /\ f = {| path_ := join folder item; size := size f; name := item |})
     /\ (length cands < 2 -> disambiguate fs folder = Ok None)
     /\ (2 <= length cands ->
         exists v a others,
           disambiguate fs folder = Ok (Some (v, a))
           /\ Permutation cands (v :: a :: others)
           /\ (size a <= size v)%N
           /\ (forall x, In x others -> (size x <= size a)%N)))
  /\ disambiguate three_fragments []
     = Ok (Some ({| path_ := [str "video.M4S"]; size := 10 * MB;
                    name := str "video.M4S" |},
                 {| path_ := [str "audio.m4s"]; size := 2 * MB;
                    name := str "audio.m4s" |})).
Proof.
  split; [|reflexivity].
  intros fs folder items Hl cands. unfold disambiguate. rewrite Hl.
  split; [|split].
  - intros f. apply collect_In.
  - intros H. now rewrite select_none.
  - intros H. destruct (select_some _ H) as (v & a & others & E & _ & P & H1 & H2).
    exists v, a, others. fold cands. rewrite E. auto.
Qed.

Lemma disambiguate_spec_witness :
  exists v a others,
    disambiguate three_fragments [] = Ok (Some (v, a))
    /\ Permutation (fst (collect three_fragments []
                           (map fst [(str "audio.m4s", sized (2 * MB));
                                     (str "extra.m4s", sized (500 * KB));
                                     (str "video.M4S", sized (10 * MB));
                                     (str "notes.txt", sized (20 * MB))])))
         (v :: a :: others)
    /\ (size a <= size v)%N
    /\ (forall x, In x others -> (size x <= size a)%N).
Proof.
  apply (proj1 disambiguate_spec three_fragments [] _ eq_refl).
  vm_compute. lia.
Defined.

End TracksProofs.

(** ** Merge strategies *)

Module OrchestratorProofs.

Import FS Tracks Orchestrator.

Lemma listdir_returns fs p : listdir fs p <> Timeout.
Proof.
  unfold listdir. destruct (lookup p fs) as [[|? [] ?]|]; discriminate.
Qed.

Lemma new_events_app s s' evs :
  trace (os s') = trace (os s) ++ evs -> new_events s s' = evs.
Proof.
  intros H. unfold new_events. rewrite H, skipn_app, skipn_all, Nat.sub_diag.
  reflexivity.
Qed.

Lemma quiet_no_attempt evs :
  Forall (fun e => quiet e = true) evs -> filter is_repair_attempt evs = [].
Proof.
  induction 1 as [|e evs He _ IH]; [reflexivity|].
  simpl. rewrite IH. destruct e; try reflexivity; discriminate.
Qed.

(** C3.  A phone folder whose direct merge fails, while both repairs and
    the merge of the repaired files succeed.  When [os.remove] of the first
    temporary file raises, the second removal is skipped: both temporary
    files are still on disk when the call returns, and the call returns
    [False] although the merge succeeded.  When only the second removal
    raises, the second file stays.  In both runs the repair is attempted
    once. *)
Theorem failed_removal_leaves_temp_files :
  let run := process_single_folder Detect.mobile_example titled (fun _ => []) [] in
  let media := [str "c_1"; str "77"] in
  let repaired_and_merged :=
    [EDirectMerge (str "clip") (media ++ [str "a.m4s"]) (media ++ [str "b.m4s"])
       false;
     ERepairThenMerge; EMkstemp 0; EClose 0; EMkstemp 1; EClose 1;
     EDecode (media ++ [str "a.m4s"]) 0 true;
     EDecode (media ++ [str "b.m4s"]) 1 true;
     EMerge (str "clip") 0 1 true] in
  (fst (run (start_with [false; true] [] [false])) = Ok false
   /\ new_events (start_with [false; true] [] [false])
        (snd (run (start_with [false; true] [] [false])))
      = repaired_and_merged ++ [ERemoveFailed 0]
   /\ tmp (os (snd (run (start_with [false; true] [] [false])))) = [1; 0])
  /\ (fst (run (start_with [false; true] [] [true; false])) = Ok false
      /\ new_events (start_with [false; true] [] [true; false])
           (snd (run (start_with [false; true] [] [true; false])))
         = repaired_and_merged ++ [ERemove 0; ERemoveFailed 1]
      /\ tmp (os (snd (run (start_with [false; true] [] [true; false])))) = [1])
  /\ attempts (repaired_and_merged ++ [ERemoveFailed 0]) = 1.
Proof. cbv zeta. repeat split; vm_compute; reflexivity. Qed.

End OrchestratorProofs.

(** ** The repair of a file on disk *)

Module RepairFileProofs.

Import Repair RepairProofs RepairFile.

Lemma patch3_app a b :
  3 < length a -> patch3 (a ++ b) = patch3 a ++ b.
Proof.
  intros H. unfold patch3.
  assert (E1 : (3 <? length (a ++ b)) = true)
    by (apply Nat.ltb_lt; rewrite length_app; lia).
  assert (E2 : (3 <? length a) = true) by now apply Nat.ltb_lt.
  rewrite E1, E2, firstn_app, skipn_app.
  replace (3 - length a) with 0 by lia. replace (4 - length a) with 0 by lia.
  cbn [firstn skipn]. now rewrite app_nil_r, <- app_assoc.
Qed.

Lemma has_brand_app a b :
  20 <= length a -> has_brand (a ++ b) = has_brand a.
Proof.
  intros H. unfold has_brand. rewrite skipn_app, firstn_app.
  replace (16 - length a) with 0 by lia.
  replace (4 - length (skipn 16 a)) with 0 by (rewrite length_skipn; lia).
  cbn [firstn skipn]. now rewrite app_nil_r.
Qed.

Lemma strip_brand_app a b :
  20 <= length a -> strip_brand (a ++ b) = strip_brand a ++ b.
Proof.
  intros H. unfold strip_brand. rewrite has_brand_app by assumption.
  assert (E1 : (20 <=? length (a ++ b)) = true)
    by (apply Nat.leb_le; rewrite length_app; lia).
  assert (E2 : (20 <=? length a) = true) by now apply Nat.leb_le.
  rewrite E1, E2. destruct (has_brand a); cbn [negb andb]; [reflexivity|].
  rewrite firstn_app, skipn_app.
  replace (16 - length a) with 0 by lia. replace (20 - length a) with 0 by lia.
  cbn [firstn skipn]. now rewrite app_nil_r, <- app_assoc.
Qed.

Lemma repair_chunk_app a b :
  20 <= length a -> repair_chunk (a ++ b) = repair_chunk a ++ b.
Proof.
  intros H. unfold repair_chunk. rewrite patch3_app by lia.
  apply strip_brand_app. rewrite patch3_length. exact H.
Qed.

Lemma repaired_of_file content :
  repaired (of_file content) = file_repaired content.
Proof.
  unfold repaired, file_repaired, first_chunk, of_file, chunk, rest_after.
  destruct (length content <=? 1024) eqn:E.
  - apply Nat.leb_le in E. rewrite firstn_all2 by exact E.
    destruct content as [|b c]; [reflexivity|].
    cbn [delivered chunk]. rewrite !app_nil_r. reflexivity.
  - apply Nat.leb_gt in E.
    assert (L : length (firstn 1024 content) = 1024)
      by (rewrite length_firstn; lia).
    destruct (firstn 1024 content) as [|b c] eqn:Ef; [simpl in L; lia|].
    rewrite <- Ef in L |- *.
    assert (E9 : (9 <=? length (firstn 1024 content)) = true)
      by (apply Nat.leb_le; lia).
    assert (E9' : (9 <=? length content) = true) by (apply Nat.leb_le; lia).
    rewrite E9, E9'.
    assert (D : delivered [Data (skipn 1024 content)] = skipn 1024 content).
    { destruct (skipn 1024 content) eqn:Es; [reflexivity|].
      cbn [delivered]. now rewrite app_nil_r. }
    rewrite D.
    rewrite <- (firstn_skipn 1024 content) at 3.
    rewrite skipn_app. replace (9 - length (firstn 1024 content)) with 0 by lia.
    rewrite skipn_O. symmetry. apply repair_chunk_app.
    rewrite length_skipn. lia.
Qed.

(** X1.  For a file on disk, a repair that succeeds writes the content
    unchanged when the file has fewer than 9 bytes, and otherwise the
    content after its first 9 bytes with the header patch applied once
    (byte 3 set to a space, bytes 16-19 removed unless they are the brand):
    where the 1024-byte and 4096-byte reads fall makes no difference. *)
Theorem file_repair_closed_form content room lc :
  returned (decode_bilibili_m4s (Some (of_file content)) (Some room) lc) = true ->
  output (decode_bilibili_m4s (Some (of_file content)) (Some room) lc)
  = Some (file_repaired content).
Proof.
  intros H. destruct (decode_spec (of_file content) room lc) as [_ K].
  destruct (K H) as [Ho _]. rewrite Ho. now rewrite repaired_of_file.
Qed.

Lemma file_repair_closed_form_witness :
  output (decode_bilibili_m4s (Some (of_file (repeat x41 3000))) (Some None) true)
  = Some (file_repaired (repeat x41 3000)).
Proof.
  apply (file_repair_closed_form (repeat x41 3000) None true).
  vm_compute. reflexivity.
Defined.

Lemma nth_patch3 d i :
  i <> 3 -> nth_error (patch3 d) i = nth_error d i.
Proof.
  intros H. unfold patch3. destruct (3 <? length d) eqn:E; [|reflexivity].
  apply Nat.ltb_lt in E.
  do 4 (destruct d as [|? d]; [simpl in E; lia|]).
  do 4 (destruct i as [|i]; [try reflexivity; congruence|]). reflexivity.
Qed.

Lemma nth_patch3_3 d : 3 < length d -> nth_error (patch3 d) 3 = Some x20.
Proof.
  intros H. unfold patch3.
  assert (E : (3 <? length d) = true) by now apply Nat.ltb_lt.
  rewrite E. do 4 (destruct d as [|? d]; [simpl in H; lia|]). reflexivity.
Qed.

Lemma nth_strip_brand d i :
  i < 16 -> nth_error (strip_brand d) i = nth_error d i.
Proof.
  intros H. unfold strip_brand.
  destruct ((20 <=? length d) && negb (has_brand d)) eqn:E; [|reflexivity].
  apply andb_true_iff in E as [E _]. apply Nat.leb_le in E.
  rewrite nth_error_app1 by (rewrite length_firstn; lia).
  rewrite nth_error_firstn.
  assert (T : (i <? 16) = true) by now apply Nat.ltb_lt.
  now rewrite T.
Qed.

(** X2.  After a successful repair of a file of at least 9 bytes, each of
    the first 16 output bytes other than byte 3 is the input byte 9 places
    further on, and byte 3 is a space as soon as the input has 13 bytes. *)
Theorem header_bytes_after_repair content room lc out :
  returned (decode_bilibili_m4s (Some (of_file content)) (Some room) lc) = true ->
  output (decode_bilibili_m4s (Some (of_file content)) (Some room) lc) = Some out ->
  9 <= length content ->
  (forall i, i < 16 -> i <> 3 -> nth_error out i = nth_error content (9 + i))
  /\ (13 <= length content -> nth_error out 3 = Some x20).
Proof.
  intros Hr Ho H9.
  destruct (decode_spec (of_file content) room lc) as [_ K].
  destruct (K Hr) as [Ho' _]. rewrite Ho', repaired_of_file in Ho.
  injection Ho as <-. unfold file_repaired.
  assert (E : (9 <=? length content) = true) by now apply Nat.leb_le.
  rewrite E. unfold repair_chunk. split.
  - intros i Hi Hn. rewrite nth_strip_brand, nth_patch3 by assumption.
    apply nth_error_skipn.
  - intros H13. rewrite nth_strip_brand by lia. apply nth_patch3_3.
    rewrite length_skipn. lia.
Qed.

Lemma header_bytes_after_repair_witness :
  (forall i, i < 16 -> i <> 3 ->
     nth_error (file_repaired (repeat x41 40)) i
     = nth_error (repeat x41 40) (9 + i))
  /\ (13 <= length (repeat x41 40) ->
      nth_error (file_repaired (repeat x41 40)) 3 = Some x20).
Proof.
  apply (header_bytes_after_repair (repeat x41 40) None true).
  - vm_compute. reflexivity.
  - vm_compute. reflexivity.
  - vm_compute. lia.
Defined.

Lemma delivered_no_chunk n s : 0 < n -> chunk n s = [] -> delivered s = [].
Proof.
  intros Hn H. destruct s as [|[[|b bs]|] rest]; try reflexivity.
  destruct n; [lia|]. discriminate.
Qed.

Lemma repair_chunk_bounds d :
  length d - 4 <= length (repair_chunk d) <= length d.
Proof.
  rewrite repair_chunk_length.
  destruct ((20 <=? length d) && negb (has_brand d)); lia.
Qed.

(** X3.  Whatever the reads deliver, a successful repair writes at most
    as many bytes as it read and at most 13 fewer. *)
Theorem output_length_bounds s room lc out :
  returned (decode_bilibili_m4s (Some s) (Some room) lc) = true ->
  output (decode_bilibili_m4s (Some s) (Some room) lc) = Some out ->
  length (delivered s) - 13 <= length out <= length (delivered s).
Proof.
  intros Hr Ho. destruct (decode_spec s room lc) as [_ K].
  destruct (K Hr) as [E _]. rewrite E in Ho. injection Ho as <-.
  unfold repaired, first_chunk.
  destruct (chunk 1024 s) as [|b c] eqn:Ec.
  - rewrite (delivered_no_chunk 1024 s) by (assumption || lia). simpl. lia.
  - rewrite (@delivered_chunk 1024 s) by (lia || congruence). rewrite Ec.
    destruct (9 <=? length (b :: c)) eqn:E9.
    + apply Nat.leb_le in E9. rewrite !length_app.
      pose proof (repair_chunk_bounds (skipn 9 (b :: c))) as B.
      rewrite length_skipn in B. lia.
    + set (s1 := rest_after 1024 s).
      destruct (chunk 4096 s1) as [|b2 c2] eqn:Ec2.
      * rewrite (delivered_no_chunk 4096 s1) by (assumption || lia).
        rewrite !length_app. simpl. lia.
      * rewrite (@delivered_chunk 4096 s1) by (lia || congruence). rewrite Ec2.
        rewrite !length_app.
        pose proof (repair_chunk_bounds (b2 :: c2)) as B. lia.
Qed.

Lemma output_length_bounds_witness :
  length (delivered [Data (repeat x41 5); Data (repeat x41 30)]) - 13
  <= length (repeat x41 5 ++ repair_chunk (repeat x41 30))
  <= length (delivered [Data (repeat x41 5); Data (repeat x41 30)]).
Proof.
  apply (output_length_bounds
           [Data (repeat x41 5); Data (repeat x41 30)] None true).
  - vm_compute. reflexivity.
  - vm_compute. reflexivity.
Defined.

Lemma chunk_notes_are_notes d : forallb is_note (chunk_notes d) = true.
Proof.
  unfold chunk_notes.
  destruct (3 <? length d), (20 <=? length d), (has_brand d), (16 <? length d);
    reflexivity.
Qed.

Lemma log_read n s : log (snd (read n s)) = log s.
Proof.
  unfold read. destruct (fin s) as [|[bs|] rest]; try reflexivity.
  destruct (length bs <=? n); reflexivity.
Qed.

Lemma log_write d s : log (snd (write d s)) = log s.
Proof.
  unfold write. destruct (room (fout s)) as [r|]; [|reflexivity].
  destruct (length d <=? r); reflexivity.
Qed.

Lemma grows_refl lc s s' : log s' = log s -> grows lc s s'.
Proof. intros H. exists []. rewrite app_nil_r. auto. Qed.

Lemma grows_trans lc s1 s2 s3 : grows lc s1 s2 -> grows lc s2 s3 -> grows lc s1 s3.
Proof.
  intros (l1 & A1 & A2 & A3) (l2 & B1 & B2 & B3). exists (l1 ++ l2).
  rewrite B1, A1, app_assoc, forallb_app, A2, B2. repeat split.
  intros H. now rewrite A3, B3.
Qed.

Lemma grows_add_log lc s l :
  forallb is_note l = true -> grows lc s (add_log lc s l).
Proof.
  intros H. destruct lc.
  - exists l. repeat split; auto. discriminate.
  - exists []. simpl. rewrite app_nil_r. auto.
Qed.

Lemma grows_patch_and_write lc d s :
  grows lc s (snd (patch_and_write lc d s)).
Proof.
  rewrite patch_and_write_eq.
  eapply grows_trans; [apply grows_add_log, chunk_notes_are_notes|].
  apply grows_refl, log_write.
Qed.

Lemma grows_copy lc fuel : forall s, grows lc s (snd (loop lc fuel true s)).
Proof.
  induction fuel as [|fuel IH]; intros s; [now apply grows_refl|].
  cbn [loop negb]. unfold bind at 1.
  pose proof (log_read 4096 s) as R.
  destruct (read 4096 s) as [[[|b c]|e|] s1]; cbn [snd] in *;
    try (now apply grows_refl).
  unfold bind. pose proof (log_write (b :: c) s1) as W.
  destruct (write (b :: c) s1) as [[u|e|] s2]; cbn [snd] in *;
    try (apply grows_refl; congruence).
  apply grows_trans with s2; [apply grows_refl; congruence|apply IH].
Qed.

Lemma grows_chunk lc fuel d s :
  grows lc s (snd ((patch_and_write lc d ;;; loop lc fuel true) s)).
Proof.
  unfold bind. pose proof (grows_patch_and_write lc d s) as P.
  destruct (patch_and_write lc d s) as [[u|e|] s1]; cbn [snd] in *; auto.
  eapply grows_trans; [exact P|apply grows_copy].
Qed.

Lemma grows_loop lc fuel s : grows lc s (snd (loop lc fuel false s)).
Proof.
  destruct fuel as [|fuel]; [now apply grows_refl|].
  cbn [loop negb]. unfold bind at 1.
  pose proof (log_read 1024 s) as R.
  destruct (read 1024 s) as [[[|b c]|e|] s1]; cbn [snd] in *;
    try (now apply grows_refl).
  destruct (9 <=? length (b :: c)).
  - eapply grows_trans; [apply grows_refl; exact R|apply grows_chunk].
  - unfold bind at 1. rewrite emit_eq.
    eapply grows_trans; [apply grows_refl; exact R|].
    apply grows_trans with (add_log lc s1 [(MHeaderTooShort, warning)]);
      [apply grows_add_log; reflexivity|].
    set (s2 := add_log lc s1 [(MHeaderTooShort, warning)]).
    unfold bind at 1. pose proof (log_write (b :: c) s2) as W.
    destruct (write (b :: c) s2) as [[u|e|] s3]; cbn [snd] in *;
      try (now apply grows_refl).
    eapply grows_trans; [apply grows_refl; exact W|].
    unfold bind at 1. pose proof (log_read 4096 s3) as R2.
    destruct (read 4096 s3) as [[[|b2 c2]|e|] s4]; cbn [snd] in *;
      try (now apply grows_refl).
    eapply grows_trans; [apply grows_refl; exact R2|apply grows_chunk].
Qed.

(** X4.  With a log callback the log of a run is the start message, then
    information and warning entries only, then one closing entry: success
    when the function returns [True], error when it returns [False].
    Without a callback nothing is logged.  This holds for every input,
    also one that cannot be opened. *)
Theorem log_shape input room lc :
  let o := decode_bilibili_m4s input room lc in
  exists notes,
    forallb is_note notes = true
    /\ logged o = if lc
                  then (MStart, info) :: notes ++ [verdict (returned o)]
                  else [].
Proof.
  cbv zeta. unfold decode_bilibili_m4s.
  destruct input as [s|];
    [|exists []; split; [reflexivity|destruct lc; reflexivity]].
  destruct room as [r|];
    [|exists []; split; [reflexivity|destruct lc; reflexivity]].
  set (s0 := {| fin := s; fout := {| written := []; room := r |};
                log := say lc [] MStart info |}).
  destruct (grows_loop lc (S (S (stream_size s))) s0) as (l & H1 & H2 & H3).
  exists l. split; [exact H2|].
  destruct (loop lc (S (S (stream_size s))) false s0) as [[u|e|] s1];
    cbn [snd returned logged] in *; rewrite H1;
    destruct lc; try reflexivity; cbn [say s0 log];
    try (rewrite H3 by reflexivity; reflexivity).
Qed.

End RepairFileProofs.

(** ** More on sanitized names *)

Module SanitizeMoreProofs.

Import Sanitize SanitizeProofs SanitizeMore.

Lemma illegal_not_space c : illegal c = true -> is_space c = false.
Proof.
  unfold illegal. cbn [existsb]. rewrite !orb_true_iff.
  intros H. repeat destruct H as [H|H]; try discriminate;
    apply N.eqb_eq in H; subst; reflexivity.
Qed.

Lemma has_ink_replace s : has_ink (replace_illegal s) = has_ink s.
Proof.
  unfold has_ink, replace_illegal. induction s as [|c s IH]; [reflexivity|].
  cbn [map existsb]. rewrite IH. f_equal.
  destruct (illegal c) eqn:E; [|reflexivity].
  now rewrite (illegal_not_space c E).
Qed.

Lemma has_ink_collapse b s : has_ink (collapse_from b s) = has_ink s.
Proof.
  unfold has_ink. revert b. induction s as [|c s IH]; intros b; [reflexivity|].
  cbn [collapse_from existsb]. destruct (is_space c) eqn:E.
  - destruct b; cbn [negb orb existsb]; [apply IH|].
    change (is_space space) with true. cbn [negb orb]. apply IH.
  - cbn [existsb]. rewrite E, IH. reflexivity.
Qed.

Lemma has_ink_lstrip s : has_ink (lstrip s) = has_ink s.
Proof.
  unfold has_ink. induction s as [|c s IH]; [reflexivity|].
  cbn [lstrip existsb]. destruct (is_space c) eqn:E; [exact IH|].
  cbn [existsb]. now rewrite E.
Qed.

Lemma lstrip_nil s : lstrip s = [] <-> has_ink s = false.
Proof.
  unfold has_ink. induction s as [|c s IH]; [split; reflexivity|].
  cbn [lstrip existsb]. destruct (is_space c) eqn:E; cbn [negb orb].
  - exact IH.
  - split; discriminate.
Qed.

Lemma has_ink_rev s : has_ink (rev s) = has_ink s.
Proof.
  unfold has_ink. induction s as [|c s IH]; [reflexivity|].
  cbn [rev existsb]. rewrite existsb_app, IH. cbn [existsb].
  rewrite orb_false_r. apply orb_comm.
Qed.

Lemma strip_nil s : strip s = [] <-> has_ink s = false.
Proof.
  unfold strip, rstrip. rewrite <- (has_ink_lstrip s), <- (has_ink_rev (lstrip s)).
  rewrite <- lstrip_nil. split; intros H.
  - apply (f_equal (@rev N)) in H. now rewrite rev_involutive in H.
  - now rewrite H.
Qed.

Lemma sanitize_nil_iff_no_ink filename :
  sanitize_filename filename = [] <-> has_ink filename = false.
Proof.
  unfold sanitize_filename, normalized.
  rewrite <- (has_ink_replace filename),
    <- (has_ink_collapse false (replace_illegal filename)), <- strip_nil.
  fold (collapse_whitespace (replace_illegal filename)).
  destruct (strip (collapse_whitespace (replace_illegal filename)));
    split; try reflexivity; discriminate.
Qed.

(** X5.  The sanitized name is empty exactly when the name consists of
    whitespace only (the empty name included). *)
Theorem sanitized_empty_iff_blank filename :
  sanitize_filename filename = [] <-> forallb is_space filename = true.
Proof.
  rewrite sanitize_nil_iff_no_ink.
  unfold has_ink. induction filename as [|c s IH]; [split; reflexivity|].
  cbn [existsb forallb]. destruct (is_space c); cbn [negb orb andb];
    [exact IH|split; discriminate].
Qed.

Lemma replace_illegal_id l : Forall legal l -> replace_illegal l = l.
Proof.
  unfold replace_illegal. induction 1 as [|c l Hc _ IH]; [reflexivity|].
  cbn [map]. rewrite IH. unfold legal in Hc. now rewrite Hc.
Qed.

Lemma collapse_from_id l : forall b,
  spaced_ok b l = true -> collapse_from b l = l.
Proof.
  induction l as [|c l IH]; intros b H; [reflexivity|].
  cbn [spaced_ok collapse_from] in *. destruct (is_space c).
  - apply andb_true_iff in H as [H H3]. apply andb_true_iff in H as [H1 H2].
    destruct b; [discriminate|]. apply N.eqb_eq in H2. subst c.
    now rewrite IH.
  - now rewrite IH.
Qed.

Lemma lstrip_id l : starts_clean l -> lstrip l = l.
Proof.
  destruct l as [|c l]; [reflexivity|]. cbn [starts_clean lstrip].
  intros H. now rewrite H.
Qed.

Lemma rstrip_length l : length (rstrip l) <= length l.
Proof.
  destruct (rstrip_firstn l) as [j E]. rewrite E, length_firstn. lia.
Qed.

Lemma lstrip_length l : length (lstrip l) <= length l.
Proof.
  destruct (lstrip_skipn l) as [k E]. rewrite E, length_skipn. lia.
Qed.

Lemma collapse_from_length b l : length (collapse_from b l) <= length l.
Proof.
  revert b. induction l as [|c l IH]; intros b; [reflexivity|].
  cbn [collapse_from]. destruct (is_space c); [destruct b|]; cbn [length].
  - specialize (IH true). lia.
  - specialize (IH true). lia.
  - specialize (IH false). lia.
Qed.

(** X6.  Sanitizing never lengthens a name. *)
Theorem sanitize_never_longer filename :
  length (sanitize_filename filename) <= length filename.
Proof.
  unfold sanitize_filename, normalized, strip, collapse_whitespace.
  rewrite length_firstn.
  pose proof (rstrip_length
                (lstrip (collapse_from false (replace_illegal filename)))) as A.
  pose proof (lstrip_length (collapse_from false (replace_illegal filename))) as B.
  pose proof (collapse_from_length false (replace_illegal filename)) as C.
  unfold replace_illegal in C at 2. rewrite length_map in C. lia.
Qed.

(** the facts about a sanitized name that make a second pass simple *)
Lemma sanitized_shape filename :
  let r := sanitize_filename filename in
  Forall legal r /\ spaced_ok false r = true /\ starts_clean r
  /\ length r <= 150.
Proof.
  cbv zeta. unfold sanitize_filename, normalized.
  set (c := collapse_whitespace (replace_illegal filename)).
  assert (Hl : Forall legal c)
    by apply collapse_from_legal, replace_illegal_legal.
  assert (Hs : spaced_ok false c = true) by apply collapse_from_spaced.
  destruct (strip_segment c) as (k & j & E).
  split; [|split; [|split]].
  - rewrite E. now apply Forall_firstn, Forall_firstn, Forall_skipn.
  - rewrite E. apply spaced_ok_firstn, spaced_ok_firstn.
    eapply spaced_ok_skipn; eauto.
  - apply (firstn_head (fun c => is_space c = false)).
    unfold strip. apply rstrip_head, lstrip_head.
  - rewrite length_firstn. lia.
Qed.

Lemma second_pass r :
  Forall legal r -> spaced_ok false r = true -> starts_clean r ->
  length r <= 150 ->
  sanitize_filename r = rstrip r.
Proof.
  intros Hl Hs Hh Hn. unfold sanitize_filename, normalized, collapse_whitespace.
  rewrite replace_illegal_id, collapse_from_id by assumption.
  unfold strip. rewrite lstrip_id by assumption.
  apply firstn_all2. pose proof (rstrip_length r). lia.
Qed.

Lemma rstrip_id l :
  match rev l with c :: _ => is_space c = false | [] => True end ->
  rstrip l = l.
Proof.
  intros H. unfold rstrip. rewrite lstrip_id; [apply rev_involutive|exact H].
Qed.

(** X7.  Sanitizing a sanitized name only trims a trailing space, which
    the cut at 150 can leave; when the cut does not apply, sanitizing is
    idempotent. *)
Theorem sanitize_twice filename :
  sanitize_filename (sanitize_filename filename)
  = rstrip (sanitize_filename filename)
  /\ (length (normalized filename) <= 150 ->
      sanitize_filename (sanitize_filename filename)
      = sanitize_filename filename).
Proof.
  destruct (sanitized_shape filename) as (Hl & Hs & Hh & Hn).
  split; [now apply second_pass|].
  intros H. rewrite second_pass by assumption.
  apply rstrip_id. unfold sanitize_filename. rewrite firstn_all2 by exact H.
  unfold normalized, strip. apply rstrip_last.
Qed.

Lemma sanitize_twice_witness :
  sanitize_filename (sanitize_filename (str " a  b:c "))
  = sanitize_filename (str " a  b:c ").
Proof.
  apply (proj2 (sanitize_twice (str " a  b:c "))). vm_compute. lia.
Defined.

(** X8.  A name of at most 150 characters with no illegal character and
    no whitespace is returned as it is. *)
Theorem clean_name_unchanged filename :
  Forall legal filename ->
  forallb (fun c => negb (is_space c)) filename = true ->
  length filename <= 150 ->
  sanitize_filename filename = filename.
Proof.
  intros Hl Hn Hlen.
  assert (Hs : forall b, spaced_ok b filename = true).
  { clear Hl Hlen. induction filename as [|c l IH]; intros b; [reflexivity|].
    cbn [forallb spaced_ok] in *. apply andb_true_iff in Hn as [H1 H2].
    destruct (is_space c); [discriminate|]. now apply IH. }
  assert (Hh : starts_clean filename).
  { destruct filename as [|c l]; [exact I|]. cbn [forallb starts_clean] in *.
    apply andb_true_iff in Hn as [H1 _]. now destruct (is_space c). }
  rewrite second_pass by auto. apply rstrip_id.
  assert (Hr : forallb (fun c => negb (is_space c)) (rev filename) = true).
  { rewrite forallb_forall in *. intros x Hx. apply Hn. now apply in_rev. }
  destruct (rev filename) as [|c l]; [exact I|]. cbn [forallb] in Hr.
  apply andb_true_iff in Hr as [H1 _]. now destruct (is_space c).
Qed.

Lemma clean_name_unchanged_witness :
  sanitize_filename (str "Episode_01-final") = str "Episode_01-final".
Proof.
  apply (clean_name_unchanged (str "Episode_01-final")).
  - apply Forall_forall. intros c Hc. unfold legal.
    assert (A : forallb (fun c => negb (illegal c)) (str "Episode_01-final") = true)
      by reflexivity.
    rewrite forallb_forall in A. specialize (A c Hc). now destruct (illegal c).
  - reflexivity.
  - vm_compute. lia.
Defined.

End SanitizeMoreProofs.

(** ** Titles: the name of the output and the name shown *)

Module TitleMoreProofs.

Import Sanitize SanitizeProofs SanitizeMore SanitizeMoreProofs Title Display.

Lemma literal_legal l :
  forallb (fun c => negb (illegal c)) l = true -> Forall legal l.
Proof.
  intros H. apply Forall_forall. intros c Hc. rewrite forallb_forall in H.
  specialize (H c Hc). unfold legal. now destruct (illegal c).
Qed.

(** X9.  Whenever a title is chosen for the output file it is not empty,
    has at most 150 characters and holds no character that is illegal in a
    file name, whichever branch it came from (descriptor, folder name or
    one of the two fixed names). *)
Theorem chosen_title_is_a_file_name repr st loaded folder_basename t :
  choose_title repr st loaded folder_basename = Some t ->
  t <> [] /\ length t <= 150 /\ Forall legal t.
Proof.
  unfold choose_title.
  destruct (rbind loaded _) as [video_title| |]; try discriminate.
  pose proof (sanitized_shape (py_str repr video_title)) as (A1 & _ & _ & A2).
  destruct (sanitize_filename (py_str repr video_title)) as [|c l] eqn:E1.
  - pose proof (sanitized_shape folder_basename) as (B1 & _ & _ & B2).
    destruct (sanitize_filename folder_basename) as [|c l] eqn:E2;
      intros H; injection H as <-.
    + split; [discriminate|]. split; [vm_compute; lia|].
      apply literal_legal. reflexivity.
    + split; [discriminate|]. auto.
  - intros H. injection H as <-. split; [discriminate|]. auto.
Qed.

Lemma chosen_title_is_a_file_name_witness :
  str "clip" <> [] /\ length (str "clip") <= 150 /\ Forall legal (str "clip").
Proof.
  apply (chosen_title_is_a_file_name no_repr mobile
           (Ok (JObj [(str "title", JStr (str "clip"))])) (str "folder")).
  reflexivity.
Defined.

(** X10.  For a recognised layout, a descriptor that cannot be read or
    parsed, or that parses to null, a boolean or a number, yields no title:
    the folder is given up (line 807) and no fallback name is used. *)
Theorem unusable_descriptor_fails repr st folder_basename :
  st <> unknown ->
  (forall e, choose_title repr st (Raise e) folder_basename = None)
  /\ choose_title repr st (Ok JNull) folder_basename = None
  /\ (forall b, choose_title repr st (Ok (JBool b)) folder_basename = None)
  /\ (forall n, choose_title repr st (Ok (JNum n)) folder_basename = None).
Proof.
  intros H. destruct st; [| |congruence]; repeat split.
Qed.

Lemma unusable_descriptor_fails_witness :
  choose_title no_repr pc (Ok JNull) (str "folder") = None.
Proof.
  apply (unusable_descriptor_fails no_repr pc (str "folder")). discriminate.
Defined.

Lemma lookup_title_probe st members t :
  st <> unknown ->
  lookup_member (str "title") members = Some (JStr t) -> t <> [] ->
  probe st (JObj members) = Ok (Some (JStr t)).
Proof.
  intros Hs Hl Ht.
  assert (C : present_and_truthy (str "title") (JObj members) = Ok true).
  { unfold present_and_truthy, py_in, py_getitem. rewrite Hl. cbn [rbind truthy].
    destruct t; [congruence|reflexivity]. }
  assert (G : py_getitem (JObj members) (str "title") = Ok (JStr t)).
  { unfold py_getitem. now rewrite Hl. }
  destruct st; [| |congruence]; unfold probe; rewrite C; cbn [rbind];
    rewrite G; reflexivity.
Qed.

(** X11.  When the descriptor is an object whose [title] is a string
    with a character other than whitespace, that string decides both
    names: the output file is named after its sanitized form, and the list
    shows its first [limit] characters; the other keys are not consulted. *)
Theorem top_level_title_wins repr limit st members t folder_basename :
  st <> unknown ->
  lookup_member (str "title") members = Some (JStr t) ->
  has_ink t = true ->
  choose_title repr st (Ok (JObj members)) folder_basename
  = Some (sanitize_filename t)
  /\ get_folder_title limit true (Ok (JObj members)) st
     = JStr (firstn limit t).
Proof.
  intros Hs Hl Hi.
  assert (Ht : t <> []) by (intros ->; discriminate).
  split.
  - unfold choose_title. cbn [rbind].
    rewrite (lookup_title_probe st members t Hs Hl Ht). cbn [rbind py_str].
    destruct (sanitize_filename t) eqn:E; [|reflexivity].
    apply sanitize_nil_iff_no_ink in E. congruence.
  - unfold get_folder_title. cbn [negb rbind].
    assert (G : py_get (JObj members) (str "title") = Ok (JStr t)).
    { unfold py_get. now rewrite Hl. }
    assert (T : truthy (JStr t) = true) by (destruct t; [congruence|reflexivity]).
    destruct st; [| |congruence]; unfold find_title; rewrite G; cbn [rbind];
      unfold or_nested, or_member;
      repeat (rewrite ?T; cbn [negb rbind py_slice]); reflexivity.
Qed.

Lemma top_level_title_wins_witness :
  choose_title no_repr pc
    (Ok (JObj [(str "videoName", JStr (str "other"));
               (str "title", JStr (str "My: clip"))])) (str "folder")
  = Some (sanitize_filename (str "My: clip"))
  /\ get_folder_title 30 true
       (Ok (JObj [(str "videoName", JStr (str "other"));
                  (str "title", JStr (str "My: clip"))])) pc
     = JStr (firstn 30 (str "My: clip")).
Proof.
  apply (top_level_title_wins no_repr 30 pc
           [(str "videoName", JStr (str "other"));
            (str "title", JStr (str "My: clip"))] (str "My: clip") (str "folder")).
  - discriminate.
  - reflexivity.
  - reflexivity.
Defined.

(** X12.  A string shown as the title of a folder is never empty and has
    at most [limit] characters (50 in the dialog, 30 in the main window);
    the fixed text for an unknown title has 4. *)
Theorem shown_title_is_short limit json_exists loaded st s :
  4 <= limit ->
  get_folder_title limit json_exists loaded st = JStr s ->
  s <> [] /\ length s <= limit.
Proof.
  intros Hl. unfold get_folder_title.
  assert (U : unknown_title <> [] /\ length unknown_title <= limit)
    by (split; [discriminate|simpl; lia]).
  destruct (negb json_exists); [intros H; injection H as <-; exact U|].
  destruct (rbind loaded _) as [[t|]| |] eqn:E;
    try (intros H; injection H as <-; exact U).
  intros ->.
  destruct loaded as [data| |]; cbn [rbind] in E; try discriminate.
  unfold find_title in E.
  destruct (match st with pc => _ | mobile => _ | unknown => _ end)
    as [title| |]; cbn [rbind] in E; try discriminate.
  destruct (truthy title) eqn:T; [|discriminate].
  destruct title as [| | |x|x|x]; cbn [py_slice rbind] in E; try discriminate.
  injection E as <-. destruct x as [|c x]; [discriminate|].
  split; [destruct limit; [lia|discriminate]|].
  rewrite length_firstn. lia.
Qed.

Lemma shown_title_is_short_witness :
  firstn 4 (str "My: clip") <> [] /\ length (firstn 4 (str "My: clip")) <= 4.
Proof.
  apply (shown_title_is_short 4 true
           (Ok (JObj [(str "title", JStr (str "My: clip"))])) mobile).
  - lia.
  - reflexivity.
Defined.

End TitleMoreProofs.

(** ** More on layout detection *)

Module DetectMoreProofs.

Import FS Detect DetectProofs DetectMore.

(** X13.  The loop over the entries of the [c_] folder returns the first
    entry, in listing order, that is a directory which can be listed and
    holds at least two fragment files; entries after it are not looked at,
    and with no such entry the layout is not recognised. *)
Theorem fragment_dir_is_first_match fs c e c_items :
  scan fs c e c_items
  = match find (qualifies fs c) c_items with
    | Some item => (mobile, Some (join c item), Some e)
    | None => not_recognised
    end.
Proof.
  induction c_items as [|item rest IH]; [reflexivity|].
  cbn [scan find]. unfold qualifies at 1.
  destruct (isdir fs (join c item)); cbn [andb]; [|exact IH].
  destruct (listdir fs (join c item)) as [subs| |]; try exact IH.
  destruct (2 <=? length (filter is_m4s subs)); [reflexivity|exact IH].
Qed.

(** X14.  Detection depends on the folder itself only: the verdict for
    a folder inside a larger tree is the verdict for the folder taken alone,
    with the returned paths placed under the folder. *)
Theorem detection_sees_only_the_folder fs n folder :
  lookup folder fs = Some n ->
  detect_folder_structure fs folder
  = shift folder (detect_folder_structure n []).
Proof. apply detect_at. Qed.

Lemma detection_sees_only_the_folder_witness :
  detect_folder_structure
    (Dir None true [(str "downloads", mobile_example)]) [str "downloads"]
  = shift [str "downloads"] (detect_folder_structure mobile_example []).
Proof.
  apply (detection_sees_only_the_folder
           (Dir None true [(str "downloads", mobile_example)])
           mobile_example [str "downloads"]).
  reflexivity.
Defined.

(** X15.  A folder that cannot be listed is not recognised; without
    videoInfo.json, a folder with no [c_] directory is not recognised; and
    only the first [c_] directory is tried: when it has no entry.json or
    cannot be listed the folder is not recognised, whatever the other [c_]
    directories hold. *)
Theorem first_c_folder_decides fs folder :
  (forall e, listdir fs folder = Raise e ->
             detect_folder_structure fs folder = not_recognised)
  /\ (forall items c0 cs,
        listdir fs folder = Ok items ->
        ~ In videoInfo items ->
        filter (is_c_folder fs folder) items = c0 :: cs ->
        exists_ fs (join (join folder c0) (str "entry.json")) = false
        \/ (exists e, listdir fs (join folder c0) = Raise e) ->
        detect_folder_structure fs folder = not_recognised)
  /\ (forall items,
        listdir fs folder = Ok items ->
        ~ In videoInfo items ->
        filter (is_c_folder fs folder) items = [] ->
        detect_folder_structure fs folder = not_recognised).
Proof.
  unfold detect_folder_structure. split; [|split].
  - intros e H. now rewrite H.
  - intros items c0 cs Hl Hv Hf Hc. rewrite Hl.
    destruct (mem (str "videoInfo.json") items) eqn:Em;
      [apply mem_In in Em; contradiction|].
    unfold is_c_folder in Hf. rewrite Hf.
    destruct Hc as [Hc|[e Hc]]; rewrite Hc; [|reflexivity].
    now destruct (listdir fs (join folder c0)).
  - intros items Hl Hv Hf. rewrite Hl.
    destruct (mem (str "videoInfo.json") items) eqn:Em;
      [apply mem_In in Em; contradiction|].
    unfold is_c_folder in Hf. now rewrite Hf.
Qed.

Lemma first_c_folder_decides_witness :
  detect_folder_structure two_c_folders [] = not_recognised.
Proof.
  apply (proj1 (proj2 (first_c_folder_decides two_c_folders []))
           [str "c_0"; str "c_1"] (str "c_0") [str "c_1"]).
  - reflexivity.
  - intros [H|[H|[]]]; discriminate.
  - reflexivity.
  - left. reflexivity.
Defined.

End DetectMoreProofs.

(** ** More on track selection *)

Module TracksMoreProofs.

Import FS Tracks TracksProofs TracksMore.

Lemma of_size_insert n x l :
  of_size n (insert_desc x l) = of_size n (x :: l).
Proof.
  unfold of_size. induction l as [|y l IH]; [reflexivity|].
  cbn [insert_desc]. destruct (size y <=? size x)%N eqn:E; [reflexivity|].
  apply N.leb_gt in E. cbn [filter] in *. rewrite IH.
  destruct (size x =? n)%N eqn:Ex; [|reflexivity].
  apply N.eqb_eq in Ex.
  assert (Ey : (size y =? n)%N = false) by (apply N.eqb_neq; lia).
  now rewrite Ey.
Qed.

(** X16.  Sorting by size keeps fragments of equal size in listing
    order: for every size, the fragments of that size come in the same
    order before and after the sort. *)
Theorem sort_keeps_listing_order_of_ties n l :
  of_size n (sort_desc l) = of_size n l.
Proof.
  induction l as [|x l IH]; [reflexivity|].
  cbn [sort_desc]. rewrite of_size_insert. unfold of_size in *.
  cbn [filter]. now rewrite IH.
Qed.

Lemma select_some_inv m4s_files v a :
  select m4s_files = Some (v, a) ->
  In v m4s_files /\ In a m4s_files /\ (size a <= size v)%N.
Proof.
  intros H. unfold select in H.
  destruct (length m4s_files <? 2) eqn:E; [discriminate|].
  apply Nat.ltb_ge in E.
  destruct (select_some m4s_files E) as (v' & a' & others & E1 & _ & P & H1 & _).
  unfold select in E1. apply Nat.ltb_ge in E. rewrite E in E1.
  rewrite E1 in H. injection H as <- <-.
  repeat split; auto.
  - eapply Permutation_in; [symmetry; exact P|now left].
  - eapply Permutation_in; [symmetry; exact P|right; now left].
Qed.

(** X17.  The two tracks selected are entries of the media folder whose
    names end in .m4s (in any case), whose sizes are the ones
    [os.path.getsize] reports, and the audio track is not larger than the
    video track. *)
Theorem selected_tracks_are_fragments fs folder v a :
  disambiguate fs folder = Ok (Some (v, a)) ->
  is_fragment_of fs folder v /\ is_fragment_of fs folder a
  /\ (size a <= size v)%N.
Proof.
  unfold disambiguate. destruct (listdir fs folder) as [items| |]; try discriminate.
  intros H. injection H as H. apply select_some_inv in H as (Hv & Ha & Hs).
  apply collect_In in Hv as (iv & _ & V1 & V2 & V3).
  apply collect_In in Ha as (ia & _ & A1 & A2 & A3).
  unfold is_fragment_of. rewrite V3, A3. cbn [name path_ size].
  repeat split; auto.
Qed.

Lemma selected_tracks_are_fragments_witness :
  is_fragment_of equal_sizes []
    {| path_ := [str "first.m4s"]; size := 7; name := str "first.m4s" |}
  /\ is_fragment_of equal_sizes []
       {| path_ := [str "second.m4s"]; size := 7; name := str "second.m4s" |}
  /\ (7 <= 7)%N.
Proof.
  apply (selected_tracks_are_fragments equal_sizes []). reflexivity.
Defined.

End TracksMoreProofs.

(** ** More on the merge strategies *)

Module OrchestratorMoreProofs.

Import FS Tracks Orchestrator OrchestratorProofs OrchestratorMore.

Lemma keeps_refl s : keeps_files s s.
Proof. repeat split. Qed.

Lemma keeps_trans s1 s2 s3 :
  keeps_files s1 s2 -> keeps_files s2 s3 -> keeps_files s1 s3.
Proof.
  intros (A1 & A2 & A3 & A4) (B1 & B2 & B3 & B4). repeat split; congruence.
Qed.

Lemma close_cases id s :
  (exists s', close id s = (Raise OSError, s')
              /\ trace (os s') = trace (os s) /\ keeps_files s s')
  \/ (exists s', close id s = (Ok tt, s')
                 /\ trace (os s') = trace (os s) ++ [EClose id]
                 /\ keeps_files s s').
Proof.
  unfold close. destruct (close_plan (os s)) as [|[|] cp].
  - right. eexists. split; [reflexivity|]. repeat split.
  - right. eexists. split; [reflexivity|]. repeat split.
  - left. eexists. split; [reflexivity|]. repeat split.
Qed.

Lemma decode_cases fs src dst s :
  exists b s', decode fs src dst s = (Ok b, s')
               /\ trace (os s') = trace (os s) ++ [EDecode src dst b]
               /\ keeps_files s s'.
Proof. unfold decode. do 2 eexists. split; [reflexivity|]. repeat split. Qed.

Lemma ffmpeg_cases mk s :
  exists b s', run_ffmpeg mk s = (Ok b, s')
               /\ trace (os s') = trace (os s) ++ [mk b]
               /\ keeps_files s s'.
Proof. unfold run_ffmpeg. do 2 eexists. split; [reflexivity|]. repeat split. Qed.

(** closes a case of [tail_full] once the new events are known *)
Ltac tail_leaf evs :=
  unfold tail_post; exists evs; cbn [fst snd];
  split; [repeat match goal with H : trace _ = _ |- _ => rewrite H end;
          rewrite <- ?app_assoc, ?app_nil_r; reflexivity|];
  split; [eauto using keeps_trans, keeps_refl|];
  split; [repeat constructor|];
  split; [cbn; split; congruence|];
  split; [split;
          [intros t0 v0 a0 ok0 Hin; cbn in Hin;
           repeat (destruct Hin as [Hin|Hin]; try discriminate Hin);
           try contradiction;
           injection Hin as <- <- <- <-; cbn; rewrite ?Nat.eqb_refl, ?orb_true_r;
           split; reflexivity
          |cbn; congruence]
         |discriminate].

Lemma tail_full fs title v a tv ta s :
  tail_post s
    ((close ta ;;;
      ok_video <- decode fs (path_ v) tv ;;
      success_decoding <-
        (if ok_video then decode fs (path_ a) ta else ret false) ;;
      if success_decoding then run_ffmpeg (EMerge title tv ta) else ret false) s).
Proof.
  unfold bind at 1.
  destruct (close_cases ta s) as [(s1 & E & T1 & K1)|(s1 & E & T1 & K1)];
    rewrite E; cbv beta iota.
  { tail_leaf (@nil event). }
  unfold bind at 1.
  destruct (decode_cases fs (path_ v) tv s1) as (b1 & s2 & E2 & T2 & K2).
  rewrite E2. cbv beta iota. unfold bind at 1. destruct b1.
  - destruct (decode_cases fs (path_ a) ta s2) as (b2 & s3 & E3 & T3 & K3).
    rewrite E3. cbv beta iota. destruct b2.
    + destruct (ffmpeg_cases (EMerge title tv ta) s3) as (b3 & s4 & E4 & T4 & K4).
      rewrite E4. destruct b3.
      * tail_leaf [EClose ta; EDecode (path_ v) tv true; EDecode (path_ a) ta true;
                   EMerge title tv ta true].
      * tail_leaf [EClose ta; EDecode (path_ v) tv true; EDecode (path_ a) ta true;
                   EMerge title tv ta false].
    + unfold ret.
      tail_leaf [EClose ta; EDecode (path_ v) tv true; EDecode (path_ a) ta false].
  - unfold ret. tail_leaf [EClose ta; EDecode (path_ v) tv false].
Qed.

Lemma existsb_inert (p : event -> bool) pre evs post :
  (forall e, inert e = true -> p e = false) ->
  Forall (fun e => inert e = true) pre ->
  Forall (fun e => inert e = true) post ->
  existsb p (pre ++ evs ++ post) = existsb p evs.
Proof.
  intros Hp Hpre Hpost.
  assert (K : forall l, Forall (fun e => inert e = true) l -> existsb p l = false).
  { induction 1 as [|e l He _ IH]; [reflexivity|].
    cbn [existsb]. now rewrite (Hp e He), IH. }
  now rewrite !existsb_app, (K pre Hpre), (K post Hpost), orb_false_r.
Qed.

Lemma in_inert e pre evs post :
  inert e = false ->
  Forall (fun e => inert e = true) pre ->
  Forall (fun e => inert e = true) post ->
  In e (pre ++ evs ++ post) -> In e evs.
Proof.
  intros He Hpre Hpost Hin. rewrite Forall_forall in Hpre, Hpost.
  apply in_app_or in Hin as [Hin|Hin]; [apply Hpre in Hin; congruence|].
  apply in_app_or in Hin as [Hin|Hin]; [exact Hin|].
  apply Hpost in Hin. congruence.
Qed.

Lemma merges_follow_pad pre evs post :
  Forall (fun e => inert e = true) pre ->
  Forall (fun e => inert e = true) post ->
  merges_follow_repairs evs ->
  merges_follow_repairs (pre ++ evs ++ post).
Proof.
  intros Hpre Hpost [H1 H2]. split.
  - intros t v a ok Hin.
    apply in_inert in Hin; [|reflexivity|assumption..].
    destruct (H1 t v a ok Hin) as [A B]. unfold decoded_ok in *.
    rewrite !existsb_inert; auto; now intros [].
  - rewrite !existsb_inert; auto; now intros [].
Qed.

Lemma merge_ok_pad pre evs post :
  Forall (fun e => inert e = true) pre ->
  Forall (fun e => inert e = true) post ->
  existsb is_merge_ok (pre ++ evs ++ post) = existsb is_merge_ok evs.
Proof. intros. apply existsb_inert; auto. now intros []. Qed.

Lemma plain_is_quiet e : plain e = true -> quiet e = true.
Proof. now destruct e. Qed.

Lemma plain_removals_ok evs :
  Forall (fun e => plain e = true) evs -> removals_ok evs.
Proof.
  unfold removals_ok. induction 1 as [|e l He _ IH]; [reflexivity|].
  cbn [existsb]. rewrite IH. now destruct e.
Qed.

Lemma plain_not_mkstemp evs id :
  Forall (fun e => plain e = true) evs -> ~ In (EMkstemp id) evs.
Proof.
  intros H Hin. rewrite Forall_forall in H. apply H in Hin. discriminate.
Qed.

Lemma removals_ok_app a b :
  removals_ok (a ++ b) <-> removals_ok a /\ removals_ok b.
Proof. unfold removals_ok. rewrite existsb_app. apply orb_false_iff. Qed.

Lemma mkstemp_video_files s :
  (exists s', mkstemp_video s = (Raise OSError, s')
              /\ trace (os s') = trace (os s) /\ keeps_files s s')
  \/ (exists s', mkstemp_video s = (Ok (next_tmp (os s)), s')
                 /\ trace (os s') = trace (os s) ++ [EMkstemp (next_tmp (os s))]
                 /\ tmp (os s') = next_tmp (os s) :: tmp (os s)
                 /\ next_tmp (os s') = S (next_tmp (os s))
                 /\ temp_video_m4s s' = Some (next_tmp (os s))
                 /\ temp_audio_m4s s' = temp_audio_m4s s).
Proof.
  unfold mkstemp_video, mkstemp. destruct (mkstemp_plan (os s)) as [|[|] mp].
  - right. eexists. split; [reflexivity|]. repeat split.
  - right. eexists. split; [reflexivity|]. repeat split.
  - left. eexists. split; [reflexivity|]. repeat split.
Qed.

Lemma mkstemp_audio_files s :
  (exists s', mkstemp_audio s = (Raise OSError, s')
              /\ trace (os s') = trace (os s) /\ keeps_files s s')
  \/ (exists s', mkstemp_audio s = (Ok (next_tmp (os s)), s')
                 /\ trace (os s') = trace (os s) ++ [EMkstemp (next_tmp (os s))]
                 /\ tmp (os s') = next_tmp (os s) :: tmp (os s)
                 /\ next_tmp (os s') = S (next_tmp (os s))
                 /\ temp_video_m4s s' = temp_video_m4s s
                 /\ temp_audio_m4s s' = Some (next_tmp (os s))).
Proof.
  unfold mkstemp_audio, mkstemp. destruct (mkstemp_plan (os s)) as [|[|] mp].
  - right. eexists. split; [reflexivity|]. repeat split.
  - right. eexists. split; [reflexivity|]. repeat split.
  - left. eexists. split; [reflexivity|]. repeat split.
Qed.

(** closes a case of [body_full] that ends before the repairs *)
Ltac body_leaf evs held :=
  unfold body_files; exists evs, held; cbn [fst snd];
  repeat match goal with
         | H : keeps_files _ _ |- _ => destruct H as (?Kt & ?Kn & ?Kv & ?Ka)
         end;
  split; [repeat match goal with H : trace _ = _ |- _ => rewrite H end;
          rewrite <- ?app_assoc, ?app_nil_r; reflexivity|];
  split; [cbn [app]; congruence|];
  split; [intros id Hin; cbn in Hin; unfold slot;
          repeat (destruct Hin as [Hin|Hin]; [subst id|]);
          try contradiction; (left; congruence) || (right; congruence)|];
  split; [intros id [Hs|Hs];
          try congruence;
          match goal with
          | H : ?x = Some ?i |- _ <= id =>
              assert (id = i) by congruence; subst id; lia
          end|];
  split; [intros id Hin; cbn in Hin; unfold slot;
          repeat (destruct Hin as [Hin|Hin];
                  [try discriminate Hin;
                   injection Hin as <-; ((left; congruence) || (right; congruence))|]);
          contradiction|];
  split; [reflexivity|];
  split; [repeat constructor|];
  split; [cbn; split; congruence|];
  split; [split; [intros t0 v0 a0 ok0 Hin; cbn in Hin;
                  repeat (destruct Hin as [Hin|Hin]; try discriminate Hin);
                  contradiction
                 |cbn; congruence]
         |discriminate].

Lemma body_full fs title v a s :
  temp_video_m4s s = None -> temp_audio_m4s s = None ->
  body_files s (repair_and_merge fs title v a s).
Proof.
  intros Hv Ha.
  unfold repair_and_merge. unfold bind at 1.
  destruct (mkstemp_video_files s)
    as [(s1 & E1 & T1 & K1)|(s1 & E1 & T1 & F1 & N1 & V1 & A1)];
    rewrite E1; cbv beta iota.
  { body_leaf (@nil event) (@nil nat). }
  set (id1 := next_tmp (os s)) in *.
  unfold bind at 1.
  destruct (close_cases id1 s1) as [(s2 & E2 & T2 & K2)|(s2 & E2 & T2 & K2)];
    rewrite E2; cbv beta iota.
  { body_leaf [EMkstemp id1] [id1]. }
  unfold bind at 1.
  destruct (mkstemp_audio_files s2)
    as [(s3 & E3 & T3 & K3)|(s3 & E3 & T3 & F3 & N3 & V3 & A3)];
    rewrite E3; cbv beta iota.
  { body_leaf [EMkstemp id1; EClose id1] [id1]. }
  set (id2 := next_tmp (os s2)) in *.
  destruct (tail_full fs title v a id1 id2 s3)
    as (et & Tt & Kt & Pt & Mt & Ft & Nt).
  match goal with
  | |- body_files _ (?m s3) => destruct (m s3) as [r s4]
  end.
  cbn [fst snd] in *.
  destruct K2 as (K2t & K2n & K2v & K2a). destruct Kt as (K4t & K4n & K4v & K4a).
  exists ([EMkstemp id1; EClose id1; EMkstemp id2] ++ et ++ []), [id2; id1].
  cbn [fst snd].
  assert (I3 : Forall (fun e => inert e = true)
                 [EMkstemp id1; EClose id1; EMkstemp id2])
    by (repeat constructor).
  assert (Sv : temp_video_m4s s4 = Some id1) by congruence.
  assert (Sa : temp_audio_m4s s4 = Some id2) by congruence.
  split; [rewrite Tt, T3, T2, T1, <- !app_assoc, app_nil_r; reflexivity|].
  split; [cbn [app]; congruence|].
  split.
  { intros id [<-|[<-|[]]]; unfold slot; [now right|now left]. }
  split.
  { intros id [Hs|Hs].
    - assert (id = id1) by congruence. subst id. unfold id1. lia.
    - assert (id = id2) by congruence. subst id. unfold id2. lia. }
  split.
  { rewrite app_nil_r. intros id Hin. unfold slot.
    apply in_app_or in Hin as [Hin|Hin].
    - destruct Hin as [Hin|[Hin|[Hin|[]]]]; try discriminate Hin;
        injection Hin as <-; [now left|now right].
    - now apply plain_not_mkstemp in Hin. }
  split.
  { rewrite app_nil_r. apply removals_ok_app. split; [reflexivity|].
    now apply plain_removals_ok. }
  split.
  { rewrite app_nil_r. apply Forall_app. split; [repeat constructor|].
    eapply Forall_impl; [|exact Pt]. apply plain_is_quiet. }
  split; [rewrite merge_ok_pad by (assumption || constructor); exact Mt|].
  split; [apply merges_follow_pad; (assumption || constructor)|exact Nt].
Qed.

Lemma filter_absent id l :
  ~ In id l -> filter (fun x => negb (Nat.eqb id x)) l = l.
Proof.
  induction l as [|x l IH]; intros H; [reflexivity|].
  cbn [filter]. destruct (Nat.eqb id x) eqn:E.
  - apply Nat.eqb_eq in E. subst x. exfalso. apply H. now left.
  - cbn [negb]. rewrite IH; [reflexivity|]. intros Hin. apply H. now right.
Qed.

Lemma remove_if_exists_files o s :
  exists evs,
    trace (os (snd (remove_if_exists o s))) = trace (os s) ++ evs
    /\ Forall (fun e => is_cleanup e = true) evs
    /\ temp_video_m4s (snd (remove_if_exists o s)) = temp_video_m4s s
    /\ temp_audio_m4s (snd (remove_if_exists o s)) = temp_audio_m4s s
    /\ next_tmp (os (snd (remove_if_exists o s))) = next_tmp (os s)
    /\ ((fst (remove_if_exists o s) = Ok tt /\ removals_ok evs
         /\ tmp (os (snd (remove_if_exists o s))) = without o (tmp (os s)))
        \/ (fst (remove_if_exists o s) = Raise OSError /\ ~ removals_ok evs)).
Proof.
  unfold remove_if_exists, without, removals_ok. destruct o as [id|].
  - destruct (existsb (Nat.eqb id) (tmp (os s))) eqn:E.
    + destruct (remove_plan (os s)) as [|[|] rp].
      * exists [ERemove id]. cbn.
        split; [reflexivity|]. split; [repeat constructor|].
        do 3 (split; [reflexivity|]). left. repeat split.
      * exists [ERemove id]. cbn.
        split; [reflexivity|]. split; [repeat constructor|].
        do 3 (split; [reflexivity|]). left. repeat split.
      * exists [ERemoveFailed id]. cbn.
        split; [reflexivity|]. split; [repeat constructor|].
        do 3 (split; [reflexivity|]). right. split; [reflexivity|discriminate].
    + exists []. cbn [fst snd]. rewrite app_nil_r.
      split; [reflexivity|]. split; [constructor|].
      do 3 (split; [reflexivity|]). left.
      split; [reflexivity|]. split; [reflexivity|].
      symmetry. apply filter_absent. intros Hin.
      assert (T : existsb (Nat.eqb id) (tmp (os s)) = true).
      { apply existsb_exists. exists id. split; [exact Hin|apply Nat.eqb_refl]. }
      congruence.
  - exists []. cbn [fst snd]. rewrite app_nil_r.
    split; [reflexivity|]. split; [constructor|].
    do 3 (split; [reflexivity|]). left. repeat split.
Qed.

Lemma cleanup_files s :
  exists evs,
    trace (os (snd (cleanup s))) = trace (os s) ++ evs
    /\ Forall (fun e => is_cleanup e = true) evs
    /\ next_tmp (os (snd (cleanup s))) = next_tmp (os s)
    /\ ((fst (cleanup s) = Ok tt /\ removals_ok evs
         /\ tmp (os (snd (cleanup s)))
            = without (temp_audio_m4s s) (without (temp_video_m4s s) (tmp (os s))))
        \/ (fst (cleanup s) = Raise OSError /\ ~ removals_ok evs)).
Proof.
  unfold cleanup, bind.
  destruct (remove_if_exists_files (temp_video_m4s s) s)
    as (e1 & T1 & I1 & V1 & A1 & N1 & C1).
  destruct (remove_if_exists (temp_video_m4s s) s) as [r1 s1].
  cbn [fst snd] in *.
  destruct C1 as [(R1 & O1 & F1)|(R1 & O1)]; subst r1.
  - destruct (remove_if_exists_files (temp_audio_m4s s1) s1)
      as (e2 & T2 & I2 & V2 & A2 & N2 & C2).
    destruct (remove_if_exists (temp_audio_m4s s1) s1) as [r2 s2].
    cbn [fst snd] in *.
    exists (e1 ++ e2).
    split; [rewrite T2, T1; now rewrite app_assoc|].
    split; [now apply Forall_app|]. split; [congruence|].
    destruct C2 as [(R2 & O2 & F2)|(R2 & O2)]; subst r2.
    + left. split; [reflexivity|]. split; [now apply removals_ok_app|].
      rewrite F2, F1, A1. reflexivity.
    + right. split; [reflexivity|]. intros H. apply removals_ok_app in H.
      now apply O2.
  - exists e1. cbn [fst snd]. split; [exact T1|]. split; [exact I1|].
    split; [exact N1|]. right. now split.
Qed.

Lemma without_spared o l : without o l = filter (spared o) l.
Proof.
  destruct o as [id|]; [reflexivity|]. cbn [without].
  induction l as [|x l IH]; [reflexivity|]. cbn [filter spared]. now rewrite <- IH.
Qed.

Lemma spared_own o x : o = Some x -> spared o x = false.
Proof. intros ->. cbn [spared]. now rewrite Nat.eqb_refl. Qed.

Lemma spared_older o x n0 :
  (forall id, o = Some id -> n0 <= id) -> x < n0 -> spared o x = true.
Proof.
  intros H Hx. destruct o as [id|]; [|reflexivity]. cbn [spared].
  destruct (Nat.eqb id x) eqn:E; [|reflexivity].
  apply Nat.eqb_eq in E. specialize (H id eq_refl). lia.
Qed.

Lemma without_held held tmp0 v a n0 :
  (forall id, In id held -> v = Some id \/ a = Some id) ->
  (forall id, v = Some id \/ a = Some id -> n0 <= id) ->
  Forall (fun id => id < n0) tmp0 ->
  without a (without v (held ++ tmp0)) = tmp0.
Proof.
  intros Hh Hs Hf. rewrite !without_spared, !filter_app.
  assert (A : filter (spared a) (filter (spared v) held) = []).
  { induction held as [|x l IH]; [reflexivity|].
    assert (IH' : filter (spared a) (filter (spared v) l) = [])
      by (apply IH; intros id Hid; apply Hh; now right).
    cbn [filter]. destruct (spared v x) eqn:Ev; [|exact IH'].
    cbn [filter]. destruct (Hh x (or_introl eq_refl)) as [E|E].
    - rewrite (spared_own v x E) in Ev. discriminate.
    - now rewrite (spared_own a x E). }
  assert (B : forall o, (forall id, o = Some id -> n0 <= id) ->
                        filter (spared o) tmp0 = tmp0).
  { intros o Ho. induction Hf as [|x l Hx _ IH]; [reflexivity|].
    cbn [filter]. now rewrite (spared_older o x n0 Ho Hx), IH. }
  rewrite A. cbn [app].
  rewrite (B v) by (intros id E; apply Hs; now left).
  apply B. intros id E. apply Hs. now right.
Qed.

Lemma slot_removed l v a id :
  v = Some id \/ a = Some id -> ~ In id (without a (without v l)).
Proof.
  rewrite !without_spared. intros H Hin.
  apply filter_In in Hin as [Hin Ha]. apply filter_In in Hin as [_ Hv].
  destruct H as [->| ->]; cbn [spared] in *; rewrite Nat.eqb_refl in *;
    discriminate.
Qed.

Lemma cleanup_inert evs :
  Forall (fun e => is_cleanup e = true) evs ->
  Forall (fun e => inert e = true) evs.
Proof. intros H. eapply Forall_impl; [|exact H]. now intros []. Qed.

Lemma cleanup_quiet evs :
  Forall (fun e => is_cleanup e = true) evs ->
  Forall (fun e => quiet e = true) evs.
Proof. intros H. eapply Forall_impl; [|exact H]. now intros []. Qed.

Lemma cleanup_not_mkstemp evs id :
  Forall (fun e => is_cleanup e = true) evs -> ~ In (EMkstemp id) evs.
Proof.
  intros H Hin. rewrite Forall_forall in H. apply H in Hin. discriminate.
Qed.

Lemma process_pc_full fs media title s :
  pc_full s (process_pc_m4s_files fs media title s).
Proof.
  unfold process_pc_m4s_files. unfold bind at 1. cbn [emit].
  set (s1 := with_os s (record ERepairThenMerge (os s))).
  assert (T1 : trace (os s1) = trace (os s) ++ [ERepairThenMerge]) by reflexivity.
  assert (base : pc_full s (Ok false, s1)).
  { exists [], false. cbn [fst snd].
    split; [reflexivity|]. split; [exact T1|]. split; [constructor|].
    split; [split; [discriminate|intros [H _]; discriminate H]|].
    split; [split; [intros t v a ok []|discriminate]|].
    split; [reflexivity|]. intros _ id []. }
  unfold try_except, bind at 1, lift.
  pose proof (listdir_returns fs media) as Hl.
  destruct (listdir fs media) as [items|e|]; [|apply base|congruence].
  destruct (select (fst (collect fs media items))) as [[v a]|]; [|apply base].
  unfold bind, clear_locals, try_finally.
  set (s2 := {| os := os s1; temp_video_m4s := None; temp_audio_m4s := None |}).
  destruct (body_full fs title v a s2 eq_refl eq_refl)
    as (eb & held & Tb & Fb & Hb & Sb & Kb & Ob & Qb & Mb & Rb & Nb).
  destruct (repair_and_merge fs title v a s2) as [r s3]. cbn [fst snd] in *.
  destruct (cleanup_files s3) as (ec & Tc & Ic & Nc & Cc).
  destruct (cleanup s3) as [rc s4]. cbn [fst snd] in *.
  pose proof (cleanup_inert ec Ic) as Ic'.
  assert (T4 : trace (os s4)
               = trace (os s) ++ ERepairThenMerge :: ([] ++ eb ++ ec)).
  { rewrite Tc, Tb. change (trace (os s2)) with (trace (os s1)).
    rewrite T1, <- !app_assoc. reflexivity. }
  assert (Q4 : Forall (fun e => quiet e = true) ([] ++ eb ++ ec)).
  { cbn [app]. apply Forall_app. split; [exact Qb|now apply cleanup_quiet]. }
  assert (R4 : merges_follow_repairs ([] ++ eb ++ ec))
    by (apply merges_follow_pad; (assumption || constructor)).
  assert (M4 : existsb is_merge_ok ([] ++ eb ++ ec) = existsb is_merge_ok eb)
    by (apply merge_ok_pad; (assumption || constructor)).
  destruct Cc as [(Ec & Oc & Fc)|(Ec & Oc)]; subst rc.
  - assert (O4 : removals_ok ([] ++ eb ++ ec))
      by (cbn [app]; now apply removals_ok_app).
    assert (G : forall b, (r = Ok true <-> b = true) -> pc_full s (Ok b, s4)).
    { intros b Hb'. exists ([] ++ eb ++ ec), b. cbn [fst snd].
      split; [reflexivity|]. split; [exact T4|]. split; [exact Q4|].
      split.
      { rewrite M4, <- Mb, <- Hb'. split; [now split|now intros [H _]]. }
      split; [exact R4|]. split.
      - intros Hf _. rewrite Fc, Fb. change (tmp (os s2)) with (tmp (os s)).
        apply without_held with (n0 := next_tmp (os s)).
        + intros id Hid. apply Hb in Hid. destruct Hid; auto.
        + intros id Hid. apply Sb. destruct Hid; [now left|now right].
        + exact Hf.
      - intros _ id Hin. rewrite Fc. apply slot_removed.
        cbn [app] in Hin. apply in_app_or in Hin as [Hin|Hin].
        + destruct (Kb id Hin); auto.
        + now apply cleanup_not_mkstemp in Hin. }
    destruct r as [b|e|]; [|apply G|congruence].
    + apply G. split; congruence.
    + split; discriminate.
  - assert (O4 : ~ removals_ok ([] ++ eb ++ ec)).
    { cbn [app]. intros H. apply removals_ok_app in H. now apply Oc. }
    assert (G : pc_full s (Ok false, s4)).
    { exists ([] ++ eb ++ ec), false. cbn [fst snd].
      split; [reflexivity|]. split; [exact T4|]. split; [exact Q4|].
      split; [split; [discriminate|intros [_ H]; contradiction]|].
      split; [exact R4|]. split; intros; contradiction. }
    exact G.
Qed.

Lemma merges_follow_cons e evs :
  is_merge e = false -> (forall s d b, e <> EDecode s d b) ->
  merges_follow_repairs evs -> merges_follow_repairs (e :: evs).
Proof.
  intros Hm Hd [H1 H2]. split.
  - intros t v a ok [Hin|Hin]; [subst e; discriminate|].
    destruct (H1 t v a ok Hin) as [A B]. unfold decoded_ok in *.
    cbn [existsb]. rewrite A, B, !orb_true_r. now split.
  - cbn [existsb]. rewrite Hm.
    assert (F : is_failed_decode e = false).
    { destruct e; try reflexivity. exfalso. eapply Hd. reflexivity. }
    rewrite F. exact H2.
Qed.

Lemma quiet_not_direct evs t v a ok :
  Forall (fun e => quiet e = true) evs -> ~ In (EDirectMerge t v a ok) evs.
Proof.
  intros H Hin. rewrite Forall_forall in H. apply H in Hin. discriminate.
Qed.

Lemma run_full_idle s : run_full s (Ok false, s).
Proof.
  exists [], false. cbn [fst snd]. rewrite app_nil_r.
  split; [reflexivity|]. split; [reflexivity|].
  split; [split; [discriminate|intros [H _]; discriminate H]|].
  split; [split; [intros t v a ok []|discriminate]|].
  split; [reflexivity|]. split; [intros _ id []|]. intros t v a [].
Qed.

Lemma run_full_pc fs media title s :
  run_full s (process_pc_m4s_files fs media title s).
Proof.
  destruct (process_pc_full fs media title s)
    as (evs & b & H1 & H2 & H3 & H4 & H5 & H6 & H7).
  exists (ERepairThenMerge :: evs), b.
  split; [exact H1|]. split; [exact H2|]. split; [exact H4|].
  split; [apply merges_follow_cons; auto; discriminate|].
  split; [exact H6|].
  split; [intros O id [Hin|Hin]; [discriminate|now apply H7]|].
  intros t v a [Hin|Hin]; [discriminate|].
  now apply quiet_not_direct in Hin.
Qed.

Lemma run_full_mobile fs media title s :
  run_full s (process_mobile_m4s_files fs media title s).
Proof.
  unfold process_mobile_m4s_files, try_except, bind at 1, lift.
  pose proof (listdir_returns fs media) as Hl.
  destruct (listdir fs media) as [items|e|];
    [|apply run_full_idle|congruence].
  destruct (select (fst (collect fs media items))) as [[v a]|];
    [|apply run_full_idle].
  unfold bind at 1.
  destruct (ffmpeg_cases (EDirectMerge title (path_ v) (path_ a)) s)
    as (ok & s1 & E & T1 & (K1 & K2 & _)).
  rewrite E. cbv beta iota. destruct ok.
  - exists [EDirectMerge title (path_ v) (path_ a) true], true.
    cbn [fst snd ret]. split; [reflexivity|]. split; [exact T1|].
    split; [split; [intros _; split; reflexivity|reflexivity]|].
    split; [split; [intros t0 v0 a0 ok0 [H|[]]; discriminate|discriminate]|].
    split; [intros _ _; exact K1|].
    split; [intros _ id [H|[]]; discriminate|].
    intros t0 v0 a0 [H|[]]. injection H as <- <- <-. split; [reflexivity|exact K1].
  - destruct (process_pc_full fs media title s1)
      as (evs & b & H1 & H2 & H3 & H4 & H5 & H6 & H7).
    destruct (process_pc_m4s_files fs media title s1) as [r s2].
    cbn [fst snd] in *. subst r.
    exists (EDirectMerge title (path_ v) (path_ a) false
              :: ERepairThenMerge :: evs), b.
    cbn [fst snd]. split; [reflexivity|].
    split; [rewrite H2, T1, <- app_assoc; reflexivity|].
    split; [exact H4|].
    split; [do 2 (apply merges_follow_cons; [reflexivity|discriminate|]);
            exact H5|].
    split.
    + intros Hf O. rewrite <- K1. apply H6; [|exact O].
      unfold fresh in *. now rewrite K1, K2.
    + split.
      * intros O id [H|[H|H]]; try discriminate. now apply H7.
      * intros t0 v0 a0 [H|[H|H]]; try discriminate.
        now apply quiet_not_direct in H.
Qed.

Lemma run_full_single fs load_json repr folder s :
  run_full s (process_single_folder fs load_json repr folder s).
Proof.
  unfold process_single_folder.
  destruct (Detect.detect_folder_structure fs folder) as [[k media] meta].
  destruct k; try apply run_full_idle;
    (destruct media as [media|]; [|apply run_full_idle]);
    (destruct meta as [meta|]; [|apply run_full_idle]);
    match goal with
    | |- context [Title.choose_title ?r ?k ?l ?b] =>
        destruct (Title.choose_title r k l b); [|apply run_full_idle]
    end.
  - apply run_full_pc.
  - apply run_full_mobile.
Qed.

(** X18.  Processing one folder returns a boolean in every world:
    whatever [os.listdir], [mkstemp], [os.close], the repairs and ffmpeg
    do, no exception leaves [process_single_folder]. *)
Theorem folder_run_never_raises fs load_json repr folder s :
  exists b, fst (process_single_folder fs load_json repr folder s) = Ok b.
Proof.
  destruct (run_full_single fs load_json repr folder s) as (evs & b & H & _).
  now exists b.
Qed.

(** X19.  A folder is reported as converted exactly when one of the
    ffmpeg runs of its processing succeeded and no [os.remove] of the
    [finally] block raised. *)
Theorem success_iff_ffmpeg_succeeded fs load_json repr folder s :
  let out := process_single_folder fs load_json repr folder s in
  fst out = Ok true
  <-> existsb is_merge_ok (new_events s (snd out)) = true
      /\ existsb is_remove_failed (new_events s (snd out)) = false.
Proof.
  cbv zeta.
  destruct (run_full_single fs load_json repr folder s)
    as (evs & b & H1 & H2 & H3 & _).
  rewrite (@new_events_app _ _ evs H2), H1. fold (removals_ok evs).
  rewrite <- H3. split; congruence.
Qed.

(** X20.  ffmpeg is run on repaired files only after both repairs
    succeeded, on exactly those two files; once a repair has failed no
    such merge is run. *)
Theorem merge_only_after_repairs fs load_json repr folder s :
  merges_follow_repairs
    (new_events s (snd (process_single_folder fs load_json repr folder s))).
Proof.
  destruct (run_full_single fs load_json repr folder s)
    as (evs & b & H1 & H2 & H3 & H4 & _).
  now rewrite (@new_events_app _ _ evs H2).
Qed.

(** X21.  When the serial numbers still to be handed out name no
    existing file and no [os.remove] raised during the run, processing a
    folder leaves the temporary directory with exactly the files it had,
    on every path. *)
Theorem temp_directory_restored fs load_json repr folder s :
  let out := process_single_folder fs load_json repr folder s in
  fresh (os s) ->
  existsb is_remove_failed (new_events s (snd out)) = false ->
  tmp (os (snd out)) = tmp (os s).
Proof.
  cbv zeta.
  destruct (run_full_single fs load_json repr folder s)
    as (evs & b & H1 & H2 & H3 & H4 & H5 & _).
  rewrite (@new_events_app _ _ evs H2). exact H5.
Qed.

Lemma temp_directory_restored_witness :
  tmp (os (snd (process_single_folder Detect.mobile_example titled
                  (fun _ => []) []
                  {| os := {| tmp := [4; 1]; next_tmp := 7; mkstemp_plan := [];
                              close_plan := [true; true; true; false];
                              ffmpeg_plan := [false; false];
                              room_plan := []; remove_plan := [true; true];
                              trace := [] |};
                     temp_video_m4s := None; temp_audio_m4s := None |})))
  = [4; 1].
Proof.
  apply (temp_directory_restored Detect.mobile_example titled (fun _ => []) []
           {| os := {| tmp := [4; 1]; next_tmp := 7; mkstemp_plan := [];
                       close_plan := [true; true; true; false];
                       ffmpeg_plan := [false; false];
                       room_plan := []; remove_plan := [true; true];
                       trace := [] |};
              temp_video_m4s := None; temp_audio_m4s := None |}).
  - unfold fresh. cbn [os tmp next_tmp]. repeat constructor.
  - vm_compute. reflexivity.
Defined.

(** X22.  When the direct merge of a phone folder succeeds, it is the
    only thing the run does: the folder is reported as converted, no
    temporary file is created and no repair is attempted. *)
Theorem direct_merge_success_ends_run fs load_json repr folder s t v a :
  let out := process_single_folder fs load_json repr folder s in
  In (EDirectMerge t v a true) (new_events s (snd out)) ->
  fst out = Ok true
  /\ new_events s (snd out) = [EDirectMerge t v a true]
  /\ tmp (os (snd out)) = tmp (os s).
Proof.
  cbv zeta.
  destruct (run_full_single fs load_json repr folder s)
    as (evs & b & H1 & H2 & H3 & H4 & H5 & H6 & H7).
  rewrite (@new_events_app _ _ evs H2). intros Hin.
  destruct (H7 t v a Hin) as [E F]. split; [|split; assumption].
  rewrite H1. f_equal. apply H3. rewrite E. split; reflexivity.
Qed.

Lemma direct_merge_success_ends_run_witness :
  fst (process_single_folder Detect.mobile_example titled (fun _ => []) []
         (start [true] [])) = Ok true
  /\ new_events (start [true] [])
       (snd (process_single_folder Detect.mobile_example titled (fun _ => []) []
               (start [true] [])))
     = [EDirectMerge (str "clip") [str "c_1"; str "77"; str "a.m4s"]
          [str "c_1"; str "77"; str "b.m4s"] true]
  /\ tmp (os (snd (process_single_folder Detect.mobile_example titled
                     (fun _ => []) [] (start [true] []))))
     = tmp (os (start [true] [])).
Proof.
  apply (direct_merge_success_ends_run Detect.mobile_example titled
           (fun _ => []) [] (start [true] [])).
  vm_compute. left. reflexivity.
Defined.

(** X23.  A folder of the desktop layout is never merged directly:
    its fragments reach ffmpeg only through the repair; at most one repair
    attempt is made, and when no [os.remove] raised every temporary file
    it created is gone on return. *)
Theorem desktop_never_merges_directly fs load_json repr folder s :
  let out := process_single_folder fs load_json repr folder s in
  fst (fst (Detect.detect_folder_structure fs folder)) = pc ->
  existsb is_direct_merge (new_events s (snd out)) = false
  /\ attempts (new_events s (snd out)) <= 1
  /\ (existsb is_remove_failed (new_events s (snd out)) = false ->
      forall id, In (EMkstemp id) (new_events s (snd out)) ->
                 ~ In id (tmp (os (snd out)))).
Proof.
  cbv zeta. intros Hk.
  assert (idle : forall s',
            trace (os s') = trace (os s) ->
            existsb is_direct_merge (new_events s s') = false
            /\ attempts (new_events s s') <= 1
            /\ (existsb is_remove_failed (new_events s s') = false ->
                forall id, In (EMkstemp id) (new_events s s') ->
                           ~ In id (tmp (os s')))).
  { intros s' H. rewrite (@new_events_app s s' []) by (now rewrite app_nil_r).
    repeat split; auto; intros _ id []. }
  unfold process_single_folder.
  destruct (Detect.detect_folder_structure fs folder) as [[k media] meta].
  cbn [fst] in Hk. subst k.
  destruct media as [media|]; [|now apply idle].
  destruct meta as [meta|]; [|now apply idle].
  destruct (Title.choose_title repr pc (load_json meta) (basename folder))
    as [title|]; [|now apply idle].
  destruct (process_pc_full fs media title s)
    as (evs & b & H1 & H2 & H3 & H4 & H5 & H6 & H7).
  rewrite (@new_events_app _ _ (ERepairThenMerge :: evs) H2).
  split; [|split].
  - cbn [existsb is_direct_merge orb].
    clear - H3. induction H3 as [|e l He _ IH]; [reflexivity|].
    cbn [existsb]. rewrite IH. now destruct e.
  - unfold attempts. cbn [filter is_repair_attempt length].
    now rewrite quiet_no_attempt.
  - intros O id [Hin|Hin]; [discriminate|]. now apply H7.
Qed.

Lemma desktop_never_merges_directly_witness :
  let s := start_with [false] [] [true; true] in
  let out := process_single_folder desktop_example titled (fun _ => []) [] s in
  existsb is_direct_merge (new_events s (snd out)) = false
  /\ attempts (new_events s (snd out)) <= 1
  /\ (existsb is_remove_failed (new_events s (snd out)) = false ->
      forall id, In (EMkstemp id) (new_events s (snd out)) ->
                 ~ In id (tmp (os (snd out)))).
Proof.
  apply (desktop_never_merges_directly desktop_example titled (fun _ => []) []
           (start_with [false] [] [true; true])).
  reflexivity.
Defined.

End OrchestratorMoreProofs.

(** ** The free output name *)

Module OutputPathProofs.

Import FS DetectProofs OutputPath.

Lemma digits_inj d : forall d', digits d = digits d' -> d = d'.
Proof.
  induction d as [|d IH|d IH|d IH|d IH|d IH|d IH|d IH|d IH|d IH|d IH];
    intros [|d'|d'|d'|d'|d'|d'|d'|d'|d'|d'] H; cbn [digits] in H;
    try discriminate H; try reflexivity;
    injection H as H; f_equal; now apply IH.
Qed.

Lemma decimal_inj k k' : decimal k = decimal k' -> k = k'.
Proof.
  unfold decimal. intros H. apply digits_inj in H.
  now apply DecimalNat.Unsigned.to_uint_inj.
Qed.

Lemma candidate_inj base k k' : candidate base k = candidate base k' -> k = k'.
Proof.
  unfold candidate.
  change (str ".mp4") with [46; 109; 112; 52]%N.
  change (str "_") with [95]%N.
  destruct k as [|k], k' as [|k']; intros H; try reflexivity;
    apply app_inv_head in H; cbn [app] in H; try discriminate H.
  injection H as H. apply app_inv_tail in H. now apply decimal_inj.
Qed.

Lemma find_entry_names name entries n :
  find_entry name entries = Some n -> In name (map fst entries).
Proof.
  induction entries as [|[k m] rest IH]; [discriminate|].
  cbn [find_entry map fst]. destruct (str_eqb name k) eqn:E.
  - apply str_eqb_eq in E. subst k. intros _. now left.
  - intros H. right. now apply IH.
Qed.

Lemma taken_is_listed fs dir name :
  exists_ fs (join dir name) = true ->
  exists sz l entries,
    lookup dir fs = Some (Dir sz l entries) /\ In name (map fst entries).
Proof.
  unfold exists_, join. rewrite lookup_app.
  destruct (lookup dir fs) as [[sz c|sz l entries]|]; cbn [lookup]; try discriminate.
  destruct (find_entry name entries) as [n|] eqn:E; [|discriminate].
  intros _. exists sz, l, entries. split; [reflexivity|].
  eapply find_entry_names; eauto.
Qed.

Lemma some_name_is_free fs dir base :
  exists k, k <= entry_count fs dir
            /\ exists_ fs (join dir (candidate base k)) = false.
Proof.
  set (n := entry_count fs dir).
  set (taken := fun name => exists_ fs (join dir name)).
  set (l := map (candidate base) (seq 0 (S n))).
  destruct (forallb taken l) eqn:E.
  - exfalso. rewrite forallb_forall in E.
    assert (Hnd : NoDup l).
    { unfold l. apply Finite.Injective_map_NoDup; [|apply seq_NoDup].
      intros x y. apply candidate_inj. }
    assert (H0 : taken (candidate base 0) = true).
    { apply E. unfold l. apply in_map, in_seq. lia. }
    destruct (taken_is_listed fs dir _ H0) as (sz & li & entries & Hl & _).
    assert (Hincl : incl l (map fst entries)).
    { intros x Hx. apply E in Hx.
      destruct (taken_is_listed fs dir _ Hx) as (sz' & li' & entries' & Hl' & Hin).
      rewrite Hl in Hl'. injection Hl' as <- <- <-. exact Hin. }
    apply NoDup_incl_length in Hincl; [|exact Hnd].
    unfold l in Hincl. rewrite !length_map, length_seq in Hincl.
    unfold n, entry_count in Hincl. rewrite Hl in Hincl. lia.
  - assert (X : existsb (fun x => negb (taken x)) l = true).
    { clear - E. induction l as [|x l IH]; [discriminate|].
      cbn [forallb existsb] in *. destruct (taken x); cbn [negb orb andb] in *; auto. }
    apply existsb_exists in X as (x & Hx & Hn).
    unfold l in Hx. apply in_map_iff in Hx as (k & <- & Hk).
    apply in_seq in Hk. exists k. split; [lia|].
    unfold taken in Hn. now destruct (exists_ fs (join dir (candidate base k))).
Qed.

Lemma search_finds taken base fuel : forall count,
  (exists k, count <= k < count + fuel /\ taken (candidate base k) = false) ->
  exists k, count <= k
            /\ search fuel taken base count = Ok (candidate base k)
            /\ taken (candidate base k) = false
            /\ (forall j, count <= j < k -> taken (candidate base j) = true).
Proof.
  induction fuel as [|fuel IH]; intros count (k & Hk & Hf); [lia|].
  cbn [search]. destruct (taken (candidate base count)) eqn:E.
  - destruct (IH (S count)) as (k' & H1 & H2 & H3 & H4).
    { exists k. split; [|exact Hf].
      assert (k <> count) by (intros ->; congruence). lia. }
    exists k'. split; [lia|]. split; [exact H2|]. split; [exact H3|].
    intros j Hj. destruct (Nat.eq_dec j count) as [->|Hn]; [exact E|].
    apply H4. lia.
  - exists count. split; [lia|]. split; [reflexivity|]. split; [exact E|].
    intros j Hj. lia.
Qed.

(** X24.  The search for a free output name ends, after at most as many
    steps as the output folder has entries, with the first name among
    title.mp4, title_1.mp4, title_2.mp4, ... that does not exist: the
    result does not exist and every earlier candidate does. *)
Theorem output_name_is_first_free fs output_dir_path sanitized_title :
  exists k,
    k <= entry_count fs output_dir_path
    /\ final_output_filepath fs output_dir_path sanitized_title
       = Ok (join output_dir_path (candidate sanitized_title k))
    /\ exists_ fs (join output_dir_path (candidate sanitized_title k)) = false
    /\ (forall j, j < k ->
          exists_ fs (join output_dir_path (candidate sanitized_title j)) = true).
Proof.
  destruct (some_name_is_free fs output_dir_path sanitized_title) as (k0 & Hk0 & Hf0).
  destruct (search_finds (fun name => exists_ fs (join output_dir_path name))
              sanitized_title (S (entry_count fs output_dir_path)) 0)
    as (k & H1 & H2 & H3 & H4).
  { exists k0. split; [lia|exact Hf0]. }
  exists k. unfold final_output_filepath. rewrite H2.
  split; [|split; [reflexivity|split; [exact H3|]]].
  - destruct (Nat.le_gt_cases k k0) as [L|G]; [lia|].
    rewrite (H4 k0) in Hf0 by lia. discriminate.
  - intros j Hj. apply H4. lia.
Qed.

Example third_run_gets_suffix_2 :
  final_output_filepath after_two_runs [] (str "Title") = Ok [str "Title_2.mp4"].
Proof. reflexivity. Qed.

End OutputPathProofs.

(** ** The batch loop *)

Module BatchProofs.

Import FS Tracks Orchestrator OrchestratorProofs OrchestratorMore
       OrchestratorMoreProofs Batch.

Lemma merges_app a b : merges (a ++ b) = merges a + merges b.
Proof. unfold merges. now rewrite filter_app, length_app. Qed.

Lemma merges_cleanup evs :
  Forall (fun e => is_cleanup e = true) evs -> merges evs = 0.
Proof.
  unfold merges. induction 1 as [|e l He _ IH]; [reflexivity|].
  cbn [filter]. destruct e; try discriminate He; exact IH.
Qed.

(** closes a case of the tally lemmas once the new events are known *)
Ltac tally_leaf evs :=
  unfold body_tally; exists evs; cbn [fst snd];
  repeat match goal with
         | H : keeps_files _ _ |- _ => destruct H as (_ & ?Kn & _ & _)
         end;
  split; [repeat match goal with H : trace _ = _ |- _ => rewrite H end;
          rewrite <- ?app_assoc, ?app_nil_r; reflexivity|];
  split; [reflexivity|lia].

Lemma tally_body fs title v a s :
  body_tally s (repair_and_merge fs title v a s).
Proof.
  unfold repair_and_merge. unfold bind at 1.
  destruct (mkstemp_video_files s)
    as [(s1 & E1 & T1 & K1)|(s1 & E1 & T1 & F1 & N1 & V1 & A1)];
    rewrite E1; cbv beta iota.
  { tally_leaf (@nil event). }
  set (id1 := next_tmp (os s)) in *.
  unfold bind at 1.
  destruct (close_cases id1 s1) as [(s2 & E2 & T2 & K2)|(s2 & E2 & T2 & K2)];
    rewrite E2; cbv beta iota.
  { tally_leaf [EMkstemp id1]. }
  unfold bind at 1.
  destruct (mkstemp_audio_files s2)
    as [(s3 & E3 & T3 & K3)|(s3 & E3 & T3 & F3 & N3 & V3 & A3)];
    rewrite E3; cbv beta iota.
  { tally_leaf [EMkstemp id1; EClose id1]. }
  set (id2 := next_tmp (os s2)) in *.
  unfold bind at 1.
  destruct (close_cases id2 s3) as [(s4 & E4 & T4 & K4)|(s4 & E4 & T4 & K4)];
    rewrite E4; cbv beta iota.
  { tally_leaf [EMkstemp id1; EClose id1; EMkstemp id2]. }
  unfold bind at 1.
  destruct (decode_cases fs (path_ v) id1 s4) as (b1 & s5 & E5 & T5 & K5).
  rewrite E5. cbv beta iota. unfold bind at 1. destruct b1.
  - destruct (decode_cases fs (path_ a) id2 s5) as (b2 & s6 & E6 & T6 & K6).
    rewrite E6. cbv beta iota. destruct b2.
    + destruct (ffmpeg_cases (EMerge title id1 id2) s6)
        as (b3 & s7 & E7 & T7 & K7).
      rewrite E7. destruct b3.
      * tally_leaf [EMkstemp id1; EClose id1; EMkstemp id2; EClose id2;
                    EDecode (path_ v) id1 true; EDecode (path_ a) id2 true;
                    EMerge title id1 id2 true].
      * tally_leaf [EMkstemp id1; EClose id1; EMkstemp id2; EClose id2;
                    EDecode (path_ v) id1 true; EDecode (path_ a) id2 true;
                    EMerge title id1 id2 false].
    + unfold ret.
      tally_leaf [EMkstemp id1; EClose id1; EMkstemp id2; EClose id2;
                  EDecode (path_ v) id1 true; EDecode (path_ a) id2 false].
  - unfold ret.
    tally_leaf [EMkstemp id1; EClose id1; EMkstemp id2; EClose id2;
                EDecode (path_ v) id1 false].
Qed.

Lemma tally_idle s : tally s (Ok false, s).
Proof.
  exists []. cbn [fst snd]. rewrite app_nil_r.
  split; [reflexivity|]. split; [cbn; lia|].
  split; [discriminate|]. split; [reflexivity|lia].
Qed.

Lemma tally_pc fs media title s :
  tally s (process_pc_m4s_files fs media title s).
Proof.
  unfold process_pc_m4s_files. unfold bind at 1. cbn [emit].
  set (s1 := with_os s (record ERepairThenMerge (os s))).
  assert (base : tally s (Ok false, s1)).
  { exists [ERepairThenMerge]. cbn [fst snd].
    split; [reflexivity|]. split; [cbn; lia|].
    split; [discriminate|]. split; [reflexivity|apply Nat.le_refl]. }
  unfold try_except, bind at 1, lift.
  pose proof (listdir_returns fs media) as Hl.
  destruct (listdir fs media) as [items|e|]; [|apply base|congruence].
  destruct (select (fst (collect fs media items))) as [[v a]|]; [|apply base].
  unfold bind, clear_locals, try_finally.
  set (s2 := {| os := os s1; temp_video_m4s := None; temp_audio_m4s := None |}).
  destruct (tally_body fs title v a s2) as (eb & Tb & Mb & Nb).
  destruct (repair_and_merge fs title v a s2) as [r s3]. cbn [fst snd] in *.
  destruct (cleanup_files s3) as (ec & Tc & Ic & Nc & Cc).
  destruct (cleanup s3) as [rc s4]. cbn [fst snd] in *.
  change (next_tmp (os s2)) with (next_tmp (os s)) in Nb.
  assert (T4 : trace (os s4)
               = trace (os s) ++ [ERepairThenMerge] ++ eb ++ ec).
  { rewrite Tc, Tb.
    change (trace (os s2)) with (trace (os s) ++ [ERepairThenMerge]).
    rewrite <- !app_assoc. reflexivity. }
  assert (M4 : merges ([ERepairThenMerge] ++ eb ++ ec) = merges eb).
  { rewrite !merges_app, (merges_cleanup ec Ic). cbn. lia. }
  assert (G : forall b : bool,
             (b = true -> merges eb = 1) ->
             (removals_ok ([ERepairThenMerge] ++ eb ++ ec) -> b = false ->
              merges eb = 0) ->
             merges eb <= 1 -> tally s (Ok b, s4)).
  { intros b H1 H0 Hle. exists ([ERepairThenMerge] ++ eb ++ ec). cbn [fst snd].
    split; [exact T4|]. rewrite M4. split; [exact Hle|].
    split; [intros H; apply H1; congruence|].
    split; [|lia]. intros O H. apply H0; [exact O|].
    destruct b; [congruence|reflexivity]. }
  destruct Cc as [(Ec & Oc & _)|(Ec & Oc)]; subst rc.
  - destruct r as [[|]|e|].
    + apply G; [auto|discriminate|lia].
    + apply G; [discriminate|auto|lia].
    + apply G; [discriminate|auto|lia].
    + exists ([ERepairThenMerge] ++ eb ++ ec). cbn [fst snd].
      split; [exact T4|]. rewrite M4, Mb.
      split; [lia|]. split; [discriminate|]. split; [reflexivity|lia].
  - apply G.
    + discriminate.
    + intros O _. exfalso. apply Oc.
      change (removals_ok (eb ++ ec)) in O.
      now apply removals_ok_app in O.
    + destruct r as [[|]|e|]; lia.
Qed.

Lemma tally_mobile fs media title s :
  tally s (process_mobile_m4s_files fs media title s).
Proof.
  unfold process_mobile_m4s_files, try_except, bind at 1, lift.
  pose proof (listdir_returns fs media) as Hl.
  destruct (listdir fs media) as [items|e|];
    [|apply tally_idle|congruence].
  destruct (select (fst (collect fs media items))) as [[v a]|];
    [|apply tally_idle].
  unfold bind at 1.
  destruct (ffmpeg_cases (EDirectMerge title (path_ v) (path_ a)) s)
    as (ok & s1 & E & T1 & (K1 & K2 & _)).
  rewrite E. cbv beta iota. destruct ok.
  - exists [EDirectMerge title (path_ v) (path_ a) true].
    cbn [fst snd ret]. split; [exact T1|]. split; [cbn; lia|].
    split; [reflexivity|]. split; [congruence|lia].
  - destruct (tally_pc fs media title s1) as (evs & H1 & H2 & H3 & H4 & H5).
    pose proof (process_pc_full fs media title s1) as (evs' & b & Hb & _).
    destruct (process_pc_m4s_files fs media title s1) as [r s2].
    cbn [fst snd] in *. subst r.
    exists ([EDirectMerge title (path_ v) (path_ a) false] ++ evs).
    cbn [fst snd].
    split; [rewrite H1, T1, <- app_assoc; reflexivity|].
    assert (M : merges ([EDirectMerge title (path_ v) (path_ a) false] ++ evs)
                = merges evs) by (rewrite merges_app; reflexivity).
    rewrite M. split; [exact H2|]. split; [exact H3|]. split; [|lia].
    intros O. apply H4. exact O.
Qed.

Lemma tally_single fs load_json repr folder s :
  tally s (process_single_folder fs load_json repr folder s).
Proof.
  unfold process_single_folder.
  destruct (Detect.detect_folder_structure fs folder) as [[k media] meta].
  destruct k; try apply tally_idle;
    (destruct media as [media|]; [|apply tally_idle]);
    (destruct meta as [meta|]; [|apply tally_idle]);
    match goal with
    | |- context [Title.choose_title ?r ?k ?l ?b] =>
        destruct (Title.choose_title r k l b); [|apply tally_idle]
    end.
  - apply tally_pc.
  - apply tally_mobile.
Qed.

Lemma fresh_kept s s' :
  fresh (os s) -> tmp (os s') = tmp (os s) ->
  next_tmp (os s) <= next_tmp (os s') -> fresh (os s').
Proof.
  unfold fresh. intros F T N. rewrite T.
  eapply Forall_impl; [|exact F]. cbv beta. intros id H. lia.
Qed.

Lemma process_all_spec disk load_json repr folders : forall c s,
  batch_post folders c s (process_all disk load_json repr folders c s).
Proof.
  induction folders as [|folder rest IH]; intros c s.
  - exists [], c. cbn [process_all ret fst snd length]. rewrite app_nil_r.
    split; [reflexivity|]. split; [reflexivity|]. split; [cbn; lia|].
    split; [cbn; lia|]. split; [cbn; lia|]. split; [reflexivity|lia].
  - cbn [process_all]. unfold bind at 1.
    destruct (tally_single (disk s) (load_json s) repr folder s)
      as (e1 & T1 & M1 & M1t & M1f & N1).
    destruct (run_full_single (disk s) (load_json s) repr folder s)
      as (e1' & b & R1 & T1' & _ & _ & F1 & _).
    assert (e1' = e1) by (rewrite T1 in T1'; now apply app_inv_head in T1').
    subst e1'.
    destruct (process_single_folder (disk s) (load_json s) repr folder s)
      as [r s1].
    cbn [fst snd] in *. subst r.
    destruct (IH (if b then S c else c) s1)
      as (e2 & n & R2 & T2 & C2 & L2 & E2 & F2 & N2).
    exists (e1 ++ e2), n.
    split; [exact R2|].
    split; [rewrite T2, T1, app_assoc; reflexivity|].
    rewrite merges_app.
    split.
    { destruct b; [rewrite (M1t eq_refl)|]; lia. }
    split; [cbn [length]; lia|].
    split.
    { intros O. apply removals_ok_app in O as [O1 O2]. rewrite (E2 O2).
      destruct b; [rewrite (M1t eq_refl); lia|].
      rewrite (M1f O1) by discriminate. lia. }
    split; [|lia].
    intros Fs O. apply removals_ok_app in O as [O1 O2].
    rewrite F2, F1; auto.
    apply fresh_kept with s; auto.
Qed.

(** X25.  Processing one folder contains at most one successful ffmpeg
    run: exactly one when it reports success, and none when it reports
    failure and no [os.remove] raised. *)
Theorem one_successful_merge_per_success fs load_json repr folder s :
  let out := process_single_folder fs load_json repr folder s in
  merges (new_events s (snd out)) <= 1
  /\ (fst out = Ok true -> merges (new_events s (snd out)) = 1)
  /\ (existsb is_remove_failed (new_events s (snd out)) = false ->
      fst out = Ok false -> merges (new_events s (snd out)) = 0).
Proof.
  cbv zeta.
  destruct (tally_single fs load_json repr folder s)
    as (evs & T & M & Mt & Mf & _).
  rewrite (@new_events_app _ _ evs T).
  split; [exact M|]. split; [exact Mt|].
  intros O H. apply Mf; [exact O|]. rewrite H. discriminate.
Qed.

(** X26.  The batch loop goes through every folder and returns.  The
    success count it reports is at most the number of successful ffmpeg
    runs of the batch, which is at most the number of folders; the two are
    equal when no [os.remove] raised; and the failure count is the number
    of folders minus the success count. *)
Theorem batch_counts_successful_merges disk load_json repr input_folders s :
  let out := process_folders disk load_json repr input_folders s in
  exists success_count,
    fst out
    = Ok (success_count,
          (Z.of_nat (length input_folders) - Z.of_nat success_count)%Z)
    /\ success_count <= merges (new_events s (snd out))
    /\ merges (new_events s (snd out)) <= length input_folders
    /\ (existsb is_remove_failed (new_events s (snd out)) = false ->
        success_count = merges (new_events s (snd out))).
Proof.
  cbv zeta. unfold process_folders, bind.
  destruct (process_all_spec disk load_json repr input_folders 0 s)
    as (evs & n & R & T & C & L & E & _).
  destruct (process_all disk load_json repr input_folders 0 s) as [r s'].
  cbn [fst snd] in *. subst r. cbn [ret fst snd].
  exists n. split; [reflexivity|].
  rewrite (@new_events_app _ _ evs T).
  split; [lia|]. split; [exact L|]. intros O. now rewrite (E O).
Qed.

(** X27.  When the serial numbers still to be handed out name no
    existing file and no [os.remove] raised during the batch, a whole batch
    leaves the temporary directory with exactly the files it had. *)
Theorem batch_restores_temp_directory disk load_json repr input_folders s :
  let out := process_folders disk load_json repr input_folders s in
  fresh (os s) ->
  existsb is_remove_failed (new_events s (snd out)) = false ->
  tmp (os (snd out)) = tmp (os s).
Proof.
  cbv zeta. unfold process_folders, bind.
  destruct (process_all_spec disk load_json repr input_folders 0 s)
    as (evs & n & R & T & C & L & E & K & _).
  destruct (process_all disk load_json repr input_folders 0 s) as [r s'].
  cbn [fst snd] in *. subst r. cbn [ret snd].
  rewrite (@new_events_app _ _ evs T). exact K.
Qed.

Lemma batch_restores_temp_directory_witness :
  tmp (os (snd (process_folders (fun _ => library) (fun _ => titled)
                  (fun _ => [])
                  [[str "phone"]; [str "misc"]; [str "desk"]]
                  {| os := {| tmp := [4; 1]; next_tmp := 7; mkstemp_plan := [];
                              close_plan := [true; false];
                              ffmpeg_plan := [false];
                              room_plan := []; remove_plan := [true];
                              trace := [] |};
                     temp_video_m4s := None; temp_audio_m4s := None |})))
  = [4; 1].
Proof.
  apply (batch_restores_temp_directory (fun _ => library) (fun _ => titled)
           (fun _ => []) [[str "phone"]; [str "misc"]; [str "desk"]]
           {| os := {| tmp := [4; 1]; next_tmp := 7; mkstemp_plan := [];
                       close_plan := [true; false];
                       ffmpeg_plan := [false];
                       room_plan := []; remove_plan := [true];
                       trace := [] |};
              temp_video_m4s := None; temp_audio_m4s := None |}).
  - unfold fresh. cbn [os tmp next_tmp]. repeat constructor.
  - vm_compute. reflexivity.
Defined.

End BatchProofs.

(** ** The list of source folders *)

Module FolderListProofs.

Import FS Detect DetectProofs FolderList.

Lemma path_eqb_eq a : forall b, path_eqb a b = true <-> a = b.
Proof.
  induction a as [|x a IH]; intros [|y b]; cbn [path_eqb]; split; intros H;
    try reflexivity; try discriminate.
  - apply andb_true_iff in H as [H1 H2]. apply str_eqb_eq in H1.
    apply IH in H2. now subst.
  - injection H as -> ->. apply andb_true_iff. split.
    + now apply str_eqb_eq.
    + now apply IH.
Qed.

Lemma path_in_In folder folders :
  path_in folder folders = true <-> In folder folders.
Proof.
  unfold path_in. rewrite existsb_exists. split.
  - intros (x & Hx & E). apply path_eqb_eq in E. now subst.
  - intros H. exists folder. split; [assumption|]. now apply path_eqb_eq.
Qed.

Section WithDisk.

Variable fs : node.
Variable display_name : path -> pystr.

Lemma add_folder_cases folder w :
  (add_folder fs display_name folder w = (w, false)
   /\ (In folder (input_folders w) \/ accepted fs folder = false))
  \/ (add_folder fs display_name folder w
      = ({| input_folders := input_folders w ++ [folder];
            input_listbox := input_listbox w
                             ++ [{| row_folder := folder;
                                    row_display := display_name folder |}] |},
         true)
      /\ ~ In folder (input_folders w) /\ accepted fs folder = true).
Proof.
  unfold add_folder.
  destruct (path_in folder (input_folders w)) eqn:E; cbn [negb].
  - left. split; [reflexivity|]. left. now apply path_in_In.
  - destruct (accepted fs folder) eqn:A.
    + right. split; [reflexivity|]. split; [|reflexivity].
      intros H. apply path_in_In in H. congruence.
    + left. split; [reflexivity|]. now right.
Qed.

Lemma add_folder_consistent folder w :
  consistent w -> consistent (fst (add_folder fs display_name folder w)).
Proof.
  intros [N M].
  destruct (add_folder_cases folder w) as [[E _]|(E & Hn & _)]; rewrite E;
    cbn [fst]; [now split|].
  split; cbn [input_folders input_listbox].
  - apply NoDup_app; [exact N|repeat constructor; intros []|].
    intros x Hx [<-|[]]. contradiction.
  - now rewrite map_app, M.
Qed.

Lemma add_each_spec result : forall w n,
  let out := add_each fs display_name result w n in
  (consistent w -> consistent (fst out))
  /\ (forall g, In g (input_folders (fst out))
                <-> In g (input_folders w)
                    \/ (In g result /\ accepted fs g = true))
  /\ length (input_folders (fst out)) + n = length (input_folders w) + snd out
  /\ (exists more, input_folders (fst out) = input_folders w ++ more).
Proof.
  induction result as [|folder rest IH]; intros w n; cbv zeta.
  - cbn [add_each fst snd]. split; [auto|]. split; [|split; [lia|]].
    + intros g. split; [now left|]. intros [H|[[] _]]. exact H.
    + exists []. now rewrite app_nil_r.
  - cbn [add_each].
    pose proof (add_folder_consistent folder w) as C.
    destruct (add_folder_cases folder w) as [[E Hw]|(E & Hn & Ha)];
      rewrite E in *; cbn [fst] in C.
    + specialize (IH w n). cbv zeta in IH.
      destruct IH as (I1 & I2 & I3 & I4).
      split; [exact I1|]. split; [|split; [exact I3|exact I4]].
      intros g. rewrite I2. split.
      * intros [H|[H A]]; [now left|right; split; [now right|exact A]].
      * intros [H|[[<-|H] A]]; [now left| |right; now split].
        destruct Hw as [Hw|Hw]; [now left|congruence].
    + match goal with
      | |- context [add_each _ _ rest ?w' ?n'] =>
          specialize (IH w' n'); set (w1 := w') in *
      end.
      cbv zeta in IH. destruct IH as (I1 & I2 & I3 & I4).
      split; [auto|]. split; [|split].
      * intros g. rewrite I2. unfold w1. cbn [input_folders].
        rewrite in_app_iff. cbn [In]. split.
        -- intros [[H|[<-|[]]]|[H A]]; [now left|right|right].
           ++ split; [now left|exact Ha].
           ++ split; [now right|exact A].
        -- intros [H|[[<-|H] A]]; [left; now left|left; right; now left|].
           right. now split.
      * assert (L : length (input_folders w1) = S (length (input_folders w))).
        { unfold w1. cbn [input_folders]. rewrite length_app. cbn [length]. lia. }
        lia.
      * destruct I4 as [more I4]. exists (folder :: more).
        rewrite I4. unfold w1. cbn [input_folders].
        now rewrite <- app_assoc.
Qed.

End WithDisk.

Lemma listbox_delete_nil {A} d : @listbox_delete A d [] = [].
Proof. unfold listbox_delete. now rewrite firstn_nil, skipn_nil. Qed.

Lemma listbox_delete_0 {A} (x : A) l : listbox_delete 0 (x :: l) = l.
Proof. reflexivity. Qed.

Lemma listbox_delete_S {A} d (x : A) l :
  listbox_delete (S d) (x :: l) = x :: listbox_delete d l.
Proof. reflexivity. Qed.

Lemma in_listbox_delete {A} (y : A) l : forall d,
  In y (listbox_delete d l) -> In y l.
Proof.
  induction l as [|x l IH]; intros d H.
  - now rewrite listbox_delete_nil in H.
  - destruct d as [|d].
    + right. exact H.
    + rewrite listbox_delete_S in H. destruct H as [H|H]; [now left|].
      right. now apply IH with d.
Qed.

Lemma NoDup_listbox_delete {A} (l : list A) : forall d,
  NoDup l -> NoDup (listbox_delete d l).
Proof.
  induction l as [|x l IH]; intros d N.
  - rewrite listbox_delete_nil. constructor.
  - inversion N as [|? ? Hx N']; subst. destruct d as [|d].
    + exact N'.
    + rewrite listbox_delete_S. constructor; [|now apply IH].
      intros H. apply Hx. now apply in_listbox_delete with d.
Qed.

Lemma map_listbox_delete {A B} (f : A -> B) d l :
  map f (listbox_delete d l) = listbox_delete d (map f l).
Proof. unfold listbox_delete. now rewrite map_app, firstn_map, skipn_map. Qed.

Lemma length_listbox_delete {A} (l : list A) : forall d,
  d < length l -> S (length (listbox_delete d l)) = length l.
Proof.
  induction l as [|x l IH]; intros d H; cbn [length] in *; [lia|].
  destruct d as [|d]; [reflexivity|].
  rewrite listbox_delete_S. cbn [length]. f_equal. apply IH. lia.
Qed.

Lemma list_remove_nth l : forall d x,
  NoDup l -> nth_error l d = Some x ->
  list_remove x l = Some (listbox_delete d l).
Proof.
  induction l as [|y l IH]; intros d x N H.
  - destruct d; discriminate H.
  - inversion N as [|? ? Hy N']; subst. destruct d as [|d]; cbn [nth_error] in H.
    + injection H as ->. cbn [list_remove].
      now rewrite (proj2 (path_eqb_eq x x) eq_refl).
    + cbn [list_remove]. destruct (path_eqb y x) eqn:E.
      * apply path_eqb_eq in E. subst y. exfalso. apply Hy.
        eapply nth_error_In; eauto.
      * rewrite (IH d x N' H). now rewrite listbox_delete_S.
Qed.

Lemma unselected_above {A} selected (l : list A) : forall i,
  Forall (fun j => j < i) selected -> unselected selected i l = l.
Proof.
  induction l as [|x l IH]; intros i F; [reflexivity|].
  cbn [unselected].
  assert (E : existsb (Nat.eqb i) selected = false).
  { destruct (existsb (Nat.eqb i) selected) eqn:E; [|reflexivity].
    apply existsb_exists in E as (j & Hj & Ej). apply Nat.eqb_eq in Ej. subst j.
    rewrite Forall_forall in F. apply F in Hj. lia. }
  rewrite E. f_equal. apply IH.
  eapply Forall_impl; [|exact F]. cbv beta. intros j Hj. lia.
Qed.

Lemma unselected_step {A} d rest (l : list A) : forall i,
  i <= d -> Forall (fun j => j < d) rest ->
  unselected (d :: rest) i l = unselected rest i (listbox_delete (d - i) l).
Proof.
  induction l as [|x l IH]; intros i Hi F.
  - now rewrite listbox_delete_nil.
  - cbn [unselected existsb]. destruct (Nat.eqb i d) eqn:E.
    + apply Nat.eqb_eq in E. subst i. rewrite Nat.sub_diag, listbox_delete_0.
      cbn [orb]. rewrite (unselected_above rest l d F).
      apply unselected_above. constructor; [lia|].
      eapply Forall_impl; [|exact F]. cbv beta. intros j Hj. lia.
    + apply Nat.eqb_neq in E. cbn [orb].
      replace (d - i) with (S (d - S i)) by lia.
      rewrite listbox_delete_S. cbn [unselected].
      rewrite (IH (S i)) by (assumption || lia).
      reflexivity.
Qed.

Lemma unselected_ext {A} a b (l : list A) : forall i,
  (forall j, In j a <-> In j b) -> unselected a i l = unselected b i l.
Proof.
  induction l as [|x l IH]; intros i H; [reflexivity|].
  cbn [unselected].
  assert (E : existsb (Nat.eqb i) a = existsb (Nat.eqb i) b).
  { apply eq_true_iff_eq. rewrite !existsb_exists. split;
      intros (j & Hj & Ej); exists j; (split; [now apply H|exact Ej]). }
  rewrite E, (IH (S i) H). reflexivity.
Qed.

Lemma map_unselected {A B} (f : A -> B) selected (l : list A) : forall i,
  map f (unselected selected i l) = unselected selected i (map f l).
Proof.
  induction l as [|x l IH]; intros i; [reflexivity|].
  cbn [unselected map]. destruct (existsb (Nat.eqb i) selected);
    cbn [map]; now rewrite IH.
Qed.

Lemma remove_each_descending ds : forall w,
  consistent w ->
  StronglySorted (fun x y => y < x) ds ->
  Forall (fun i => i < length (input_folders w)) ds ->
  remove_each ds w
  = (None, {| input_folders := unselected ds 0 (input_folders w);
              input_listbox := unselected ds 0 (input_listbox w) |})
  /\ NoDup (unselected ds 0 (input_folders w)).
Proof.
  induction ds as [|d rest IH]; intros [folders rows] [N M] S F;
    cbn [input_folders input_listbox] in *.
  - cbn [remove_each]. rewrite !unselected_above by constructor.
    now split.
  - apply StronglySorted_inv in S as [S' Hd].
    pose proof (Forall_inv F) as Fd. cbv beta in Fd.
    cbn [remove_each input_folders input_listbox].
    destruct (nth_error folders d) as [x|] eqn:E;
      [|apply nth_error_None in E; lia].
    rewrite (list_remove_nth folders d x N E).
    rewrite !(unselected_step d rest) by (assumption || lia).
    rewrite Nat.sub_0_r.
    apply IH; [split| |]; cbn [input_folders input_listbox].
    + now apply NoDup_listbox_delete.
    + now rewrite map_listbox_delete, M.
    + exact S'.
    + pose proof (length_listbox_delete folders d Fd) as L.
      rewrite Forall_forall in *. intros j Hj. specialize (Hd j Hj). lia.
Qed.

Lemma descending_snoc m a :
  StronglySorted (fun x y => y < x) m -> Forall (fun x => a < x) m ->
  StronglySorted (fun x y => y < x) (m ++ [a]).
Proof.
  induction 1 as [|x m S IH Hx]; intros F; cbn [app].
  - repeat constructor.
  - inversion F; subst. constructor; [now apply IH|].
    apply Forall_app. split; [exact Hx|]. now repeat constructor.
Qed.

Lemma descending_rev l :
  StronglySorted lt l -> StronglySorted (fun x y => y < x) (rev l).
Proof.
  induction 1 as [|a l S IH Ha]; cbn [rev]; [constructor|].
  apply descending_snoc; [exact IH|]. now apply Forall_rev.
Qed.

(** X28.  Adding folders, one by one or in a batch, keeps the list box
    and the folder list in step: row i shows folder i and no folder is
    listed twice, also when the batch names a folder twice. *)
Theorem adding_keeps_rows_beside_folders fs display_name folder_selected result w :
  consistent w ->
  consistent (add_input_folder fs display_name folder_selected w)
  /\ consistent (fst (batch_add_folders fs display_name result w)).
Proof.
  intros C. split.
  - destruct folder_selected as [folder|]; cbn [add_input_folder]; [|exact C].
    now apply add_folder_consistent.
  - unfold batch_add_folders. destruct result as [|f rest]; [exact C|].
    pose proof (add_each_spec fs display_name (f :: rest) w 0) as H.
    cbv zeta in H. destruct H as (H & _).
    destruct (add_each fs display_name (f :: rest) w 0) as [w' n].
    cbn [fst] in *. auto.
Qed.

Lemma adding_keeps_rows_beside_folders_witness :
  consistent (add_input_folder (Dir None true [(str "d", mobile_example)])
                (fun _ => str "D") (Some [str "d"]) three_folders)
  /\ consistent (fst (batch_add_folders
                        (Dir None true [(str "d", mobile_example)])
                        (fun _ => str "D")
                        [[str "d"]; [str "b"]; [str "d"]; [str "e"]]
                        three_folders)).
Proof.
  apply (adding_keeps_rows_beside_folders
           (Dir None true [(str "d", mobile_example)]) (fun _ => str "D")
           (Some [str "d"]) [[str "d"]; [str "b"]; [str "d"]; [str "e"]]
           three_folders).
  split; [|reflexivity]. cbn [three_folders input_folders].
  repeat constructor; cbn [In]; intros H;
    repeat (destruct H as [H|H]; try discriminate H); exact H.
Defined.

(** X29.  After a batch add the folder list is the old list followed
    by new entries; a folder is listed exactly when it was listed before or
    is a chosen folder of a recognised layout; and the count that is logged
    is the number of new entries. *)
Theorem batch_add_appends_the_new_accepted fs display_name result w :
  let out := batch_add_folders fs display_name result w in
  (forall g, In g (input_folders (fst out))
             <-> In g (input_folders w)
                 \/ (In g result /\ accepted fs g = true))
  /\ (exists more, input_folders (fst out) = input_folders w ++ more
                   /\ forall n, snd out = Some n -> n = length more).
Proof.
  cbv zeta. unfold batch_add_folders. destruct result as [|f rest].
  - cbn [fst snd]. split.
    + intros g. split; [now left|]. intros [H|[[] _]]. exact H.
    + exists []. rewrite app_nil_r. split; [reflexivity|discriminate].
  - pose proof (add_each_spec fs display_name (f :: rest) w 0) as H.
    cbv zeta in H. destruct H as (_ & H2 & H3 & more & H4).
    destruct (add_each fs display_name (f :: rest) w 0) as [w' n].
    cbn [fst snd] in *. split; [exact H2|].
    exists more. split; [exact H4|].
    intros k Hk. injection Hk as <-. rewrite H4, length_app in H3. lia.
Qed.

(** X30.  When rows and folders are in step, removing the selected
    rows raises nothing and removes exactly the rows and the folders at
    the selected positions, leaving the two lists in step. *)
Theorem remove_selected_drops_those_rows selected_indices w :
  consistent w ->
  selection (length (input_folders w)) selected_indices ->
  remove_selected_folder selected_indices w
  = (None, {| input_folders := unselected selected_indices 0 (input_folders w);
              input_listbox := unselected selected_indices 0 (input_listbox w) |})
  /\ consistent
       {| input_folders := unselected selected_indices 0 (input_folders w);
          input_listbox := unselected selected_indices 0 (input_listbox w) |}.
Proof.
  intros C [S F].
  assert (R : forall A (l : list A),
             unselected (rev selected_indices) 0 l
             = unselected selected_indices 0 l).
  { intros A l. apply unselected_ext. intros j. symmetry. apply in_rev. }
  destruct (remove_each_descending (rev selected_indices) w C
              (descending_rev selected_indices S)
              (Forall_rev F)) as [E N].
  rewrite !R in E. rewrite R in N.
  split.
  - unfold remove_selected_folder. destruct selected_indices as [|i rest].
    + destruct w as [folders rows]. cbn [input_folders input_listbox].
      now rewrite !unselected_above by constructor.
    + exact E.
  - split; cbn [input_folders input_listbox]; [exact N|].
    destruct C as [_ M]. now rewrite map_unselected, M.
Qed.

Lemma remove_selected_drops_those_rows_witness :
  remove_selected_folder [0; 2] three_folders
  = (None, {| input_folders := unselected [0; 2] 0 (input_folders three_folders);
              input_listbox := unselected [0; 2] 0 (input_listbox three_folders) |})
  /\ consistent
       {| input_folders := unselected [0; 2] 0 (input_folders three_folders);
          input_listbox := unselected [0; 2] 0 (input_listbox three_folders) |}.
Proof.
  apply (remove_selected_drops_those_rows [0; 2] three_folders).
  - split; [|reflexivity]. cbn [three_folders input_folders].
    repeat constructor; cbn [In]; intros H;
      repeat (destruct H as [H|H]; try discriminate H); exact H.
  - split; cbn [three_folders input_folders length].
    + repeat constructor.
    + repeat constructor.
Defined.

End FolderListProofs.
